(** * DovuiTet2026: the quiz session coordinator of server.js

    A shallow embedding of the in-memory state machine of server.js
    (phases, run clock, team join / kick / takeover, reveal and scoring)
    together with the properties of the session coordinator. The
    loaders of sheets_store.js and the escaping helper of client.js are
    embedded as well.

    Conventions of the embedding.
    - [Date.now()] is an input of every step ([now] of [Env]); all reads
      made while one event is handled return the same value.
    - [Math.random()] is an input too: draw number [k] of a step is
      [random k], a natural number, and [Math.floor(Math.random() * n)] is
      [random k mod n].
    - JavaScript numbers that the program divides or rounds are exact
      rationals ([Q]); millisecond clocks and scores are integers ([Z]).
    - Text is a string of UTF-8 bytes.
    - The argument of a socket event is an input: the value as sent where
      the handler converts it itself ([Number(choiceIndex)]), and the
      absence of an argument where the handler takes it apart.
    - [Map] and [Set] keep insertion order, so they are association lists
      and duplicate-free lists.
    - A handler returns the new state with the list of what it emitted, in
      order: socket messages and calls to the sheet store. *)

From Stdlib Require Import ZArith QArith Qround String Ascii List Bool Lia.
From Stdlib Require Import Permutation DecimalString.
Import ListNotations.

Local Open Scope string_scope.
Local Open Scope Z_scope.

(** ** JavaScript values *)

(** A number as [Number.isFinite] sees it. [NotFinite] stands for NaN, the
    infinities, and every value that is not a number at all. *)
Inductive JsNum : Type :=
| Fin (q : Q)
| NotFinite.

(** A value as it arrives in the argument of a socket event (JSON, or
    [undefined] when the argument is left out). A string and an object
    stand with the number that [Number(...)] reads in them: 0 in the empty
    string and in [[]], 2 in the string "2" and in [[2]], nothing finite in
    the string "two" or in [{}]. *)
Inductive JsValue : Type :=
| JsUndefined
| JsNull
| JsBool (b : bool)
| JsNumber (n : JsNum)
| JsString (reading : JsNum)
| JsObject (reading : JsNum).

(** [Number(v)]. *)
Definition js_Number (v : JsValue) : JsNum :=
  match v with
  | JsUndefined => NotFinite
  | JsNull => Fin 0
  | JsBool b => if b then Fin 1 else Fin 0
  | JsNumber n => n
  | JsString reading => reading
  | JsObject reading => reading
  end.

(** [Math.round]: the nearest integer, halves rounded up. *)
Definition Math_round (q : Q) : Z := Qfloor (q + (1 # 2))%Q.

(** Truthiness of an optional string payload field. *)
Definition truthy (o : option string) : bool :=
  match o with
  | Some s => negb (s =? "")%string
  | None => false
  end.

(** Text is held as its UTF-8 bytes. [String.prototype.trim] removes the
    WhiteSpace and LineTerminator code points at both ends: U+0009 to
    U+000D and U+0020 (one byte each), U+00A0 (two bytes), and U+1680,
    U+2000 to U+200A, U+2028, U+2029, U+202F, U+205F, U+3000 and U+FEFF
    (three bytes each). *)
Definition is_white (c : ascii) : bool :=
  let n := nat_of_ascii c in
  ((n =? 32) || ((9 <=? n) && (n <=? 13)))%nat.

Definition is_white2 (c1 c2 : ascii) : bool :=
  ((nat_of_ascii c1 =? 194) && (nat_of_ascii c2 =? 160))%nat.

Definition is_white3 (c1 c2 c3 : ascii) : bool :=
  let a := nat_of_ascii c1 in
  let b := nat_of_ascii c2 in
  let c := nat_of_ascii c3 in
  (((a =? 225) && (b =? 154) && (c =? 128))
   || ((a =? 226) && (b =? 128) &&
       (((128 <=? c) && (c <=? 138)) || (c =? 168) || (c =? 169) || (c =? 175)))
   || ((a =? 226) && (b =? 129) && (c =? 159))
   || ((a =? 227) && (b =? 128) && (c =? 128))
   || ((a =? 239) && (b =? 187) && (c =? 191)))%nat.

Fixpoint trim_left (s : string) : string :=
  match s with
  | String c1 s1 =>
      if is_white c1 then trim_left s1
      else
        match s1 with
        | String c2 s2 =>
            if is_white2 c1 c2 then trim_left s2
            else
              match s2 with
              | String c3 s3 => if is_white3 c1 c2 c3 then trim_left s3 else s
              | EmptyString => s
              end
        | EmptyString => s
        end
  | EmptyString => EmptyString
  end.

(** The text is exactly one white space character. *)
Definition one_white (s : string) : bool :=
  match s with
  | String c1 EmptyString => is_white c1
  | String c1 (String c2 EmptyString) => is_white2 c1 c2
  | String c1 (String c2 (String c3 EmptyString)) => is_white3 c1 c2 c3
  | _ => false
  end.

Fixpoint trim_right (s : string) : string :=
  match s with
  | String c s' =>
      let r := String c (trim_right s') in
      if one_white r then EmptyString else r
  | EmptyString => EmptyString
  end.

(** [String.prototype.trim]. *)
Definition trim (s : string) : string := trim_right (trim_left s).

(** The text begins with a white space character. *)
Definition starts_white (s : string) : bool :=
  match s with
  | String c1 s1 =>
      is_white c1 ||
      match s1 with
      | String c2 s2 =>
          is_white2 c1 c2 ||
          match s2 with
          | String c3 _ => is_white3 c1 c2 c3
          | EmptyString => false
          end
      | EmptyString => false
      end
  | EmptyString => false
  end.

(** ** Insertion-ordered [Map] and [Set] *)

Module JsMap.
Section Defs.
Context {V : Type}.

Definition t := list (string * V).

Fixpoint get (m : t) (k : string) : option V :=
  match m with
  | [] => None
  | (k', v) :: m' => if (k' =? k)%string then Some v else get m' k
  end.

Definition has (m : t) (k : string) : bool :=
  match get m k with Some _ => true | None => false end.

(** [set] keeps the position of a key that is already there and appends a
    new key at the end. *)
Fixpoint set (m : t) (k : string) (v : V) : t :=
  match m with
  | [] => [(k, v)]
  | (k', v') :: m' => if (k' =? k)%string then (k', v) :: m' else (k', v') :: set m' k v
  end.

Definition delete (m : t) (k : string) : t :=
  filter (fun kv => negb (fst kv =? k)%string) m.

Definition values (m : t) : list V := map snd m.

(** A loop [for (const v of m.values())] that assigns to fields of [v]. *)
Definition update_all (f : V -> V) (m : t) : t :=
  map (fun kv => (fst kv, f (snd kv))) m.

End Defs.
Arguments t : clear implicits.
End JsMap.

Module JsSet.

Definition t := list string.

Definition has (s : t) (x : string) : bool := existsb (String.eqb x) s.

Definition add (s : t) (x : string) : t := if has s x then s else (s ++ [x])%list.

Definition delete (s : t) (x : string) : t :=
  filter (fun y => negb (y =? x)%string) s.

End JsSet.

(** ** Scoring *)

(** [computeQuestionScore(isCorrect, lockedAtRunMs, timeSec)]. *)
Definition computeQuestionScore (isCorrect : bool) (lockedAtRunMs timeSec : JsNum) : Z :=
  if negb isCorrect then 0
  else
    let timeSec' : Z :=
      match timeSec with
      | Fin t => Z.max 1 (Math_round t)
      | NotFinite => 20
      end in
    let elapsedSec : Q :=
      match lockedAtRunMs with
      | Fin ms => (ms / 1000)%Q
      | NotFinite => inject_Z timeSec'
      end in
    let maxPoints := 20 in
    if Qle_bool elapsedSec 4 then maxPoints
    else
      let secondsLate := Z.max 0 (Qceiling (elapsedSec - 4)%Q) in
      Z.max 0 (maxPoints - secondsLate).

(** The same function on a clock reading in whole milliseconds. *)
Definition scoreAtMs (isCorrect : bool) (ms timeSec : Z) : Z :=
  computeQuestionScore isCorrect (Fin (inject_Z ms)) (Fin (inject_Z timeSec)).

(** ** Data model *)

Definition SockId := string.
Definition Pin := string.

Inductive Phase : Type := lobby | question | revealed | leaderboard | finished.

Definition Phase_eqb (a b : Phase) : bool :=
  match a, b with
  | lobby, lobby | question, question | revealed, revealed
  | leaderboard, leaderboard | finished, finished => true
  | _, _ => false
  end.

(** [lastResult]: "correct", "wrong", or null ([None]). *)
Inductive Outcome : Type := correct | wrong.

(** An entry of [TEAM_REGISTRY]. *)
Record TeamInfo : Type := mkTeamInfo {
  ti_pin : Pin;
  ti_name : string;
  ti_avatarUrl : string;
  ti_members : list string
}.

(** An entry of [QUESTION_BANK]. [q_timeSec] is [None] when the field is
    not a number; the media fields are [""] when absent. *)
Record Question : Type := mkQuestion {
  qId : string;
  text : string;
  choices : list string;
  correctIndex : Z;
  q_timeSec : option Z;
  mediaType : string;
  mediaUrl : string
}.

(** A connected socket: its id and what [getClientIp] and [getUserAgent]
    read from its handshake. *)
Record Socket : Type := mkSocket {
  sock_id : SockId;
  sock_ip : string;
  sock_userAgent : string
}.

Record Team : Type := mkTeam {
  id : SockId;
  pin : Pin;
  name : string;
  avatarUrl : string;
  members : list string;
  leaderName : string;
  score : Z;
  lockedChoice : option Z;
  lockedAtRunMs : option Z;
  lastResult : option Outcome;
  lastPointsAwarded : Z;
  ip : string;
  userAgent : string;
  joinedAt : Z
}.

(** [makeGameId()]: the clock reading and the random draw it is built of. *)
Definition GameId : Type := Z * Z.

(** [makeQuestionRunId()]: game id, question number, clock reading. *)
Definition QuestionRunId : Type := GameId * Z * Z.

Record State : Type := mkState {
  title : string;
  gameId : GameId;
  phase : Phase;
  qIndex : Z;
  paused : bool;
  manualScoring : bool;
  startedAtMs : Z;
  accumulatedRunMs : Z;
  timeSec : Z;
  shuffleQuestions : bool;
  shuffleChoices : bool;
  gameQuestions : option (list Question);
  teams : JsMap.t Team;
  claimedPins : JsSet.t;
  hostId : option SockId;
  projectorIds : JsSet.t;
  questionLogged : bool;
  questionRunId : option QuestionRunId
}.

(** An entry of [pendingTakeovers]. *)
Record Takeover : Type := mkTakeover {
  requesterId : SockId;
  requestedAt : Z;
  tk_ip : string;
  tk_userAgent : string
}.

(** Everything the handlers read and write: [state], [pendingTakeovers]
    and the sockets the transport holds open ([io.sockets.sockets]). *)
Record World : Type := mkWorld {
  state : State;
  pendingTakeovers : JsMap.t Takeover;
  sockets : JsMap.t Socket
}.

(** What one step reads from outside. *)
Record Env : Type := mkEnv {
  now : Z;
  random : nat -> Z
}.

(** *** Field updates of [state] and of a team *)

Definition set_phase v s := mkState (title s) (gameId s) v (qIndex s) (paused s) (manualScoring s) (startedAtMs s) (accumulatedRunMs s) (timeSec s) (shuffleQuestions s) (shuffleChoices s) (gameQuestions s) (teams s) (claimedPins s) (hostId s) (projectorIds s) (questionLogged s) (questionRunId s).
Definition set_qIndex v s := mkState (title s) (gameId s) (phase s) v (paused s) (manualScoring s) (startedAtMs s) (accumulatedRunMs s) (timeSec s) (shuffleQuestions s) (shuffleChoices s) (gameQuestions s) (teams s) (claimedPins s) (hostId s) (projectorIds s) (questionLogged s) (questionRunId s).
Definition set_paused v s := mkState (title s) (gameId s) (phase s) (qIndex s) v (manualScoring s) (startedAtMs s) (accumulatedRunMs s) (timeSec s) (shuffleQuestions s) (shuffleChoices s) (gameQuestions s) (teams s) (claimedPins s) (hostId s) (projectorIds s) (questionLogged s) (questionRunId s).
Definition set_manualScoring v s := mkState (title s) (gameId s) (phase s) (qIndex s) (paused s) v (startedAtMs s) (accumulatedRunMs s) (timeSec s) (shuffleQuestions s) (shuffleChoices s) (gameQuestions s) (teams s) (claimedPins s) (hostId s) (projectorIds s) (questionLogged s) (questionRunId s).
Definition set_startedAtMs v s := mkState (title s) (gameId s) (phase s) (qIndex s) (paused s) (manualScoring s) v (accumulatedRunMs s) (timeSec s) (shuffleQuestions s) (shuffleChoices s) (gameQuestions s) (teams s) (claimedPins s) (hostId s) (projectorIds s) (questionLogged s) (questionRunId s).
Definition set_accumulatedRunMs v s := mkState (title s) (gameId s) (phase s) (qIndex s) (paused s) (manualScoring s) (startedAtMs s) v (timeSec s) (shuffleQuestions s) (shuffleChoices s) (gameQuestions s) (teams s) (claimedPins s) (hostId s) (projectorIds s) (questionLogged s) (questionRunId s).
Definition set_timeSec v s := mkState (title s) (gameId s) (phase s) (qIndex s) (paused s) (manualScoring s) (startedAtMs s) (accumulatedRunMs s) v (shuffleQuestions s) (shuffleChoices s) (gameQuestions s) (teams s) (claimedPins s) (hostId s) (projectorIds s) (questionLogged s) (questionRunId s).
Definition set_shuffleQuestions v s := mkState (title s) (gameId s) (phase s) (qIndex s) (paused s) (manualScoring s) (startedAtMs s) (accumulatedRunMs s) (timeSec s) v (shuffleChoices s) (gameQuestions s) (teams s) (claimedPins s) (hostId s) (projectorIds s) (questionLogged s) (questionRunId s).
Definition set_shuffleChoices v s := mkState (title s) (gameId s) (phase s) (qIndex s) (paused s) (manualScoring s) (startedAtMs s) (accumulatedRunMs s) (timeSec s) (shuffleQuestions s) v (gameQuestions s) (teams s) (claimedPins s) (hostId s) (projectorIds s) (questionLogged s) (questionRunId s).
Definition set_gameQuestions v s := mkState (title s) (gameId s) (phase s) (qIndex s) (paused s) (manualScoring s) (startedAtMs s) (accumulatedRunMs s) (timeSec s) (shuffleQuestions s) (shuffleChoices s) v (teams s) (claimedPins s) (hostId s) (projectorIds s) (questionLogged s) (questionRunId s).
Definition set_teams v s := mkState (title s) (gameId s) (phase s) (qIndex s) (paused s) (manualScoring s) (startedAtMs s) (accumulatedRunMs s) (timeSec s) (shuffleQuestions s) (shuffleChoices s) (gameQuestions s) v (claimedPins s) (hostId s) (projectorIds s) (questionLogged s) (questionRunId s).
Definition set_claimedPins v s := mkState (title s) (gameId s) (phase s) (qIndex s) (paused s) (manualScoring s) (startedAtMs s) (accumulatedRunMs s) (timeSec s) (shuffleQuestions s) (shuffleChoices s) (gameQuestions s) (teams s) v (hostId s) (projectorIds s) (questionLogged s) (questionRunId s).
Definition set_hostId v s := mkState (title s) (gameId s) (phase s) (qIndex s) (paused s) (manualScoring s) (startedAtMs s) (accumulatedRunMs s) (timeSec s) (shuffleQuestions s) (shuffleChoices s) (gameQuestions s) (teams s) (claimedPins s) v (projectorIds s) (questionLogged s) (questionRunId s).
Definition set_projectorIds v s := mkState (title s) (gameId s) (phase s) (qIndex s) (paused s) (manualScoring s) (startedAtMs s) (accumulatedRunMs s) (timeSec s) (shuffleQuestions s) (shuffleChoices s) (gameQuestions s) (teams s) (claimedPins s) (hostId s) v (questionLogged s) (questionRunId s).
Definition set_questionLogged v s := mkState (title s) (gameId s) (phase s) (qIndex s) (paused s) (manualScoring s) (startedAtMs s) (accumulatedRunMs s) (timeSec s) (shuffleQuestions s) (shuffleChoices s) (gameQuestions s) (teams s) (claimedPins s) (hostId s) (projectorIds s) v (questionRunId s).
Definition set_questionRunId v s := mkState (title s) (gameId s) (phase s) (qIndex s) (paused s) (manualScoring s) (startedAtMs s) (accumulatedRunMs s) (timeSec s) (shuffleQuestions s) (shuffleChoices s) (gameQuestions s) (teams s) (claimedPins s) (hostId s) (projectorIds s) (questionLogged s) v.

Definition set_score v t := mkTeam (id t) (pin t) (name t) (avatarUrl t) (members t) (leaderName t) v (lockedChoice t) (lockedAtRunMs t) (lastResult t) (lastPointsAwarded t) (ip t) (userAgent t) (joinedAt t).
Definition set_lockedChoice v t := mkTeam (id t) (pin t) (name t) (avatarUrl t) (members t) (leaderName t) (score t) v (lockedAtRunMs t) (lastResult t) (lastPointsAwarded t) (ip t) (userAgent t) (joinedAt t).
Definition set_lockedAtRunMs v t := mkTeam (id t) (pin t) (name t) (avatarUrl t) (members t) (leaderName t) (score t) (lockedChoice t) v (lastResult t) (lastPointsAwarded t) (ip t) (userAgent t) (joinedAt t).
Definition set_lastResult v t := mkTeam (id t) (pin t) (name t) (avatarUrl t) (members t) (leaderName t) (score t) (lockedChoice t) (lockedAtRunMs t) v (lastPointsAwarded t) (ip t) (userAgent t) (joinedAt t).
Definition set_lastPointsAwarded v t := mkTeam (id t) (pin t) (name t) (avatarUrl t) (members t) (leaderName t) (score t) (lockedChoice t) (lockedAtRunMs t) (lastResult t) v (ip t) (userAgent t) (joinedAt t).

(** ** What a handler emits *)

Record PublicTeam : Type := mkPublicTeam {
  pt_id : SockId;
  pt_pin : Pin;
  pt_name : string;
  pt_avatarUrl : string;
  pt_members : list string;
  pt_leaderName : string;
  pt_score : Z;
  pt_lockedChoice : option Z;
  pt_lockedAtRunMs : option Z;
  pt_lastResult : option Outcome
}.

Record PublicState : Type := mkPublicState {
  ps_title : string;
  ps_phase : Phase;
  ps_qIndex : Z;
  ps_paused : bool;
  ps_manualScoring : bool;
  ps_timer : option Z;
  ps_question : option Question;
  ps_teams : list PublicTeam;
  ps_shuffleQuestions : bool;
  ps_shuffleChoices : bool
}.

Record HostTeam : Type := mkHostTeam {
  ht_id : SockId;
  ht_pin : Pin;
  ht_name : string;
  ht_avatarUrl : string;
  ht_score : Z;
  ht_members : list string;
  ht_leaderName : string;
  ht_joinedAt : Z;
  ht_ip : string;
  ht_userAgent : string
}.

Record HostState : Type := mkHostState {
  hs_teams : list HostTeam;
  hs_takeovers : list (Pin * Takeover)
}.

(** A row of the QuestionLog sheet. *)
Record QuestionRow : Type := mkQuestionRow {
  qr_ts : Z;
  qr_gameId : GameId;
  qr_questionRunId : option QuestionRunId;
  qr_number : Z;
  qr_text : string;
  qr_mediaType : string;
  qr_mediaUrl : string;
  qr_choices : string * string * string * string;
  qr_correctLetter : string
}.

(** A row of the AnswerLog sheet. *)
Record AnswerRow : Type := mkAnswerRow {
  ar_ts : Z;
  ar_gameId : GameId;
  ar_questionRunId : option QuestionRunId;
  ar_number : Z;
  ar_pin : Pin;
  ar_name : string;
  ar_answerLetter : string;
  ar_isCorrect : bool;
  ar_timeMs : option Z;
  ar_points : Z;
  ar_score : Z
}.

(** Socket messages, named after their event. *)
Inductive Msg : Type :=
| msg_state (p : PublicState)
| msg_hostState (h : HostState)
| msg_joined (teamId : SockId) (name avatarUrl : string)
| msg_joinError (m : string)
| msg_takeoverRequested (p : Pin)
| msg_takeoverPending (p : Pin) (requester : SockId) (at_ms : Z) (ip userAgent : string)
| msg_takeoverApproved
| msg_takeoverDenied
| msg_kicked
| msg_hostError (m : string).

(** One emission: a message to every socket ([io.emit]), a message to one
    socket ([socket.emit], [io.to(id).emit]), or a call to the sheet store.
    The store calls are issued and never awaited. *)
Inductive Out : Type :=
| io_emit (m : Msg)
| emit_to (sid : SockId) (m : Msg)
| appendQuestionRow (row : QuestionRow)
| appendAnswerRows (rows : list AnswerRow)
| updateScoresToSheet (pinToScore : JsMap.t Z).

(** The events a socket sends with their argument present, as the handlers
    read it: a code is [String(pin || "")] before trimming, [choiceIndex]
    is the value as it was sent, a shuffle flag is [None] unless it is a
    boolean, [val] is [!!val], and [delta] is [Number(delta)] when that is a
    whole number and [None] when it is not finite. Scores are whole numbers
    here and their sums are exact, as they are in JavaScript up to 2^53; a
    [delta] with a fractional part is outside the embedding. An event that
    comes without its argument is [without_payload] below. *)
Inductive ClientEvent : Type :=
| registerHost
| registerProjector
| joinTeam (pin : string)
| hostKickTeam (teamId pin : option string)
| hostApproveTakeover (pin : string)
| hostDenyTakeover (pin : string)
| lockAnswer (choiceIndex : JsValue)
| hostReset
| hostSetShuffle (shuffleQuestions shuffleChoices : option bool)
| hostSetManualScoring (val : bool)
| hostAdjustScore (teamId : SockId) (delta : option Z)
| hostStart
| hostPauseToggle
| hostReveal
| hostNext.

(** The names of the events the server listens to. *)
Inductive EventName : Type :=
| ev_registerHost
| ev_registerProjector
| ev_joinTeam
| ev_hostKickTeam
| ev_hostApproveTakeover
| ev_hostDenyTakeover
| ev_lockAnswer
| ev_hostReset
| ev_hostSetShuffle
| ev_hostSetManualScoring
| ev_hostAdjustScore
| ev_hostStart
| ev_hostPauseToggle
| ev_hostReveal
| ev_hostNext.

(** An event sent with no argument ([undefined]) or with [null]. *)
Inductive Missing : Type :=
| no_argument
| null_argument.

(** The handlers whose parameter is an object pattern, as in
    [({ pin }) => ...]: binding the pattern to [undefined] or to [null]
    throws a TypeError before the first statement of the handler. *)
Definition destructures (n : EventName) : bool :=
  match n with
  | ev_joinTeam | ev_hostKickTeam | ev_hostApproveTakeover | ev_hostDenyTakeover
  | ev_hostSetShuffle | ev_hostAdjustScore => true
  | _ => false
  end.

(** What the handler of [n] reads when the argument is missing: [None] when
    binding its parameter throws; otherwise the handlers without a
    parameter run as ever, lockAnswer reads [undefined] or [null], and
    hostSetManualScoring reads [!!undefined] or [!!null]. *)
Definition without_payload (n : EventName) (m : Missing) : option ClientEvent :=
  match n with
  | ev_registerHost => Some registerHost
  | ev_registerProjector => Some registerProjector
  | ev_lockAnswer =>
      Some (lockAnswer match m with
                       | no_argument => JsUndefined
                       | null_argument => JsNull
                       end)
  | ev_hostReset => Some hostReset
  | ev_hostSetManualScoring => Some (hostSetManualScoring false)
  | ev_hostStart => Some hostStart
  | ev_hostPauseToggle => Some hostPauseToggle
  | ev_hostReveal => Some hostReveal
  | ev_hostNext => Some hostNext
  | ev_joinTeam | ev_hostKickTeam | ev_hostApproveTakeover | ev_hostDenyTakeover
  | ev_hostSetShuffle | ev_hostAdjustScore => None
  end.

(** What the process reacts to: a new connection, an event of a connected
    socket, the loss of a connection, and the 200 ms timer. *)
Inductive Event : Type :=
| connection (s : Socket)
| message (sid : SockId) (e : ClientEvent)
| disconnect (sid : SockId)
| tick.

(** ** Helpers *)

Definition GAME_TITLE : string := "Đố vui Tết 2026".

Definition makeGameId (env : Env) : GameId :=
  (now env, random env 0 mod 1000000).

(** [arr[i] = x] on an index in range. *)
Fixpoint assign {A : Type} (i : nat) (x : A) (arr : list A) : list A :=
  match arr, i with
  | [], _ => []
  | _ :: r, O => x :: r
  | a :: r, S i' => a :: assign i' x r
  end.

(** [[arr[i], arr[j]] = [arr[j], arr[i]]]. *)
Definition swap {A : Type} (i j : nat) (arr : list A) : list A :=
  match nth_error arr i, nth_error arr j with
  | Some a, Some b => assign j a (assign i b arr)
  | _, _ => arr
  end.

(** The loop of [shuffleArray] from index [i] down to 1; [k] counts the
    random draws already made. *)
Fixpoint shuffle_from {A : Type} (rnd : nat -> Z) (i : nat) (arr : list A) (k : nat)
  : list A * nat :=
  match i with
  | O => (arr, k)
  | S i' =>
      let j := Z.to_nat (rnd k mod Z.of_nat (i + 1)) in
      shuffle_from rnd i' (swap i j arr) (S k)
  end.

Definition shuffleArray {A : Type} (rnd : nat -> Z) (arr : list A) (k : nat)
  : list A * nat :=
  shuffle_from rnd (length arr - 1) arr k.

(** [Array.prototype.findIndex], -1 when nothing matches. *)
Fixpoint findIndex {A : Type} (f : A -> bool) (arr : list A) : Z :=
  match arr with
  | [] => -1
  | a :: r => if f a then 0 else
      let i := findIndex f r in if i <? 0 then -1 else i + 1
  end.

Definition shuffleChoicesForQuestion (rnd : nat -> Z) (q : Question) (k : nat)
  : Question * nat :=
  let pairs := combine (choices q) (seq 0 (length (choices q))) in
  let '(pairs', k') := shuffleArray rnd pairs k in
  (mkQuestion (qId q) (text q) (map fst pairs')
     (findIndex (fun p => Z.of_nat (snd p) =? correctIndex q) pairs')
     (q_timeSec q) (mediaType q) (mediaUrl q), k').

(** [qlist.map(q => shuffleChoicesForQuestion(q))], threading the draws. *)
Fixpoint shuffleChoicesAll (rnd : nat -> Z) (qs : list Question) (k : nat)
  : list Question * nat :=
  match qs with
  | [] => ([], k)
  | q :: r =>
      let '(q', k1) := shuffleChoicesForQuestion rnd q k in
      let '(r', k2) := shuffleChoicesAll rnd r k1 in
      (q' :: r', k2)
  end.

Definition safeChoice (q : Question) (i : nat) : string :=
  match nth_error (choices q) i with
  | Some c => c
  | None => ""
  end.

(** ["ABCD"[i] || ""] *)
Definition letterOf (i : Z) : string :=
  if i =? 0 then "A" else if i =? 1 then "B" else if i =? 2 then "C"
  else if i =? 3 then "D" else "".

(** ** The state and its projections *)

Definition resetState (env : Env) : State :=
  {| title := GAME_TITLE;
     gameId := makeGameId env;
     phase := lobby;
     qIndex := -1;
     paused := true;
     manualScoring := false;
     startedAtMs := 0;
     accumulatedRunMs := 0;
     timeSec := 20;
     shuffleQuestions := true;
     shuffleChoices := true;
     gameQuestions := None;
     teams := [];
     claimedPins := [];
     hostId := None;
     projectorIds := [];
     questionLogged := false;
     questionRunId := None |}.

Definition getCurrentQuestionObj (s : State) : option Question :=
  match gameQuestions s with
  | Some qs => if 0 <=? qIndex s then nth_error qs (Z.to_nat (qIndex s)) else None
  | None => None
  end.

Definition getRunElapsedMs (env : Env) (s : State) : Z :=
  if negb (Phase_eqb (phase s) question) then accumulatedRunMs s
  else if paused s then accumulatedRunMs s
  else accumulatedRunMs s + (now env - startedAtMs s).

Definition getRemainingSec (env : Env) (s : State) : option Z :=
  if negb (Phase_eqb (phase s) question) then None
  else
    let elapsed := (inject_Z (getRunElapsedMs env s) / 1000)%Q in
    Some (Z.max 0 (Qceiling (inject_Z (timeSec s) - elapsed)%Q)).

Definition publicTeam (t : Team) : PublicTeam :=
  mkPublicTeam (id t) (pin t) (name t) (avatarUrl t) (members t) (leaderName t)
    (score t) (lockedChoice t) (lockedAtRunMs t) (lastResult t).

Definition publicState (env : Env) (s : State) : PublicState :=
  {| ps_title := title s;
     ps_phase := phase s;
     ps_qIndex := qIndex s;
     ps_paused := paused s;
     ps_manualScoring := manualScoring s;
     ps_timer := getRemainingSec env s;
     ps_question := getCurrentQuestionObj s;
     ps_teams := map publicTeam (JsMap.values (teams s));
     ps_shuffleQuestions := shuffleQuestions s;
     ps_shuffleChoices := shuffleChoices s |}.

Definition hostTeam (t : Team) : HostTeam :=
  mkHostTeam (id t) (pin t) (name t) (avatarUrl t) (score t) (members t)
    (leaderName t) (joinedAt t) (ip t) (userAgent t).

Definition hostState (w : World) : HostState :=
  {| hs_teams := map hostTeam (JsMap.values (teams (state w)));
     hs_takeovers := pendingTakeovers w |}.

Definition isHost (socket : Socket) (s : State) : bool :=
  match hostId s with
  | Some h => (sock_id socket =? h)%string
  | None => false
  end.

Definition broadcast (env : Env) (w : World) : list Out :=
  io_emit (msg_state (publicState env (state w))) ::
  match hostId (state w) with
  | Some h => [emit_to h (msg_hostState (hostState w))]
  | None => []
  end.

Definition makeQuestionRunId (env : Env) (s : State) : QuestionRunId :=
  (gameId s, qIndex s + 1, now env).

(** ** Sheet writes *)

(** [logQuestionIfNeeded()] up to its first [await]: the guard, the two
    assignments and the call of [appendQuestionRow]. *)
Definition logQuestionIfNeeded (env : Env) (s : State) : State * list Out :=
  if negb (Phase_eqb (phase s) question) then (s, [])
  else if questionLogged s then (s, [])
  else
    match getCurrentQuestionObj s with
    | None => (s, [])
    | Some q =>
        let s1 := set_questionLogged true s in
        let s2 := set_questionRunId (Some (makeQuestionRunId env s1)) s1 in
        let row :=
          {| qr_ts := now env;
             qr_gameId := gameId s2;
             qr_questionRunId := questionRunId s2;
             qr_number := qIndex s2 + 1;
             qr_text := text q;
             qr_mediaType := mediaType q;
             qr_mediaUrl := mediaUrl q;
             qr_choices := (safeChoice q 0, safeChoice q 1, safeChoice q 2, safeChoice q 3);
             qr_correctLetter := letterOf (correctIndex q) |} in
        (s2, [appendQuestionRow row])
    end.

Definition answerRow (env : Env) (s : State) (q : Question) (t : Team) : AnswerRow :=
  {| ar_ts := now env;
     ar_gameId := gameId s;
     ar_questionRunId := questionRunId s;
     ar_number := qIndex s + 1;
     ar_pin := pin t;
     ar_name := name t;
     ar_answerLetter := match lockedChoice t with
                        | None => ""
                        | Some c => letterOf c
                        end;
     ar_isCorrect := match lockedChoice t with
                     | Some c => c =? correctIndex q
                     | None => false
                     end;
     ar_timeMs := lockedAtRunMs t;
     ar_points := lastPointsAwarded t;
     ar_score := score t |}.

Definition logAnswersNow (env : Env) (s : State) : list Out :=
  match getCurrentQuestionObj s with
  | None => []
  | Some q => [appendAnswerRows (map (answerRow env s q) (JsMap.values (teams s)))]
  end.

Definition syncTotalsToTeamsSheet (s : State) : list Out :=
  [updateScoresToSheet
     (fold_left (fun m t => JsMap.set m (pin t) (score t)) (JsMap.values (teams s)) [])].

(** ** Game flow *)

Definition clearAnswer (t : Team) : Team :=
  set_lastPointsAwarded 0 (set_lastResult None (set_lockedAtRunMs None (set_lockedChoice None t))).

Definition startQuestion (index : Z) (s : State) : State :=
  let s := set_phase question s in
  let s := set_qIndex index s in
  let s := set_paused true s in
  let s := set_accumulatedRunMs 0 s in
  let s := set_startedAtMs 0 s in
  let s := set_questionLogged false s in
  let s := set_questionRunId None s in
  let s := set_timeSec (match getCurrentQuestionObj s with
                        | Some q => match q_timeSec q with Some n => n | None => 20 end
                        | None => 20
                        end) s in
  set_teams (JsMap.update_all clearAnswer (teams s)) s.

Definition resume (env : Env) (s : State) : State * list Out :=
  if negb (Phase_eqb (phase s) question) || negb (paused s) then (s, [])
  else
    let '(s, out) := logQuestionIfNeeded env s in
    let s := set_paused false s in
    (set_startedAtMs (now env) s, out).

Definition pause (env : Env) (s : State) : State :=
  if negb (Phase_eqb (phase s) question) || paused s then s
  else
    let s := set_accumulatedRunMs (accumulatedRunMs s + (now env - startedAtMs s)) s in
    let s := set_startedAtMs 0 s in
    set_paused true s.

(** The body of the scoring loop of [revealAnswer] for one team. *)
Definition scoreTeam (correctIdx timeSec : Z) (t : Team) : Team :=
  let t := set_lastPointsAwarded 0 t in
  match lockedChoice t, lockedAtRunMs t with
  | Some choice, Some ms =>
      let isCorrect := choice =? correctIdx in
      let t := set_lastResult (Some (if isCorrect then correct else wrong)) t in
      let gained := computeQuestionScore isCorrect (Fin (inject_Z ms)) (Fin (inject_Z timeSec)) in
      let t := set_lastPointsAwarded gained t in
      set_score (score t + gained) t
  | _, _ => set_lastResult (Some wrong) t
  end.

Definition revealAnswer (env : Env) (s : State) : State * list Out :=
  if negb (Phase_eqb (phase s) question) then (s, [])
  else
    let s :=
      if negb (paused s) && negb (startedAtMs s =? 0)
      then set_startedAtMs 0
             (set_accumulatedRunMs (accumulatedRunMs s + (now env - startedAtMs s)) s)
      else s in
    let s := set_paused true s in
    let s := set_phase revealed s in
    match getCurrentQuestionObj s with
    | None => (s, [])
    | Some q =>
        let '(s, o0) := logQuestionIfNeeded env s in
        if manualScoring s then
          let s := set_teams
                     (JsMap.update_all
                        (fun t => set_lastPointsAwarded 0 (set_lastResult None t))
                        (teams s)) s in
          (s, o0 ++ logAnswersNow env s ++ syncTotalsToTeamsSheet s)%list
        else
          let s := set_teams
                     (JsMap.update_all (scoreTeam (correctIndex q) (timeSec s)) (teams s)) s in
          (s, o0 ++ syncTotalsToTeamsSheet s ++ logAnswersNow env s
                 ++ syncTotalsToTeamsSheet s ++ logAnswersNow env s)%list
    end.

Definition showLeaderboard (s : State) : State :=
  if negb (Phase_eqb (phase s) revealed) then s
  else set_paused true (set_phase leaderboard s).

Definition nextQuestion (s : State) : State :=
  let total := match gameQuestions s with
               | Some qs => Z.of_nat (length qs)
               | None => 0
               end in
  if total - 1 <=? qIndex s then set_paused true (set_phase finished s)
  else startQuestion (qIndex s + 1) s.

Definition buildGameQuestions (rnd : nat -> Z) (bank : list Question)
    (shuffleQuestions shuffleChoices : bool) : list Question :=
  let '(qlist, k) := if shuffleChoices then shuffleChoicesAll rnd bank 0 else (bank, 0%nat) in
  if shuffleQuestions then fst (shuffleArray rnd qlist k) else qlist.

(** ** Team join, kick and takeover *)

Definition with_state (s : State) (w : World) : World :=
  mkWorld s (pendingTakeovers w) (sockets w).

Definition with_pending (p : JsMap.t Takeover) (w : World) : World :=
  mkWorld (state w) p (sockets w).

Definition with_sockets (k : JsMap.t Socket) (w : World) : World :=
  mkWorld (state w) (pendingTakeovers w) k.

Definition findTeamByPin (s : State) (pin0 : string) : option Team :=
  let p := trim pin0 in
  find (fun t => (pin t =? p)%string) (JsMap.values (teams s)).

Definition clearPendingTakeoverForPin (pend : JsMap.t Takeover) (pin0 : string)
    (requester : option SockId) : JsMap.t Takeover :=
  let p := trim pin0 in
  match JsMap.get pend p with
  | None => pend
  | Some cur =>
      if truthy requester && negb (match requester with
                                   | Some r => (requesterId cur =? r)%string
                                   | None => false
                                   end)
      then pend
      else JsMap.delete pend p
  end.

Definition newTeam (env : Env) (socket : Socket) (enteredPin : Pin) (teamInfo : TeamInfo) : Team :=
  {| id := sock_id socket;
     pin := enteredPin;
     name := ti_name teamInfo;
     avatarUrl := ti_avatarUrl teamInfo;
     members := ti_members teamInfo;
     leaderName := match ti_members teamInfo with
                   | m :: _ => m
                   | [] => ""
                   end;
     score := 0;
     lockedChoice := None;
     lockedAtRunMs := None;
     lastResult := None;
     lastPointsAwarded := 0;
     ip := sock_ip socket;
     userAgent := sock_userAgent socket;
     joinedAt := now env |}.

Definition doJoinTeam (env : Env) (w : World) (socket : Socket) (enteredPin : Pin)
    (teamInfo : TeamInfo) : World * list Out :=
  let team := newTeam env socket enteredPin teamInfo in
  let s := state w in
  let s := set_claimedPins (JsSet.add (claimedPins s) enteredPin) s in
  let s := set_teams (JsMap.set (teams s) (sock_id socket) team) s in
  let w := with_state s w in
  (w, emit_to (sock_id socket) (msg_joined (id team) (name team) (avatarUrl team))
        :: broadcast env w).

(** The listener of ["disconnect"] of [socket]. *)
Definition on_disconnect (env : Env) (w : World) (socket : Socket) : World * list Out :=
  let sid := sock_id socket in
  let s := state w in
  let s := if match hostId s with Some h => (sid =? h)%string | None => false end
           then set_hostId None s else s in
  let s := set_projectorIds (JsSet.delete (projectorIds s) sid) s in
  let '(s, pend) :=
    match JsMap.get (teams s) sid with
    | Some team =>
        let s := set_claimedPins (JsSet.delete (claimedPins s) (pin team)) s in
        let s := set_teams (JsMap.delete (teams s) sid) s in
        (s, clearPendingTakeoverForPin (pendingTakeovers w) (pin team) None)
    | None => (s, pendingTakeovers w)
    end in
  let pend := filter (fun kv => negb (requesterId (snd kv) =? sid)%string) pend in
  let w := with_pending pend (with_state s w) in
  (w, broadcast env w).

(** [s.disconnect(true)] closes the connection at once: the transport drops
    the socket from [io.sockets.sockets] and calls its ["disconnect"]
    listener before [disconnect] returns. *)
Definition kickTeamSocket (env : Env) (w : World) (team : Team) : World * list Out :=
  let '(w, out) :=
    match JsMap.get (sockets w) (id team) with
    | Some s =>
        let w := with_sockets (JsMap.delete (sockets w) (id team)) w in
        let '(w, o) := on_disconnect env w s in
        (w, emit_to (sock_id s) msg_kicked :: o)
    | None => (w, [])
    end in
  let s := state w in
  let s := set_claimedPins (JsSet.delete (claimedPins s) (pin team)) s in
  let s := set_teams (JsMap.delete (teams s) (id team)) s in
  (with_state s w, out).

(** ** Socket handlers *)

Section Handlers.

(** The data loaded from the sheets at start-up. *)
Variable TEAM_REGISTRY : list TeamInfo.
Variable QUESTION_BANK : list Question.

Definition lookupTeamInfo (p : Pin) : option TeamInfo :=
  find (fun t => (ti_pin t =? p)%string) TEAM_REGISTRY.

Definition on_registerHost (env : Env) (w : World) (socket : Socket) : World * list Out :=
  let w := with_state (set_hostId (Some (sock_id socket)) (state w)) w in
  (w, [emit_to (sock_id socket) (msg_state (publicState env (state w)));
       emit_to (sock_id socket) (msg_hostState (hostState w))]).

Definition on_registerProjector (env : Env) (w : World) (socket : Socket) : World * list Out :=
  let s := state w in
  let w := with_state (set_projectorIds (JsSet.add (projectorIds s) (sock_id socket)) s) w in
  (w, [emit_to (sock_id socket) (msg_state (publicState env (state w)))]).

Definition on_joinTeam (env : Env) (w : World) (socket : Socket) (pin0 : string)
  : World * list Out :=
  let sid := sock_id socket in
  let entered := trim pin0 in
  match lookupTeamInfo entered with
  | None => (w, [emit_to sid (msg_joinError "Invalid team code.")])
  | Some teamInfo =>
      if JsMap.has (teams (state w)) sid
      then (w, [emit_to sid (msg_joinError "This device is already joined.")])
      else if JsSet.has (claimedPins (state w)) entered then
        let req := mkTakeover sid (now env) (sock_ip socket) (sock_userAgent socket) in
        let w := with_pending (JsMap.set (pendingTakeovers w) entered req) w in
        (w, emit_to sid (msg_takeoverRequested entered) ::
            match hostId (state w) with
            | Some h =>
                [emit_to h (msg_takeoverPending entered sid (now env)
                              (sock_ip socket) (sock_userAgent socket));
                 emit_to h (msg_hostState (hostState w))]
            | None => []
            end)
      else doJoinTeam env w socket entered teamInfo
  end.

Definition on_hostKickTeam (env : Env) (w : World) (socket : Socket)
    (teamId pin0 : option string) : World * list Out :=
  if negb (isHost socket (state w)) then (w, [])
  else
    let target :=
      if truthy teamId then
        match teamId with Some tid => JsMap.get (teams (state w)) tid | None => None end
      else if truthy pin0 then
        match pin0 with Some p => findTeamByPin (state w) p | None => None end
      else None in
    match target with
    | None => (w, [])
    | Some t =>
        let w := with_pending (clearPendingTakeoverForPin (pendingTakeovers w) (pin t) None) w in
        let '(w, o) := kickTeamSocket env w t in
        (w, o ++ broadcast env w)%list
    end.

Definition on_hostApproveTakeover (env : Env) (w : World) (socket : Socket) (pin0 : string)
  : World * list Out :=
  if negb (isHost socket (state w)) then (w, [])
  else
    let p := trim pin0 in
    match JsMap.get (pendingTakeovers w) p with
    | None => (w, [])
    | Some req =>
        let requesterSocket := JsMap.get (sockets w) (requesterId req) in
        let currentTeam := findTeamByPin (state w) p in
        let '(w, o1) :=
          match currentTeam with
          | Some t => kickTeamSocket env w t
          | None =>
              (with_state (set_claimedPins (JsSet.delete (claimedPins (state w)) p) (state w)) w,
               [])
          end in
        match requesterSocket with
        | Some rs =>
            match lookupTeamInfo p with
            | None =>
                let w := with_pending (JsMap.delete (pendingTakeovers w) p) w in
                (w, o1 ++ emit_to (sock_id rs) (msg_joinError "Invalid team code.")
                       :: broadcast env w)%list
            | Some teamInfo =>
                let w := with_state
                           (set_claimedPins (JsSet.delete (claimedPins (state w)) p) (state w)) w in
                let '(w, o2) := doJoinTeam env w rs p teamInfo in
                let w := with_pending (JsMap.delete (pendingTakeovers w) p) w in
                (w, o1 ++ o2 ++ emit_to (sock_id rs) msg_takeoverApproved
                       :: broadcast env w)%list
            end
        | None =>
            let w := with_pending (JsMap.delete (pendingTakeovers w) p) w in
            (w, o1 ++ broadcast env w)%list
        end
    end.

Definition on_hostDenyTakeover (env : Env) (w : World) (socket : Socket) (pin0 : string)
  : World * list Out :=
  if negb (isHost socket (state w)) then (w, [])
  else
    let p := trim pin0 in
    match JsMap.get (pendingTakeovers w) p with
    | None => (w, [])
    | Some req =>
        let o := match JsMap.get (sockets w) (requesterId req) with
                 | Some rs => [emit_to (sock_id rs) msg_takeoverDenied]
                 | None => []
                 end in
        let w := with_pending (JsMap.delete (pendingTakeovers w) p) w in
        (w, o ++ broadcast env w)%list
    end.

(** [[0, 1, 2, 3].includes(idx)]: the choice when [idx] is one of the
    four, [None] otherwise. *)
Definition validChoice (idx : JsNum) : option Z :=
  match idx with
  | Fin q =>
      if Qeq_bool q 0 then Some 0
      else if Qeq_bool q 1 then Some 1
      else if Qeq_bool q 2 then Some 2
      else if Qeq_bool q 3 then Some 3
      else None
  | NotFinite => None
  end.

Definition on_lockAnswer (env : Env) (w : World) (socket : Socket) (choiceIndex : JsValue)
  : World * list Out :=
  let s := state w in
  match JsMap.get (teams s) (sock_id socket) with
  | None => (w, [])
  | Some team =>
      if negb (Phase_eqb (phase s) question) then (w, [])
      else if paused s then (w, [])
      else match lockedChoice team with
           | Some _ => (w, [])
           | None =>
               match validChoice (js_Number choiceIndex) with
               | None => (w, [])
               | Some idx =>
                   let team := set_lockedChoice (Some idx) team in
                   let team := set_lockedAtRunMs (Some (getRunElapsedMs env s)) team in
                   let w := with_state
                              (set_teams (JsMap.set (teams s) (sock_id socket) team) s) w in
                   (w, broadcast env w)
               end
           end
  end.

Definition on_hostReset (env : Env) (w : World) (socket : Socket) : World * list Out :=
  if negb (isHost socket (state w)) then (w, [])
  else
    let w := with_pending [] (with_state (resetState env) w) in
    (w, broadcast env w).

Definition on_hostSetShuffle (env : Env) (w : World) (socket : Socket)
    (sq sc : option bool) : World * list Out :=
  if negb (isHost socket (state w)) then (w, [])
  else
    let s := state w in
    let s := match sq with Some b => set_shuffleQuestions b s | None => s end in
    let s := match sc with Some b => set_shuffleChoices b s | None => s end in
    let w := with_state s w in
    (w, broadcast env w).

Definition on_hostSetManualScoring (env : Env) (w : World) (socket : Socket) (val : bool)
  : World * list Out :=
  if negb (isHost socket (state w)) then (w, [])
  else
    let w := with_state (set_manualScoring val (state w)) w in
    (w, broadcast env w).

(** [t.score += d] for a whole number [d]; the sum is the exact one, which
    is what JavaScript computes as long as the score, [d] and the sum stay
    within 2^53. *)
Definition on_hostAdjustScore (env : Env) (w : World) (socket : Socket)
    (teamId : SockId) (delta : option Z) : World * list Out :=
  if negb (isHost socket (state w)) then (w, [])
  else
    match JsMap.get (teams (state w)) teamId, delta with
    | Some t, Some d =>
        let s := state w in
        let s := set_teams (JsMap.set (teams s) teamId (set_score (score t + d) t)) s in
        let w := with_state s w in
        (w, broadcast env w ++ syncTotalsToTeamsSheet s)%list
    | _, _ => (w, [])
    end.

Definition on_hostStart (env : Env) (w : World) (socket : Socket) : World * list Out :=
  if negb (isHost socket (state w)) then (w, [])
  else
    match QUESTION_BANK with
    | [] => (w, [emit_to (sock_id socket)
                   (msg_hostError "No questions loaded from the Questions sheet.")])
    | _ :: _ =>
        let s := state w in
        let s := set_gameQuestions
                   (Some (buildGameQuestions (random env) QUESTION_BANK
                            (shuffleQuestions s) (shuffleChoices s))) s in
        let w := with_state (startQuestion 0 s) w in
        (w, broadcast env w)
    end.

Definition on_hostPauseToggle (env : Env) (w : World) (socket : Socket) : World * list Out :=
  if negb (isHost socket (state w)) then (w, [])
  else if negb (Phase_eqb (phase (state w)) question) then (w, [])
  else
    let '(s, o) := if paused (state w) then resume env (state w)
                   else (pause env (state w), []) in
    let w := with_state s w in
    (w, o ++ broadcast env w)%list.

Definition on_hostReveal (env : Env) (w : World) (socket : Socket) : World * list Out :=
  if negb (isHost socket (state w)) then (w, [])
  else if negb (Phase_eqb (phase (state w)) question) then (w, [])
  else
    let '(s, o) := revealAnswer env (state w) in
    let w := with_state s w in
    (w, o ++ broadcast env w)%list.

Definition on_hostNext (env : Env) (w : World) (socket : Socket) : World * list Out :=
  if negb (isHost socket (state w)) then (w, [])
  else if Phase_eqb (phase (state w)) revealed then
    let w := with_state (showLeaderboard (state w)) w in
    (w, broadcast env w)
  else if Phase_eqb (phase (state w)) leaderboard then
    let w := with_state (nextQuestion (state w)) w in
    (w, broadcast env w)
  else (w, []).

(** The [setInterval] callback that reveals when the timer hits 0. *)
Definition on_tick (env : Env) (w : World) : World * list Out :=
  let s := state w in
  if negb (Phase_eqb (phase s) question) then (w, [])
  else if paused s then (w, [])
  else
    match getRemainingSec env s with
    | Some rem =>
        if rem <=? 0 then
          let '(s, o) := revealAnswer env s in
          let w := with_state s w in
          (w, o ++ broadcast env w)%list
        else (w, [])
    | None => (w, [])
    end.

Definition handle (env : Env) (w : World) (socket : Socket) (e : ClientEvent)
  : World * list Out :=
  match e with
  | registerHost => on_registerHost env w socket
  | registerProjector => on_registerProjector env w socket
  | joinTeam p => on_joinTeam env w socket p
  | hostKickTeam tid p => on_hostKickTeam env w socket tid p
  | hostApproveTakeover p => on_hostApproveTakeover env w socket p
  | hostDenyTakeover p => on_hostDenyTakeover env w socket p
  | lockAnswer c => on_lockAnswer env w socket c
  | hostReset => on_hostReset env w socket
  | hostSetShuffle sq sc => on_hostSetShuffle env w socket sq sc
  | hostSetManualScoring v => on_hostSetManualScoring env w socket v
  | hostAdjustScore tid d => on_hostAdjustScore env w socket tid d
  | hostStart => on_hostStart env w socket
  | hostPauseToggle => on_hostPauseToggle env w socket
  | hostReveal => on_hostReveal env w socket
  | hostNext => on_hostNext env w socket
  end.

(** An event that arrives without its argument: [None] when the handler
    throws while binding its parameter. Nothing catches that TypeError, so
    no state follows it. *)
Definition deliver (env : Env) (w : World) (socket : Socket) (n : EventName) (m : Missing)
  : option (World * list Out) :=
  option_map (handle env w socket) (without_payload n m).

(** One event handled to completion. Only connected sockets send events;
    a connection is greeted with the public state. An event whose handler
    throws has no state after it and is no step. *)
Definition step (env : Env) (w : World) (ev : Event) : World * list Out :=
  match ev with
  | connection s =>
      if JsMap.has (sockets w) (sock_id s) then (w, [])
      else (with_sockets (JsMap.set (sockets w) (sock_id s) s) w,
            [emit_to (sock_id s) (msg_state (publicState env (state w)))])
  | message sid e =>
      match JsMap.get (sockets w) sid with
      | Some s => handle env w s e
      | None => (w, [])
      end
  | disconnect sid =>
      match JsMap.get (sockets w) sid with
      | Some s => on_disconnect env (with_sockets (JsMap.delete (sockets w) sid) w) s
      | None => (w, [])
      end
  | tick => on_tick env w
  end.

(** The module is loaded: [state = resetState()], no request, no socket. *)
Definition initial (env : Env) : World := mkWorld (resetState env) [] [].

(** Events handled one after the other, each with its own clock reading
    and random draws; the emissions are concatenated. *)
Fixpoint run (w : World) (evs : list (Env * Event)) : World * list Out :=
  match evs with
  | [] => (w, [])
  | (env, ev) :: rest =>
      let '(w1, o1) := step env w ev in
      let '(w2, o2) := run w1 rest in
      (w2, (o1 ++ o2)%list)
  end.

End Handlers.

(** ** Notions used by the properties *)

(** The invariant of the phase and the pause flag. *)
Definition phase_paused_inv (s : State) : Prop :=
  In (phase s) [lobby; question; revealed; leaderboard; finished] /\
  (phase s <> question -> paused s = true).

(** The worlds the process can be in: the initial one and whatever one
    more event makes of a reachable one. *)
Inductive reachable (registry : list TeamInfo) (bank : list Question) : World -> Prop :=
| reachable_initial : forall env, reachable registry bank (initial env)
| reachable_step : forall env w ev,
    reachable registry bank w ->
    reachable registry bank (fst (step registry bank env w ev)).

(** The live teams that hold a code. *)
Definition holders (s : State) (p : Pin) : list Team :=
  filter (fun t => (pin t =? p)%string) (JsMap.values (teams s)).

(** A code is claimed exactly when one live team holds it. *)
Definition claimed_iff_held (s : State) : Prop :=
  forall p, JsSet.has (claimedPins s) p = true <-> length (holders s p) = 1%nat.

(** The half of it that concerns the teams: no two entries of the team map
    share a socket id or a code, every team is stored under its own id, and
    its code is claimed. *)
Definition teams_wf (claimed : JsSet.t) (m : JsMap.t Team) : Prop :=
  NoDup (map fst m) /\
  NoDup (map (fun kv => pin (snd kv)) m) /\
  Forall (fun kv => id (snd kv) = fst kv /\ JsSet.has claimed (pin (snd kv)) = true) m.

Definition held_codes_wf (s : State) : Prop := teams_wf (claimedPins s) (teams s).

(** The events whose handler starts with the [isHost] guard. *)
Definition is_host_command (e : ClientEvent) : bool :=
  match e with
  | registerHost | registerProjector | joinTeam _ | lockAnswer _ => false
  | _ => true
  end.

(** The same, by event name. *)
Definition is_host_event (n : EventName) : bool :=
  match n with
  | ev_registerHost | ev_registerProjector | ev_joinTeam | ev_lockAnswer => false
  | _ => true
  end.

(** Emissions addressed to a given socket alone. *)
Definition addressed_to (sid : SockId) (o : Out) : bool :=
  match o with
  | emit_to x _ => (x =? sid)%string
  | _ => false
  end.

Definition is_answer_log (o : Out) : bool :=
  match o with appendAnswerRows _ => true | _ => false end.

Definition is_totals_sync (o : Out) : bool :=
  match o with updateScoresToSheet _ => true | _ => false end.

Definition count_out (f : Out -> bool) (outs : list Out) : nat :=
  length (filter f outs).

(** A team whose answer fields are those of a fresh question. *)
Definition answer_cleared (t : Team) : Prop :=
  lockedChoice t = None /\ lockedAtRunMs t = None /\
  lastResult t = None /\ lastPointsAwarded t = 0.

(** The payload is one of the numbers 0, 1, 2, 3. *)
Definition is_choice_number (v : JsValue) : Prop :=
  exists q i, v = JsNumber (Fin q) /\ 0 <= i <= 3 /\ (q == inject_Z i)%Q.

(** The number [c] is the choice [i], one of 0, 1, 2, 3. *)
Definition choice_in_range (c : JsNum) (i : Z) : Prop :=
  0 <= i <= 3 /\ exists q, c = Fin q /\ (q == inject_Z i)%Q.

(** The conditions under which a lock is accepted. *)
Definition lock_allowed (w : World) (socket : Socket) (c : JsNum) : Prop :=
  phase (state w) = question /\ paused (state w) = false /\
  exists team idx,
    JsMap.get (teams (state w)) (sock_id socket) = Some team /\
    lockedChoice team = None /\ choice_in_range c idx.

(** The whole numbers that JavaScript adds without rounding. *)
Definition safe_integer (z : Z) : Prop := - 2 ^ 53 <= z <= 2 ^ 53.

(** Pause at one clock reading, resume at another. *)
Definition pause_resume (s : State) (c : Env * Env) : State :=
  fst (resume (snd c) (pause (fst c) s)).

(** Wall-clock time spent paused over a series of pause/resume cycles. *)
Definition paused_time (cycles : list (Env * Env)) : Z :=
  fold_right (fun c acc => (now (snd c) - now (fst c)) + acc) 0 cycles.

(** ** A small session to evaluate the handlers on *)

Definition demo_registry : list TeamInfo :=
  [ mkTeamInfo "1111" "Rong" "" ["An"; "Binh"];
    mkTeamInfo "2222" "Ho" "" ["Chi"] ].

Definition demo_bank : list Question :=
  [ mkQuestion "Q1" "2 + 2 = ?" ["3"; "4"; "5"; "6"] 1 (Some 20) "" "";
    mkQuestion "Q2" "3 * 3 = ?" ["9"; "6"; "3"; "1"] 0 (Some 30) "" "" ].

Definition at_ms (t : Z) : Env := mkEnv t (fun _ => 0).

Definition sockH : Socket := mkSocket "host" "10.0.0.1" "desk".
Definition sockX : Socket := mkSocket "devX" "10.0.0.2" "phone".
Definition sockY : Socket := mkSocket "devY" "10.0.0.3" "tablet".

Definition demo_run (evs : list (Env * Event)) : World * list Out :=
  run demo_registry demo_bank (initial (at_ms 0)) evs.

(** Host and two devices connected, [devY] logged in as team 1111. *)
Definition demo_lobby : list (Env * Event) :=
  [ (at_ms 1, connection sockH); (at_ms 2, message "host" registerHost);
    (at_ms 3, connection sockY); (at_ms 4, message "devY" (joinTeam "1111"));
    (at_ms 5, connection sockX) ].

(** [devX] asks for code 1111, which is taken, then logs in as 2222; the
    host then approves the request for 1111. *)
Definition demo_takeover : list (Env * Event) :=
  (demo_lobby ++
   [ (at_ms 6, message "devX" (joinTeam "1111"));
     (at_ms 7, message "devX" (joinTeam "2222"));
     (at_ms 8, message "host" (hostApproveTakeover "1111")) ])%list.

(** The game started and running on question 1, [devY] having locked
    choice 1 after 3 seconds. *)
Definition demo_question : list (Env * Event) :=
  (demo_lobby ++
   [ (at_ms 10, message "host" (hostSetShuffle (Some false) (Some false)));
     (at_ms 11, message "host" hostStart);
     (at_ms 1000, message "host" hostPauseToggle);
     (at_ms 4000, message "devY" (lockAnswer (JsNumber (Fin 1)))) ])%list.

(** The same game after the host revealed the answer at 9 seconds. *)
Definition demo_revealed : list (Env * Event) :=
  (demo_question ++ [ (at_ms 9000, message "host" hostReveal) ])%list.

(** After the reveal [devY], which scored 20, loses its connection and
    connects again, ready to log in with the same code. *)
Definition demo_rejoin : list (Env * Event) :=
  (demo_revealed ++
   [ (at_ms 9100, disconnect "devY"); (at_ms 9200, connection sockY) ])%list.

(** ** Notions used by the further properties *)

(** A question of the run stands for a question of the bank: the same
    question with its choices in some order, the correct index pointing at
    the same choice whenever it pointed at one. *)
Definition keeps_answer (q q' : Question) : Prop :=
  qId q' = qId q /\ text q' = text q /\ q_timeSec q' = q_timeSec q /\
  mediaType q' = mediaType q /\ mediaUrl q' = mediaUrl q /\
  Permutation (choices q') (choices q) /\
  (0 <= correctIndex q < Z.of_nat (length (choices q)) ->
   0 <= correctIndex q' < Z.of_nat (length (choices q')) /\
   nth_error (choices q') (Z.to_nat (correctIndex q'))
   = nth_error (choices q) (Z.to_nat (correctIndex q))) /\
  (~ 0 <= correctIndex q < Z.of_nat (length (choices q)) ->
   correctIndex q' = correctIndex q \/ correctIndex q' = -1).

(** The fields that make up the progress of the game. *)
Definition same_game (s s' : State) : Prop :=
  phase s' = phase s /\ qIndex s' = qIndex s /\ paused s' = paused s /\
  manualScoring s' = manualScoring s /\
  startedAtMs s' = startedAtMs s /\ accumulatedRunMs s' = accumulatedRunMs s /\
  timeSec s' = timeSec s /\
  shuffleQuestions s' = shuffleQuestions s /\ shuffleChoices s' = shuffleChoices s /\
  gameQuestions s' = gameQuestions s /\
  questionLogged s' = questionLogged s /\ questionRunId s' = questionRunId s /\
  gameId s' = gameId s /\ title s' = title s.

(** The events that deal with who is connected and with scores, as opposed
    to those that drive the game. *)
Definition is_identity_event (e : ClientEvent) : bool :=
  match e with
  | registerHost | registerProjector | joinTeam _ | hostKickTeam _ _
  | hostApproveTakeover _ | hostDenyTakeover _ | lockAnswer _
  | hostAdjustScore _ _ => true
  | _ => false
  end.

(** In the lobby no run is built; in every other phase the question index
    points into the run. *)
Definition question_in_run (s : State) : Prop :=
  (phase s = lobby -> gameQuestions s = None /\ qIndex s = -1) /\
  (phase s <> lobby ->
   exists qs, gameQuestions s = Some qs /\ 0 <= qIndex s < Z.of_nat (length qs)) /\
  (phase s = finished ->
   exists qs, gameQuestions s = Some qs /\ qIndex s = Z.of_nat (length qs) - 1).

(** The phase changes one event may make. *)
Definition phase_step_ok (a b : Phase) : bool :=
  match a, b with
  | _, lobby => true
  | _, question => true
  | question, revealed => true
  | revealed, leaderboard => true
  | leaderboard, finished => true
  | _, _ => Phase_eqb a b
  end.

Definition is_question_log (o : Out) : bool :=
  match o with appendQuestionRow _ => true | _ => false end.

(** The host pressing pause/resume once for each clock reading. *)
Definition toggles (sid : SockId) (envs : list Env) : list (Env * Event) :=
  map (fun env => (env, message sid hostPauseToggle)) envs.

(** The game started on question 1, still paused and not yet logged. *)
Definition demo_started : list (Env * Event) :=
  (demo_lobby ++
   [ (at_ms 10, message "host" (hostSetShuffle (Some false) (Some false)));
     (at_ms 11, message "host" hostStart) ])%list.

(** The same question running, nobody having answered yet. *)
Definition demo_running : list (Env * Event) :=
  (demo_started ++ [ (at_ms 1000, message "host" hostPauseToggle) ])%list.

(** After the reveal of question 1, which paid [devY] 20 points, the host
    sends hostStart again; [devY] answers question 1 once more and the host
    reveals. *)
Definition demo_restart : list (Env * Event) :=
  (demo_revealed ++
   [ (at_ms 9500, message "host" hostStart);
     (at_ms 9600, message "host" hostPauseToggle);
     (at_ms 9700, message "devY" (lockAnswer (JsNumber (Fin 1))));
     (at_ms 9800, message "host" hostReveal) ])%list.

(** [devX] has asked for code 1111, which [devY] holds. *)
Definition demo_requested : list (Env * Event) :=
  (demo_lobby ++ [ (at_ms 6, message "devX" (joinTeam "1111")) ])%list.

(** ** The sheet store (sheets_store.js) and the browser helpers (client.js)

    What a sheet holds is an input of its loader: [rows] stands for
    [res.data.values || []], a list of rows of text cells. A cell that is
    missing (short row, index -1) reads as the empty text, which is what
    [String(r[i] || "")] makes of it. Each loader is embedded in two
    pieces: the function itself, which first awaits [getSheetsClient()],
    and the part of its body that follows the arrival of the rows
    ([teamsOfRows], [questionsOfRows]). *)

Definition lower_ascii (c : ascii) : ascii :=
  let n := nat_of_ascii c in
  if ((65 <=? n) && (n <=? 90))%nat then ascii_of_nat (n + 32) else c.

Definition upper_ascii (c : ascii) : ascii :=
  let n := nat_of_ascii c in
  if ((97 <=? n) && (n <=? 122))%nat then ascii_of_nat (n - 32) else c.

(** [String.prototype.toLowerCase] and [toUpperCase], letters A to Z. The
    store compares the outcome with names made of such letters only (the
    header names, image, video, true, yes, y, A to D), and no other letter
    turns into one of those names. *)
Fixpoint toLowerCase (s : string) : string :=
  match s with
  | String c r => String (lower_ascii c) (toLowerCase r)
  | EmptyString => EmptyString
  end.

Fixpoint toUpperCase (s : string) : string :=
  match s with
  | String c r => String (upper_ascii c) (toUpperCase r)
  | EmptyString => EmptyString
  end.

Definition includes (x : string) (l : list string) : bool := existsb (String.eqb x) l.

Definition indexOf (x : string) (l : list string) : Z := findIndex (String.eqb x) l.

Definition cell (r : list string) (i : Z) : string :=
  if i <? 0 then "" else nth (Z.to_nat i) r "".

(** [s.split(",")] *)
Fixpoint split_comma (s : string) : list string :=
  match s with
  | EmptyString => [""]
  | String c r =>
      if (nat_of_ascii c =? 44)%nat then "" :: split_comma r
      else match split_comma r with
           | h :: t => String c h :: t
           | [] => [String c ""]
           end
  end.

(** An async function of the store returns a value or throws an error with
    a message. *)
Inductive Loaded (A : Type) : Type :=
| Returned (a : A)
| Thrown (message : string).
Arguments Returned {A} a.
Arguments Thrown {A} message.

(** [const a = await x; ...]: go on with the value, or throw what [x]
    threw. *)
Definition await {A B : Type} (x : Loaded A) (k : A -> Loaded B) : Loaded B :=
  match x with
  | Returned a => k a
  | Thrown m => Thrown m
  end.

(** [getSheetsClient()]. Its first statement is [const auth = getAuth()],
    and nothing in sheets_store.js binds the name [getAuth] (the function
    declared there is [getAuthFromEnv]): evaluating it throws a
    ReferenceError before any client is made. *)
Definition getSheetsClient : Loaded unit :=
  Thrown "ReferenceError: getAuth is not defined".

(** [Math.trunc] *)
Definition Math_trunc (q : Q) : Z := if Qle_bool 0 q then Qfloor q else Qceiling q.

Definition toBool (x : string) : bool :=
  let s := toLowerCase (trim x) in
  if (s =? "")%string then true else includes s ["true"; "yes"; "y"; "1"].

Definition normalizeCorrectLetter (x : string) : string :=
  let s := toUpperCase (trim x) in
  if includes s ["A"; "B"; "C"; "D"] then s else "".

(** A team as [loadTeamsFromSheet] builds it. *)
Record SheetTeam : Type := mkSheetTeam {
  st_pin : string;
  st_name : string;
  st_avatarUrl : string;
  st_members : list string;
  st_score : JsNum
}.

Section SheetStore.

(** [Number(s)] for a text [s]: the numeric value JavaScript reads in it. *)
Variable toNumber : string -> JsNum.

Definition toInt (x : string) (fallback : Z) : Z :=
  match toNumber (trim x) with
  | Fin q => Math_trunc q
  | NotFinite => fallback
  end.

(** The body of [loadTeamsFromSheet] from [const rows = ...] on. *)
Definition teamsOfRows (rows : list (list string)) : Loaded (list SheetTeam) :=
  if (length rows <? 2)%nat then Returned []
  else
    let headers := map (fun h => toLowerCase (trim h)) (hd [] rows) in
    let idxPin := indexOf "Pin" headers in
    let idxName := indexOf "Name" headers in
    let idxAvatar := indexOf "avatarUrl" headers in
    let idxMembers := if negb (indexOf "Members" headers =? -1)
                      then indexOf "members" headers
                      else indexOf "member" headers in
    let idxScore := indexOf "score" headers in
    if (idxPin =? -1) || (idxName =? -1) then
      Thrown ("Teams sheet must have headers: pin, name (optional: avatarUrl, members, score). Found: "
              ++ String.concat ", " (hd [] rows))
    else
      Returned
        (flat_map
           (fun r =>
              let pin := trim (cell r idxPin) in
              let name := trim (cell r idxName) in
              if (pin =? "")%string || (name =? "")%string then []
              else
                let avatarUrl := if idxAvatar =? -1 then "" else trim (cell r idxAvatar) in
                let score := if idxScore =? -1 then Fin 0
                             else if (cell r idxScore =? "")%string then Fin 0
                                  else toNumber (cell r idxScore) in
                let membersRaw := if idxMembers =? -1 then "" else trim (cell r idxMembers) in
                let members :=
                  if (membersRaw =? "")%string then []
                  else filter (fun m => negb (m =? "")%string)
                         (map trim (split_comma membersRaw)) in
                [mkSheetTeam pin name avatarUrl members score])
           (tl rows)).

(** [loadTeamsFromSheet()], [rows] being what the Teams sheet holds. *)
Definition loadTeamsFromSheet (rows : list (list string)) : Loaded (list SheetTeam) :=
  await getSheetsClient (fun _ => teamsOfRows rows).

(** The body of the loop of [loadQuestionsFromSheet] for the row at index
    [r] of [rows]: the question it pushes, or nothing. *)
Definition questionOfRow (iQid iQuestion iMediaType iMediaUrl iA iB iC iD iCorrect
                          iTimeSec iEnabled : Z) (r : nat) (row : list string)
  : list Question :=
  let enabled := if iEnabled =? -1 then true else toBool (cell row iEnabled) in
  if negb enabled then []
  else
    let question := trim (cell row iQuestion) in
    let A := trim (cell row iA) in
    let B := trim (cell row iB) in
    let C := trim (cell row iC) in
    let D := trim (cell row iD) in
    let correctLetter := normalizeCorrectLetter (cell row iCorrect) in
    let timeSec := if iTimeSec =? -1 then 20 else toInt (cell row iTimeSec) 20 in
    if (question =? "")%string then []
    else if negb (forallb (fun x => (0 <? String.length x)%nat) [A; B; C; D]) then []
    else if (correctLetter =? "")%string then []
    else
      let correctIndex :=
        if (correctLetter =? "A")%string then 0
        else if (correctLetter =? "B")%string then 1
        else if (correctLetter =? "C")%string then 2 else 3 in
      let qIdRaw := if iQid =? -1 then "" else trim (cell row iQid) in
      let qId := if (qIdRaw =? "")%string
                 then "ROW-" ++ NilZero.string_of_uint (Nat.to_uint (r + 1))
                 else qIdRaw in
      let mediaTypeRaw := if iMediaType =? -1 then ""
                          else toLowerCase (trim (cell row iMediaType)) in
      let mediaType := if (mediaTypeRaw =? "image")%string || (mediaTypeRaw =? "video")%string
                       then mediaTypeRaw else "" in
      let mediaUrl := if iMediaUrl =? -1 then "" else trim (cell row iMediaUrl) in
      let both := negb (mediaType =? "")%string && negb (mediaUrl =? "")%string in
      [mkQuestion qId question [A; B; C; D] correctIndex
         (Some (Z.max 5 (Z.min 300 timeSec)))
         (if both then mediaType else "") (if both then mediaUrl else "")].

(** The body of [loadQuestionsFromSheet] from [const rows = ...] on. *)
Definition questionsOfRows (rows : list (list string)) : Loaded (list Question) :=
  if (length rows <? 2)%nat then Returned []
  else
    let headers := map (fun h => toLowerCase (trim h)) (hd [] rows) in
    let idx := fun name => indexOf name headers in
    let iQid := idx "qid" in
    let iQuestion := idx "question" in
    let iMediaType := idx "mediatype" in
    let iMediaUrl := idx "mediaurl" in
    let iA := idx "a" in
    let iB := idx "b" in
    let iC := idx "c" in
    let iD := idx "d" in
    let iCorrect := idx "correct" in
    let iTimeSec := idx "timesec" in
    let iEnabled := idx "enabled" in
    if (iQuestion =? -1) || (iA =? -1) || (iB =? -1) || (iC =? -1) || (iD =? -1)
       || (iCorrect =? -1)
    then
      Thrown ("Questions sheet headers required: question, A, B, C, D, correct (optional: qId, mediaType, mediaUrl, timeSec, enabled). Found: "
              ++ String.concat ", " (hd [] rows))
    else
      Returned
        (flat_map
           (fun ir => questionOfRow iQid iQuestion iMediaType iMediaUrl iA iB iC iD
                        iCorrect iTimeSec iEnabled (fst ir) (snd ir))
           (combine (seq 1 (length (tl rows))) (tl rows))).

(** [loadQuestionsFromSheet()], [rows] being what the Questions sheet
    holds. *)
Definition loadQuestionsFromSheet (rows : list (list string)) : Loaded (list Question) :=
  await getSheetsClient (fun _ => questionsOfRows rows).

End SheetStore.

(** A question as the state machine expects it: a text, four choices that
    are not empty, a correct index among them, a time budget between 5 and
    300 seconds, and media that come as a kind with an address or not at
    all. *)
Definition question_wf (q : Question) : Prop :=
  text q <> "" /\ qId q <> "" /\
  length (choices q) = 4%nat /\ Forall (fun c => c <> "") (choices q) /\
  0 <= correctIndex q <= 3 /\
  (exists t, q_timeSec q = Some t /\ 5 <= t <= 300) /\
  (mediaType q = "" \/ mediaType q = "image" \/ mediaType q = "video") /\
  (mediaType q = "" <-> mediaUrl q = "").

(** [s.replaceAll(c, by)] for a pattern [c] of one character. *)
Fixpoint replaceAll (c : ascii) (by_ : string) (s : string) : string :=
  match s with
  | EmptyString => EmptyString
  | String x r =>
      if Ascii.eqb x c then by_ ++ replaceAll c by_ r else String x (replaceAll c by_ r)
  end.

(** [esc(s)] of client.js, on a text [s]. *)
Definition esc (s : string) : string :=
  replaceAll "'" "&#039;"
    (replaceAll (ascii_of_nat 34) "&quot;"
       (replaceAll ">" "&gt;"
          (replaceAll "<" "&lt;"
             (replaceAll "&" "&amp;" s)))).

(** Whether a character occurs in a text. *)
Fixpoint occurs (c : ascii) (s : string) : bool :=
  match s with
  | EmptyString => false
  | String x r => Ascii.eqb x c || occurs c r
  end.

(** * Properties *)

(** ** Facts about the insertion-ordered map *)

Module JsMapFacts.
Section Facts.
Context {V : Type}.
Implicit Types (m : JsMap.t V) (k : string) (v : V).

Lemma get_set_same m k v : JsMap.get (JsMap.set m k v) k = Some v.
Proof.
  induction m as [|[k' v'] m IH]; simpl.
  - now rewrite String.eqb_refl.
  - destruct (String.eqb k' k) eqn:E; simpl; rewrite E; auto.
Qed.

Lemma get_set_other m k k' v :
  k <> k' -> JsMap.get (JsMap.set m k v) k' = JsMap.get m k'.
Proof.
  intros Hne. induction m as [|[k0 v0] m IH]; simpl.
  - destruct (String.eqb k k') eqn:E; auto.
    apply String.eqb_eq in E. contradiction.
  - destruct (String.eqb k0 k) eqn:E; simpl.
    + apply String.eqb_eq in E. subst k0.
      destruct (String.eqb k k') eqn:E'; auto.
      apply String.eqb_eq in E'. contradiction.
    + now rewrite IH.
Qed.

Lemma get_delete_same m k : JsMap.get (JsMap.delete m k) k = None.
Proof.
  induction m as [|[k' v'] m IH]; simpl; auto.
  destruct (String.eqb k' k) eqn:E; simpl; auto. now rewrite E.
Qed.

Lemma get_update_all (f : V -> V) m k :
  JsMap.get (JsMap.update_all f m) k = option_map f (JsMap.get m k).
Proof.
  induction m as [|[k' v'] m IH]; simpl; auto.
  destruct (String.eqb k' k); simpl; auto.
Qed.

End Facts.
End JsMapFacts.

(** ** Scoring *)

Lemma Qceiling_pos (x : Q) : (0 < x)%Q -> 0 < Qceiling x.
Proof.
  intros Hx.
  assert (H : (0 < inject_Z (Qceiling x))%Q)
    by (eapply Qlt_le_trans; [exact Hx | apply Qle_ceiling]).
  unfold Qlt in H. simpl in H. lia.
Qed.

(** C1. The score is 0 for a wrong answer; for a correct one it is 20 when
    the elapsed seconds (locked milliseconds / 1000) are at most 4, and
    max(0, 20 - ceil(elapsedSeconds - 4)) otherwise; it is never negative.
    This holds for every finite lock time and every time budget. *)
Theorem computeQuestionScore_contract
    (isCorrect : bool) (lockedElapsedMs : Q) (timeBudgetSec : JsNum) :
  let elapsedSeconds := (lockedElapsedMs / 1000)%Q in
  let points := computeQuestionScore isCorrect (Fin lockedElapsedMs) timeBudgetSec in
  (isCorrect = false -> points = 0) /\
  (isCorrect = true -> (elapsedSeconds <= 4)%Q -> points = 20) /\
  (isCorrect = true -> ~ (elapsedSeconds <= 4)%Q ->
   points = Z.max 0 (20 - Qceiling (elapsedSeconds - 4)%Q)) /\
  0 <= points.
Proof.
  cbv zeta. unfold computeQuestionScore.
  destruct isCorrect; simpl negb; cbv iota.
  - destruct (Qle_bool (lockedElapsedMs / 1000) 4) eqn:E.
    + apply Qle_bool_iff in E.
      repeat split; intros; try discriminate; try reflexivity; try lia.
      contradiction.
    + assert (Hn : ~ (lockedElapsedMs / 1000 <= 4)%Q)
        by (intro H; apply Qle_bool_iff in H; congruence).
      assert (Hpos : 0 < Qceiling (lockedElapsedMs / 1000 - 4)%Q).
      { apply Qceiling_pos. apply Qnot_le_lt in Hn.
        unfold Qminus. rewrite <- (Qplus_opp_r 4).
        apply Qplus_lt_l. exact Hn. }
      repeat split; intros; try discriminate; try contradiction; try lia.
  - repeat split; intros; try discriminate; try reflexivity; lia.
Qed.

(** The scenarios of a 20 second question: locked at 3 s, at 7 s, wrong
    at 2 s, and too late to earn anything. *)
Example score_locked_at_3s : scoreAtMs true 3000 20 = 20.
Proof. reflexivity. Qed.

Example score_locked_at_7s : scoreAtMs true 7000 20 = 17.
Proof. reflexivity. Qed.

Example score_wrong_at_2s : scoreAtMs false 2000 20 = 0.
Proof. reflexivity. Qed.

Example score_locked_at_24001ms : scoreAtMs true 24001 20 = 0.
Proof. reflexivity. Qed.

Lemma computeQuestionScore_contract_witness :
  ~ (7000 / 1000 <= 4)%Q /\
  computeQuestionScore true (Fin 7000) (Fin 20) = 17.
Proof.
  assert (H : ~ (7000 / 1000 <= 4)%Q) by (intro H; vm_compute in H; apply H; reflexivity).
  split; [exact H|].
  exact (proj1 (proj2 (proj2 (computeQuestionScore_contract true 7000 (Fin 20))))
           eq_refl H).
Defined.

(** ** Run clock *)

Ltac case_if :=
  match goal with
  | |- context [if ?b then _ else _] => destruct b eqn:?
  | |- context [match ?o with Some _ => _ | None => _ end] => destruct o eqn:?
  end.

Lemma Phase_eqb_eq (a b : Phase) : Phase_eqb a b = true <-> a = b.
Proof. destruct a, b; simpl; split; intros H; congruence. Qed.

Lemma Phase_eqb_neq (a b : Phase) : Phase_eqb a b = false <-> a <> b.
Proof. destruct a, b; simpl; split; intros H; congruence. Qed.

(** [logQuestionIfNeeded] touches the two logging fields only. *)
Lemma logQuestionIfNeeded_frame (env : Env) (s : State) :
  let s' := fst (logQuestionIfNeeded env s) in
  phase s' = phase s /\ paused s' = paused s /\
  accumulatedRunMs s' = accumulatedRunMs s /\ startedAtMs s' = startedAtMs s /\
  teams s' = teams s /\ qIndex s' = qIndex s /\ gameQuestions s' = gameQuestions s /\
  timeSec s' = timeSec s /\ manualScoring s' = manualScoring s.
Proof.
  unfold logQuestionIfNeeded. repeat case_if; simpl; repeat split; reflexivity.
Qed.

Lemma pause_running (env : Env) (s : State) :
  phase s = question -> paused s = false ->
  let s' := pause env s in
  phase s' = question /\ paused s' = true /\
  accumulatedRunMs s' = accumulatedRunMs s + (now env - startedAtMs s).
Proof.
  intros Hq Hp. unfold pause. rewrite Hq, Hp. simpl. auto.
Qed.

Lemma resume_paused (env : Env) (s : State) :
  phase s = question -> paused s = true ->
  let s' := fst (resume env s) in
  phase s' = question /\ paused s' = false /\
  accumulatedRunMs s' = accumulatedRunMs s /\ startedAtMs s' = now env.
Proof.
  intros Hq Hp. unfold resume. rewrite Hq, Hp. simpl.
  pose proof (logQuestionIfNeeded_frame env s) as F. cbv zeta in F.
  destruct (logQuestionIfNeeded env s) as [s1 o]. simpl in *.
  destruct F as (F1 & F2 & F3 & _). repeat split; congruence.
Qed.

Lemma pause_resume_running (s : State) (c : Env * Env) :
  phase s = question -> paused s = false ->
  let s' := pause_resume s c in
  phase s' = question /\ paused s' = false /\
  accumulatedRunMs s' = accumulatedRunMs s + (now (fst c) - startedAtMs s) /\
  startedAtMs s' = now (snd c).
Proof.
  intros Hq Hp. unfold pause_resume.
  destruct (pause_running (fst c) s Hq Hp) as (P1 & P2 & P3).
  destruct (resume_paused (snd c) _ P1 P2) as (R1 & R2 & R3 & R4).
  repeat split; congruence.
Qed.

Lemma elapsed_running (env : Env) (s : State) :
  phase s = question -> paused s = false ->
  getRunElapsedMs env s = accumulatedRunMs s + (now env - startedAtMs s).
Proof. intros Hq Hp. unfold getRunElapsedMs. now rewrite Hq, Hp. Qed.

Lemma cycles_running (cycles : list (Env * Env)) : forall (s : State) (reading : Env),
  phase s = question -> paused s = false ->
  let s' := fold_left pause_resume cycles s in
  phase s' = question /\ paused s' = false /\
  getRunElapsedMs reading s' = getRunElapsedMs reading s - paused_time cycles.
Proof.
  induction cycles as [|c cycles IH]; intros s reading Hq Hp; simpl.
  - repeat split; auto. lia.
  - destruct (pause_resume_running s c Hq Hp) as (C1 & C2 & C3 & C4).
    destruct (IH (pause_resume s c) reading C1 C2) as (I1 & I2 & I3).
    repeat split; auto. rewrite I3.
    rewrite !elapsed_running by assumption. rewrite C3, C4. lia.
Qed.

(** C5. On a running question, the elapsed time read just before a pause
    equals the one read just after the matching resume, whatever the two
    clock readings are; and over any series of pause/resume cycles the
    elapsed time is the uninterrupted one minus exactly the time spent
    paused, so nothing is counted twice or lost. *)
Theorem pause_resume_no_drift (s : State) :
  phase s = question -> paused s = false ->
  (forall at_pause at_resume : Env,
     getRunElapsedMs at_resume (pause_resume s (at_pause, at_resume))
     = getRunElapsedMs at_pause s) /\
  (forall (cycles : list (Env * Env)) (reading : Env),
     getRunElapsedMs reading (fold_left pause_resume cycles s)
     = getRunElapsedMs reading s - paused_time cycles).
Proof.
  intros Hq Hp. split.
  - intros ep er.
    destruct (pause_resume_running s (ep, er) Hq Hp) as (C1 & C2 & C3 & C4).
    rewrite !elapsed_running by assumption. simpl in C3, C4. rewrite C3, C4. lia.
  - intros cycles reading. now apply cycles_running.
Qed.

Lemma pause_resume_no_drift_witness :
  let s := state (fst (demo_run demo_question)) in
  phase s = question /\ paused s = false /\
  getRunElapsedMs (at_ms 9000) (pause_resume s (at_ms 5000, at_ms 9000))
  = getRunElapsedMs (at_ms 5000) s.
Proof.
  cbv zeta.
  assert (Hq : phase (state (fst (demo_run demo_question))) = question) by reflexivity.
  assert (Hp : paused (state (fst (demo_run demo_question))) = false) by reflexivity.
  split; [exact Hq|]. split; [exact Hp|].
  exact (proj1 (pause_resume_no_drift _ Hq Hp) (at_ms 5000) (at_ms 9000)).
Defined.

(** ** Phase and pause flag *)

Ltac case_step :=
  match goal with
  | |- context [if ?b then _ else _] => destruct b eqn:?
  | |- context [match ?o with Some _ => _ | None => _ end] => destruct o eqn:?
  | |- context [match ?l with nil => _ | cons _ _ => _ end] => destruct l eqn:?
  | |- context [let (_, _) := ?p in _] => destruct p eqn:?
  end.

Ltac phase_facts :=
  repeat match goal with
  | H : negb _ = true |- _ => apply negb_true_iff in H
  | H : negb _ = false |- _ => apply negb_false_iff in H
  | H : _ || _ = false |- _ => apply orb_false_iff in H; destruct H
  | H : Phase_eqb _ _ = true |- _ => apply Phase_eqb_eq in H
  | H : Phase_eqb _ _ = false |- _ => apply Phase_eqb_neq in H
  end.

Ltac solve_inv :=
  unfold phase_paused_inv in *;
  split;
  [ match goal with |- In ?p _ => destruct p; simpl; tauto end
  | phase_facts; intros; simpl in *;
    try reflexivity; try congruence; try tauto; intuition congruence ].

Section PhaseInvariant.
Variable TEAM_REGISTRY : list TeamInfo.
Variable QUESTION_BANK : list Question.

Lemma resetState_inv (env : Env) : phase_paused_inv (resetState env).
Proof. solve_inv. Qed.

Lemma startQuestion_inv (i : Z) (s : State) : phase_paused_inv (startQuestion i s).
Proof. solve_inv. Qed.

Lemma resume_inv (env : Env) (s : State) :
  phase_paused_inv s -> phase_paused_inv (fst (resume env s)).
Proof.
  intros H. unfold resume, logQuestionIfNeeded.
  repeat case_step; solve_inv.
Qed.

Lemma pause_inv (env : Env) (s : State) :
  phase_paused_inv s -> phase_paused_inv (pause env s).
Proof. intros H. unfold pause. repeat case_step; solve_inv. Qed.

Lemma revealAnswer_inv (env : Env) (s : State) :
  phase_paused_inv s -> phase_paused_inv (fst (revealAnswer env s)).
Proof.
  intros H. unfold revealAnswer, logQuestionIfNeeded.
  repeat (case_step; simpl); solve_inv.
Qed.

Lemma showLeaderboard_inv (s : State) :
  phase_paused_inv s -> phase_paused_inv (showLeaderboard s).
Proof. intros H. unfold showLeaderboard. repeat case_step; solve_inv. Qed.

Lemma nextQuestion_inv (s : State) :
  phase_paused_inv s -> phase_paused_inv (nextQuestion s).
Proof.
  intros H. unfold nextQuestion. case_step.
  - solve_inv.
  - apply startQuestion_inv.
Qed.

(** Joining, kicking and disconnecting leave the phase and the pause flag
    alone. *)
Lemma on_disconnect_phase (env : Env) (w : World) (s : Socket) :
  phase (state (fst (on_disconnect env w s))) = phase (state w) /\
  paused (state (fst (on_disconnect env w s))) = paused (state w).
Proof. unfold on_disconnect. repeat (case_step; simpl); auto. Qed.

Lemma kickTeamSocket_phase (env : Env) (w : World) (t : Team) :
  phase (state (fst (kickTeamSocket env w t))) = phase (state w) /\
  paused (state (fst (kickTeamSocket env w t))) = paused (state w).
Proof.
  unfold kickTeamSocket.
  destruct (JsMap.get (sockets w) (id t)) as [s|]; simpl; auto.
  pose proof (on_disconnect_phase env (with_sockets (JsMap.delete (sockets w) (id t)) w) s) as F.
  destruct (on_disconnect env _ s) as [w1 o1]. simpl in *. exact F.
Qed.

Lemma doJoinTeam_phase (env : Env) (w : World) (s : Socket) (p : Pin) (i : TeamInfo) :
  phase (state (fst (doJoinTeam env w s p i))) = phase (state w) /\
  paused (state (fst (doJoinTeam env w s p i))) = paused (state w).
Proof. unfold doJoinTeam. simpl. auto. Qed.

Lemma inv_of_phase (s s' : State) :
  phase s' = phase s /\ paused s' = paused s ->
  phase_paused_inv s -> phase_paused_inv s'.
Proof.
  intros [Hp Hq] [H1 H2]. unfold phase_paused_inv. rewrite Hp, Hq. auto.
Qed.

Lemma on_hostApproveTakeover_phase (env : Env) (w : World) (s : Socket) (p : string) :
  phase (state (fst (on_hostApproveTakeover TEAM_REGISTRY env w s p))) = phase (state w) /\
  paused (state (fst (on_hostApproveTakeover TEAM_REGISTRY env w s p))) = paused (state w).
Proof.
  unfold on_hostApproveTakeover.
  destruct (negb (isHost s (state w))); simpl; auto.
  destruct (JsMap.get (pendingTakeovers w) (trim p)) as [req|]; simpl; auto.
  assert (K : forall w1 o1,
             (match findTeamByPin (state w) (trim p) with
              | Some t => kickTeamSocket env w t
              | None => (with_state (set_claimedPins
                           (JsSet.delete (claimedPins (state w)) (trim p)) (state w)) w, [])
              end) = (w1, o1) ->
             phase (state w1) = phase (state w) /\ paused (state w1) = paused (state w)).
  { intros w1 o1 E. destruct (findTeamByPin (state w) (trim p)) as [t|].
    - pose proof (kickTeamSocket_phase env w t) as F. rewrite E in F. exact F.
    - inversion E; subst. simpl. auto. }
  destruct (match findTeamByPin (state w) (trim p) with
            | Some t => kickTeamSocket env w t
            | None => _ end) as [w1 o1] eqn:E.
  specialize (K w1 o1 eq_refl). destruct K as [K1 K2].
  destruct (JsMap.get (sockets w) (requesterId req)) as [rs|]; simpl; auto.
  destruct (lookupTeamInfo TEAM_REGISTRY (trim p)) as [info|]; simpl; auto.
Qed.

Lemma handle_inv (env : Env) (w : World) (s : Socket) (e : ClientEvent) :
  phase_paused_inv (state w) ->
  phase_paused_inv (state (fst (handle TEAM_REGISTRY QUESTION_BANK env w s e))).
Proof.
  intros H. destruct e; simpl.
  - exact H.
  - exact H.
  - unfold on_joinTeam. repeat (case_step; simpl); auto.
  - unfold on_hostKickTeam.
    repeat (case_step; simpl); auto;
      match goal with
      | E : kickTeamSocket ?env ?w0 ?t = (?w1, _) |- _ =>
          pose proof (kickTeamSocket_phase env w0 t) as F; rewrite E in F;
          simpl in F; eapply inv_of_phase; [exact F | exact H]
      end.
  - eapply inv_of_phase; [apply on_hostApproveTakeover_phase | exact H].
  - unfold on_hostDenyTakeover. repeat (case_step; simpl); auto.
  - unfold on_lockAnswer. repeat (case_step; simpl); auto.
  - unfold on_hostReset. case_step; simpl; auto. apply resetState_inv.
  - unfold on_hostSetShuffle. repeat (case_step; simpl); auto.
  - unfold on_hostSetManualScoring. repeat (case_step; simpl); auto.
  - unfold on_hostAdjustScore. repeat (case_step; simpl); auto.
  - unfold on_hostStart. repeat (case_step; simpl); auto. apply startQuestion_inv.
  - unfold on_hostPauseToggle. repeat (case_step; simpl); auto.
    + match goal with
      | E : resume ?env ?s0 = (?s1, _) |- _ =>
          pose proof (resume_inv env s0 H) as F; rewrite E in F; exact F
      end.
    + now apply pause_inv.
  - unfold on_hostReveal. repeat (case_step; simpl); auto.
    match goal with
    | E : revealAnswer ?env ?s0 = (?s1, _) |- _ =>
        pose proof (revealAnswer_inv env s0 H) as F; rewrite E in F; exact F
    end.
  - unfold on_hostNext. repeat (case_step; simpl); auto.
    + now apply showLeaderboard_inv.
    + now apply nextQuestion_inv.
Qed.

Lemma step_inv (env : Env) (w : World) (ev : Event) :
  phase_paused_inv (state w) ->
  phase_paused_inv (state (fst (step TEAM_REGISTRY QUESTION_BANK env w ev))).
Proof.
  intros H. destruct ev as [s|sid e|sid|]; simpl.
  - case_step; simpl; exact H.
  - destruct (JsMap.get (sockets w) sid); simpl; [now apply handle_inv | exact H].
  - destruct (JsMap.get (sockets w) sid) as [s|]; simpl; [|exact H].
    eapply inv_of_phase; [apply on_disconnect_phase | exact H].
  - unfold on_tick. repeat (case_step; simpl); auto.
    match goal with
    | E : revealAnswer ?env ?s0 = (?s1, _) |- _ =>
        pose proof (revealAnswer_inv env s0 H) as F; rewrite E in F; exact F
    end.
Qed.

(** C4. The phase is one of the five and the session is paused whenever
    the phase is not question: this holds initially and after a reset, it
    is preserved by every event (start, pause and resume, reveal, the
    auto-reveal tick, leaderboard, next, reset, and all the others), hence
    it holds in every reachable state. *)
Theorem phase_paused_invariant :
  (forall env, phase_paused_inv (resetState env)) /\
  (forall env w ev,
     phase_paused_inv (state w) ->
     phase_paused_inv (state (fst (step TEAM_REGISTRY QUESTION_BANK env w ev)))) /\
  (forall w, reachable TEAM_REGISTRY QUESTION_BANK w -> phase_paused_inv (state w)).
Proof.
  split; [exact resetState_inv|]. split; [exact step_inv|].
  intros w R. induction R.
  - apply resetState_inv.
  - now apply step_inv.
Qed.

End PhaseInvariant.

Lemma run_reachable (registry : list TeamInfo) (bank : list Question)
    (evs : list (Env * Event)) : forall w,
  reachable registry bank w -> reachable registry bank (fst (run registry bank w evs)).
Proof.
  induction evs as [|[env ev] rest IH]; intros w R; simpl; auto.
  pose proof (reachable_step registry bank env w ev R) as R1.
  destruct (step registry bank env w ev) as [w1 o1]. simpl in R1.
  specialize (IH w1 R1).
  destruct (run registry bank w1 rest) as [w2 o2]. exact IH.
Qed.

Lemma phase_paused_invariant_witness :
  let w := fst (demo_run demo_lobby) in
  phase_paused_inv (state w) /\
  phase_paused_inv
    (state (fst (step demo_registry demo_bank (at_ms 11) w (message "host" hostStart)))).
Proof.
  cbv zeta.
  assert (R : reachable demo_registry demo_bank (fst (demo_run demo_lobby)))
    by (apply run_reachable, reachable_initial).
  pose proof (phase_paused_invariant demo_registry demo_bank) as (_ & Hstep & Hreach).
  pose proof (Hreach _ R) as Hw.
  split; [exact Hw|].
  exact (Hstep (at_ms 11) _ (message "host" hostStart) Hw).
Defined.

(** ** Start *)

Lemma clearAnswer_cleared (t : Team) : answer_cleared (clearAnswer t).
Proof. unfold answer_cleared, clearAnswer. simpl. auto. Qed.

Lemma startQuestion_effect (i : Z) (s : State) :
  let s' := startQuestion i s in
  phase s' = question /\ qIndex s' = i /\ paused s' = true /\
  accumulatedRunMs s' = 0 /\ startedAtMs s' = 0 /\
  gameQuestions s' = gameQuestions s /\
  teams s' = JsMap.update_all clearAnswer (teams s).
Proof. unfold startQuestion. simpl. repeat split; reflexivity. Qed.

(** C3. hostStart is not confined to the lobby. With the answer of
    question 1 revealed, a hostStart from the host is not ignored: it puts
    the session back on question 1 in the phase question. The handler
    tests [isHost] and the bank, and never [state.phase], unlike the
    handlers of hostPauseToggle, hostReveal and hostNext next to it. *)
Lemma hostStart_not_only_from_lobby :
  let w := fst (demo_run demo_revealed) in
  let w' := fst (on_hostStart demo_bank (at_ms 9500) w sockH) in
  isHost sockH (state w) = true /\ phase (state w) = revealed /\
  phase (state w') = question /\ qIndex (state w') = 0 /\ w' <> w.
Proof.
  cbv zeta. repeat split; try reflexivity.
  intros E. apply (f_equal (fun x => phase (state x))) in E.
  vm_compute in E. discriminate E.
Qed.

(** What hostStart does, whatever the phase. From a socket that is not
    the host it does nothing. From the host: if the question bank is empty
    it leaves the state alone and sends the host a hostError; otherwise it
    builds the question run from the bank and the shuffle toggles and
    enters question 0, paused, run clock at zero, with the answer fields of
    every team cleared, while the teams and their scores stay. *)
Lemma hostStart_any_phase
    (QUESTION_BANK : list Question) (env : Env) (w : World) (socket : Socket) :
  let r := on_hostStart QUESTION_BANK env w socket in
  (isHost socket (state w) = false -> r = (w, [])) /\
  (isHost socket (state w) = true -> QUESTION_BANK = [] ->
   fst r = w /\ exists m, snd r = [emit_to (sock_id socket) (msg_hostError m)]) /\
  (isHost socket (state w) = true -> QUESTION_BANK <> [] ->
   let s' := state (fst r) in
   gameQuestions s' =
     Some (buildGameQuestions (random env) QUESTION_BANK
             (shuffleQuestions (state w)) (shuffleChoices (state w))) /\
   phase s' = question /\ qIndex s' = 0 /\ paused s' = true /\
   accumulatedRunMs s' = 0 /\ startedAtMs s' = 0 /\
   (forall reading, getRunElapsedMs reading s' = 0) /\
   (forall sid, JsMap.get (teams s') sid
                = option_map clearAnswer (JsMap.get (teams (state w)) sid)) /\
   (forall sid t, JsMap.get (teams s') sid = Some t ->
      answer_cleared t /\
      exists t0, JsMap.get (teams (state w)) sid = Some t0 /\
                 score t = score t0 /\ pin t = pin t0)).
Proof.
  cbv zeta. unfold on_hostStart. split; [|split].
  - intros H. now rewrite H.
  - intros H E. rewrite H, E. simpl. eauto.
  - intros H NE. rewrite H. simpl.
    destruct QUESTION_BANK as [|q0 bank]; [congruence|]. simpl.
    assert (T : forall sid,
               JsMap.get (JsMap.update_all clearAnswer (teams (state w))) sid
               = option_map clearAnswer (JsMap.get (teams (state w)) sid))
      by (intros; apply JsMapFacts.get_update_all).
    do 8 (split; [reflexivity || exact T|]).
    intros sid t Ht. rewrite T in Ht.
    destruct (JsMap.get (teams (state w)) sid) as [t0|]; inversion Ht.
    split; [apply clearAnswer_cleared|].
    exists t0. auto.
Qed.

Lemma hostStart_any_phase_witness :
  let w := fst (demo_run demo_revealed) in
  isHost sockH (state w) = true /\ demo_bank <> [] /\
  phase (state w) = revealed /\
  phase (state (fst (on_hostStart demo_bank (at_ms 9500) w sockH))) = question.
Proof.
  cbv zeta.
  assert (H : isHost sockH (state (fst (demo_run demo_revealed))) = true) by reflexivity.
  assert (NE : demo_bank <> []) by discriminate.
  split; [exact H|]. split; [exact NE|]. split; [reflexivity|].
  exact (proj1 (proj2 (proj2 (proj2
           (hostStart_any_phase demo_bank (at_ms 9500) _ sockH)) H NE))).
Defined.

(** The scores survive the restart, so a question that was paid once is
    paid again: [devY], with 20 points from question 1, answers the same
    question after the second hostStart and holds 40. *)
Example hostStart_restart_pays_again :
  let before := state (fst (demo_run demo_revealed)) in
  let after := state (fst (demo_run demo_restart)) in
  option_map score (JsMap.get (teams before) "devY") = Some 20 /\
  option_map qId (getCurrentQuestionObj before) = Some "Q1" /\
  option_map qId (getCurrentQuestionObj after) = Some "Q1" /\
  option_map score (JsMap.get (teams after) "devY") = Some 40.
Proof. cbv zeta. repeat split; vm_compute; reflexivity. Qed.

(** ** Locking an answer *)

Lemma validChoice_range (c : JsNum) (i : Z) :
  validChoice c = Some i <-> choice_in_range c i.
Proof.
  unfold choice_in_range. split.
  - destruct c as [q|]; simpl; [|discriminate].
    destruct (Qeq_bool q 0) eqn:E0; [|
    destruct (Qeq_bool q 1) eqn:E1; [|
    destruct (Qeq_bool q 2) eqn:E2; [|
    destruct (Qeq_bool q 3) eqn:E3; [|discriminate]]]];
    intros H; inversion H; subst; (split; [lia|]); exists q; split; auto;
    now apply Qeq_bool_iff.
  - intros (Hi & q & -> & Hq). simpl.
    assert (Hcase : i = 0 \/ i = 1 \/ i = 2 \/ i = 3) by lia.
    assert (Hne : forall a b : Z, a <> b -> Qeq_bool q (inject_Z b) = true -> i = a -> False).
    { intros a b Hab E Ha. apply Qeq_bool_iff in E. subst i. rewrite Hq in E.
      unfold Qeq in E. simpl in E. lia. }
    assert (Heq : forall a : Z, i = a -> Qeq_bool q (inject_Z a) = true).
    { intros a Ha. apply Qeq_bool_iff. now subst. }
    change (0%Q) with (inject_Z 0). change (1%Q) with (inject_Z 1).
    change (2%Q) with (inject_Z 2). change (3%Q) with (inject_Z 3).
    destruct Hcase as [H|[H|[H|H]]].
    + rewrite (Heq 0 H). now subst.
    + destruct (Qeq_bool q (inject_Z 0)) eqn:E0; [exfalso; apply (Hne 1 0); auto; lia|].
      rewrite (Heq 1 H). now subst.
    + destruct (Qeq_bool q (inject_Z 0)) eqn:E0; [exfalso; apply (Hne 2 0); auto; lia|].
      destruct (Qeq_bool q (inject_Z 1)) eqn:E1; [exfalso; apply (Hne 2 1); auto; lia|].
      rewrite (Heq 2 H). now subst.
    + destruct (Qeq_bool q (inject_Z 0)) eqn:E0; [exfalso; apply (Hne 3 0); auto; lia|].
      destruct (Qeq_bool q (inject_Z 1)) eqn:E1; [exfalso; apply (Hne 3 1); auto; lia|].
      destruct (Qeq_bool q (inject_Z 2)) eqn:E2; [exfalso; apply (Hne 3 2); auto; lia|].
      rewrite (Heq 3 H). now subst.
Qed.

Lemma on_lockAnswer_locked (env : Env) (w : World) (socket : Socket) (c : JsValue)
    (team : Team) (v : Z) :
  JsMap.get (teams (state w)) (sock_id socket) = Some team ->
  lockedChoice team = Some v ->
  on_lockAnswer env w socket c = (w, []).
Proof.
  intros Ht Hl. unfold on_lockAnswer. rewrite Ht, Hl.
  repeat case_if; reflexivity.
Qed.

(** C6, the claim as stated fails: the payload need not be one of 0, 1, 2,
    3. With question 1 running and team devY without an answer, lockAnswer
    with the payload [null] locks choice 0 for devY, and with the payload
    [true] it locks choice 1, because the handler tests
    [Number(choiceIndex)] and not [choiceIndex]. *)
Lemma lockAnswer_coerces_payload :
  let w := fst (demo_run demo_running) in
  let locked v :=
    option_map lockedChoice
      (JsMap.get (teams (state (fst (on_lockAnswer (at_ms 3000) w sockY v)))) "devY") in
  phase (state w) = question /\ paused (state w) = false /\
  option_map lockedChoice (JsMap.get (teams (state w)) "devY") = Some None /\
  ~ is_choice_number JsNull /\ locked JsNull = Some (Some 0) /\
  ~ is_choice_number (JsBool true) /\ locked (JsBool true) = Some (Some 1) /\
  fst (on_lockAnswer (at_ms 3000) w sockY JsNull) <> w.
Proof.
  cbv zeta.
  split; [reflexivity|]. split; [reflexivity|]. split; [reflexivity|].
  split; [intros (q & i & E & _); discriminate E|]. split; [reflexivity|].
  split; [intros (q & i & E & _); discriminate E|]. split; [reflexivity|].
  intros E.
  apply (f_equal (fun x => option_map lockedChoice (JsMap.get (teams (state x)) "devY"))) in E.
  vm_compute in E. discriminate E.
Qed.

(** C6, amended. lockAnswer changes the state only when the phase is
    question, the session is not paused, the socket holds a team, that team
    has no locked answer yet and [Number(choiceIndex)] is one of 0, 1, 2,
    3. In every other case it returns the state as it was and emits
    nothing. When it does lock, the team gets that number as its choice and
    the elapsed run time of that moment, and any later attempt of the same
    socket, whatever the payload and the time, is a no-op that leaves both
    in place. *)
Theorem lockAnswer_guarded (env : Env) (w : World) (socket : Socket) (v : JsValue) :
  (~ lock_allowed w socket (js_Number v) -> on_lockAnswer env w socket v = (w, [])) /\
  (lock_allowed w socket (js_Number v) ->
   let w' := fst (on_lockAnswer env w socket v) in
   exists team' idx,
     choice_in_range (js_Number v) idx /\
     JsMap.get (teams (state w')) (sock_id socket) = Some team' /\
     lockedChoice team' = Some idx /\
     lockedAtRunMs team' = Some (getRunElapsedMs env (state w)) /\
     forall env' v', on_lockAnswer env' w' socket v' = (w', [])).
Proof.
  split.
  - intros Hn. unfold on_lockAnswer.
    destruct (JsMap.get (teams (state w)) (sock_id socket)) as [team|] eqn:Ht; auto.
    destruct (Phase_eqb (phase (state w)) question) eqn:Hq; simpl; auto.
    destruct (paused (state w)) eqn:Hp; auto.
    destruct (lockedChoice team) eqn:Hl; auto.
    destruct (validChoice (js_Number v)) as [idx|] eqn:Hv; auto.
    exfalso. apply Hn. unfold lock_allowed.
    apply Phase_eqb_eq in Hq. apply validChoice_range in Hv.
    repeat split; auto. exists team, idx. auto.
  - intros (Hq & Hp & team & idx & Ht & Hl & Hc). cbv zeta.
    pose proof (proj2 (validChoice_range (js_Number v) idx) Hc) as Hv.
    assert (E : on_lockAnswer env w socket v =
                (with_state
                   (set_teams
                      (JsMap.set (teams (state w)) (sock_id socket)
                         (set_lockedAtRunMs (Some (getRunElapsedMs env (state w)))
                            (set_lockedChoice (Some idx) team)))
                      (state w)) w,
                 broadcast env
                   (with_state
                      (set_teams
                         (JsMap.set (teams (state w)) (sock_id socket)
                            (set_lockedAtRunMs (Some (getRunElapsedMs env (state w)))
                               (set_lockedChoice (Some idx) team)))
                         (state w)) w))).
    { unfold on_lockAnswer. rewrite Ht, Hq, Hp, Hl, Hv. reflexivity. }
    rewrite E. simpl fst.
    eexists. exists idx. split; [exact Hc|].
    split; [simpl; apply JsMapFacts.get_set_same|].
    split; [reflexivity|]. split; [reflexivity|].
    intros env' v'.
    eapply on_lockAnswer_locked.
    + simpl. apply JsMapFacts.get_set_same.
    + reflexivity.
Qed.

Lemma lockAnswer_guarded_witness :
  let w := fst (demo_run demo_running) in
  let w' := fst (on_lockAnswer (at_ms 3000) w sockY (JsString (Fin 2))) in
  lock_allowed w sockY (js_Number (JsString (Fin 2))) /\
  option_map lockedChoice (JsMap.get (teams (state w')) "devY") = Some (Some 2) /\
  on_lockAnswer (at_ms 5000) w' sockY (JsNumber (Fin 3)) = (w', []).
Proof.
  cbv zeta.
  assert (Ha : lock_allowed (fst (demo_run demo_running)) sockY
                 (js_Number (JsString (Fin 2)))).
  { split; [reflexivity|]. split; [reflexivity|].
    destruct (JsMap.get (teams (state (fst (demo_run demo_running)))) (sock_id sockY))
      as [t|] eqn:Ht; [|vm_compute in Ht; discriminate Ht].
    exists t, 2. split; [reflexivity|]. split.
    - vm_compute in Ht. inversion Ht; subst t. reflexivity.
    - split; [lia|]. exists 2%Q. split; reflexivity. }
  split; [exact Ha|].
  destruct (proj2 (lockAnswer_guarded (at_ms 3000) _ sockY (JsString (Fin 2))) Ha)
    as (team' & idx & _ & _ & _ & _ & Hfinal).
  split; [vm_compute; reflexivity|].
  exact (Hfinal (at_ms 5000) (JsNumber (Fin 3))).
Defined.

(** ** Reveal *)

Lemma getCurrentQuestionObj_frame (s s' : State) :
  gameQuestions s' = gameQuestions s -> qIndex s' = qIndex s ->
  getCurrentQuestionObj s' = getCurrentQuestionObj s.
Proof. intros H1 H2. unfold getCurrentQuestionObj. now rewrite H1, H2. Qed.

Lemma logQuestionIfNeeded_not_question (env : Env) (s : State) :
  phase s <> question -> logQuestionIfNeeded env s = (s, []).
Proof.
  intros H. unfold logQuestionIfNeeded.
  apply Phase_eqb_neq in H. now rewrite H.
Qed.

Lemma logAnswersNow_current (env : Env) (s : State) (q : Question) :
  getCurrentQuestionObj s = Some q ->
  logAnswersNow env s = [appendAnswerRows (map (answerRow env s q) (JsMap.values (teams s)))].
Proof. intros H. unfold logAnswersNow. now rewrite H. Qed.

(** C7, as the code has it. A reveal of a question issues one answer log
    and one totals sync when manual scoring is on, but two answer logs and
    two totals syncs when it is off. *)
Theorem revealAnswer_store_calls (env : Env) (s : State) (q : Question) :
  phase s = question -> getCurrentQuestionObj s = Some q ->
  let outs := snd (revealAnswer env s) in
  (manualScoring s = true ->
   count_out is_answer_log outs = 1%nat /\ count_out is_totals_sync outs = 1%nat) /\
  (manualScoring s = false ->
   count_out is_answer_log outs = 2%nat /\ count_out is_totals_sync outs = 2%nat).
Proof.
  intros Hq Hcur. cbv zeta. unfold revealAnswer. rewrite Hq. simpl negb. cbv iota.
  set (s1 := if negb (paused s) && negb (startedAtMs s =? 0)
             then set_startedAtMs 0
                    (set_accumulatedRunMs (accumulatedRunMs s + (now env - startedAtMs s)) s)
             else s).
  cbv zeta.
  assert (F : gameQuestions s1 = gameQuestions s /\ qIndex s1 = qIndex s /\
              manualScoring s1 = manualScoring s).
  { unfold s1. case_if; simpl; auto. }
  destruct F as (F1 & F2 & F3).
  set (s2 := set_phase revealed (set_paused true s1)).
  assert (C : getCurrentQuestionObj s2 = Some q).
  { rewrite <- Hcur. apply getCurrentQuestionObj_frame; simpl; auto. }
  assert (M : manualScoring s2 = manualScoring s) by exact F3.
  rewrite C, (logQuestionIfNeeded_not_question env s2) by discriminate.
  split; intros Hm; rewrite M, Hm.
  - rewrite (logAnswersNow_current env _ q) by exact C.
    unfold syncTotalsToTeamsSheet. split; reflexivity.
  - rewrite (logAnswersNow_current env _ q) by exact C.
    unfold syncTotalsToTeamsSheet. split; reflexivity.
Qed.

Lemma revealAnswer_store_calls_witness :
  let s := state (fst (demo_run demo_question)) in
  phase s = question /\ manualScoring s = false /\
  count_out is_answer_log (snd (revealAnswer (at_ms 9000) s)) = 2%nat /\
  count_out is_totals_sync (snd (revealAnswer (at_ms 9000) s)) = 2%nat.
Proof.
  cbv zeta.
  assert (Hq : phase (state (fst (demo_run demo_question))) = question) by reflexivity.
  assert (Hm : manualScoring (state (fst (demo_run demo_question))) = false) by reflexivity.
  split; [exact Hq|]. split; [exact Hm|].
  exact (proj2 (revealAnswer_store_calls (at_ms 9000) _ _ Hq eq_refl) Hm).
Defined.

(** ** Host registration *)

(** C8. registerHost from any socket, in any state, makes that socket the
    host: there is no check of any kind, a host registered before is
    replaced, nothing else in the state changes, and the only messages go
    to the new host, so the displaced host is told nothing. *)
Theorem registerHost_unconditional
    (registry : list TeamInfo) (bank : list Question)
    (env : Env) (w : World) (socket : Socket) :
  let r := handle registry bank env w socket registerHost in
  hostId (state (fst r)) = Some (sock_id socket) /\
  isHost socket (state (fst r)) = true /\
  state (fst r) = set_hostId (Some (sock_id socket)) (state w) /\
  pendingTakeovers (fst r) = pendingTakeovers w /\
  sockets (fst r) = sockets w /\
  Forall (fun o => addressed_to (sock_id socket) o = true) (snd r) /\
  (forall prev : Socket,
     hostId (state w) = Some (sock_id prev) -> sock_id prev <> sock_id socket ->
     isHost prev (state (fst r)) = false /\
     count_out (addressed_to (sock_id prev)) (snd r) = 0%nat).
Proof.
  cbv zeta. simpl. unfold isHost. simpl.
  rewrite String.eqb_refl.
  repeat split; auto.
  - repeat constructor; simpl; apply String.eqb_refl.
  - apply String.eqb_neq. assumption.
  - unfold count_out. simpl.
    assert (E : String.eqb (sock_id socket) (sock_id prev) = false)
      by (apply String.eqb_neq; congruence).
    now rewrite E.
Qed.

Lemma registerHost_unconditional_witness :
  let w := fst (demo_run demo_lobby) in
  let r := handle demo_registry demo_bank (at_ms 6) w sockX registerHost in
  hostId (state w) = Some (sock_id sockH) /\ sock_id sockH <> sock_id sockX /\
  hostId (state (fst r)) = Some "devX" /\
  isHost sockH (state (fst r)) = false /\
  count_out (addressed_to (sock_id sockH)) (snd r) = 0%nat.
Proof.
  cbv zeta.
  assert (Hh : hostId (state (fst (demo_run demo_lobby))) = Some (sock_id sockH))
    by reflexivity.
  assert (Hne : sock_id sockH <> sock_id sockX) by discriminate.
  pose proof (registerHost_unconditional demo_registry demo_bank (at_ms 6)
                (fst (demo_run demo_lobby)) sockX) as T.
  cbv zeta in T. destruct T as (T1 & _ & _ & _ & _ & _ & T7).
  split; [exact Hh|]. split; [exact Hne|]. split; [exact T1|].
  exact (T7 sockH Hh Hne).
Defined.

(** ** New teams *)

Lemma doJoinTeam_team (env : Env) (w : World) (socket : Socket) (p : Pin) (info : TeamInfo) :
  JsMap.get (teams (state (fst (doJoinTeam env w socket p info)))) (sock_id socket)
  = Some (newTeam env socket p info).
Proof. unfold doJoinTeam. simpl. apply JsMapFacts.get_set_same. Qed.

Lemma on_joinTeam_new_team (registry : list TeamInfo) (env : Env) (w : World)
    (socket : Socket) (pin0 : string) (t : Team) :
  JsMap.get (teams (state w)) (sock_id socket) = None ->
  JsMap.get (teams (state (fst (on_joinTeam registry env w socket pin0)))) (sock_id socket)
  = Some t ->
  score t = 0 /\ pin t = trim pin0.
Proof.
  intros Hnone. unfold on_joinTeam.
  destruct (lookupTeamInfo registry (trim pin0)) as [info|]; simpl; [|congruence].
  destruct (JsMap.has (teams (state w)) (sock_id socket)); simpl; [congruence|].
  destruct (JsSet.has (claimedPins (state w)) (trim pin0)); simpl; [congruence|].
  rewrite JsMapFacts.get_set_same. intros E. inversion E. auto.
Qed.

Lemma kickTeamSocket_teams (env : Env) (w : World) (t : Team) :
  JsMap.get (teams (state (fst (kickTeamSocket env w t)))) (id t) = None.
Proof.
  unfold kickTeamSocket.
  destruct (match JsMap.get (sockets w) (id t) with
            | Some s => _ | None => _ end) as [w1 o1].
  simpl. apply JsMapFacts.get_delete_same.
Qed.

Lemma on_hostApproveTakeover_new_team (registry : list TeamInfo) (env : Env) (w : World)
    (socket rs : Socket) (pin0 : string) (req : Takeover) (info : TeamInfo) :
  isHost socket (state w) = true ->
  JsMap.get (pendingTakeovers w) (trim pin0) = Some req ->
  JsMap.get (sockets w) (requesterId req) = Some rs ->
  lookupTeamInfo registry (trim pin0) = Some info ->
  let w' := fst (on_hostApproveTakeover registry env w socket pin0) in
  JsMap.get (teams (state w')) (sock_id rs) = Some (newTeam env rs (trim pin0) info) /\
  (forall old, findTeamByPin (state w) (trim pin0) = Some old ->
               id old <> sock_id rs ->
               JsMap.get (teams (state w')) (id old) = None).
Proof.
  intros Hh Hreq Hrs Hinfo. cbv zeta.
  unfold on_hostApproveTakeover. rewrite Hh, Hreq, Hrs, Hinfo. simpl negb. cbv iota.
  destruct (findTeamByPin (state w) (trim pin0)) as [cur|] eqn:Hcur.
  - pose proof (kickTeamSocket_teams env w cur) as K.
    destruct (kickTeamSocket env w cur) as [w1 o1]. simpl in K.
    simpl. rewrite JsMapFacts.get_set_same. split; [reflexivity|].
    intros old Ho Hne. inversion Ho; subst old.
    rewrite JsMapFacts.get_set_other by congruence. exact K.
  - simpl. rewrite JsMapFacts.get_set_same. split; [reflexivity|].
    intros old Ho. discriminate Ho.
Qed.

(** C9. A team object is always created with score 0. A socket that holds
    no team and gets one by joinTeam holds a team with score 0, whatever
    score a team with that code had before (so a team that disconnects and
    comes back starts from 0). When the host approves a takeover and the
    requester is still connected, the requester's team is a new one with
    score 0 and the team of the previous holder is gone. *)
Theorem new_team_score_zero (registry : list TeamInfo) (env : Env) (w : World) :
  (forall socket p info,
     exists t, JsMap.get (teams (state (fst (doJoinTeam env w socket p info))))
                 (sock_id socket) = Some t /\ score t = 0 /\ pin t = p) /\
  (forall socket pin0 t,
     JsMap.get (teams (state w)) (sock_id socket) = None ->
     JsMap.get (teams (state (fst (on_joinTeam registry env w socket pin0))))
       (sock_id socket) = Some t ->
     score t = 0 /\ pin t = trim pin0) /\
  (forall socket rs pin0 req info,
     isHost socket (state w) = true ->
     JsMap.get (pendingTakeovers w) (trim pin0) = Some req ->
     JsMap.get (sockets w) (requesterId req) = Some rs ->
     lookupTeamInfo registry (trim pin0) = Some info ->
     let w' := fst (on_hostApproveTakeover registry env w socket pin0) in
     (exists t, JsMap.get (teams (state w')) (sock_id rs) = Some t /\
                score t = 0 /\ pin t = trim pin0) /\
     (forall old, findTeamByPin (state w) (trim pin0) = Some old ->
                  id old <> sock_id rs ->
                  JsMap.get (teams (state w')) (id old) = None)).
Proof.
  split; [|split].
  - intros socket p info. eexists. split; [apply doJoinTeam_team|]. auto.
  - intros socket pin0 t. apply on_joinTeam_new_team.
  - intros socket rs pin0 req info Hh Hreq Hrs Hinfo. cbv zeta.
    destruct (on_hostApproveTakeover_new_team registry env w socket rs pin0 req info
                Hh Hreq Hrs Hinfo) as [A B].
    split; [|exact B]. eexists. split; [exact A|]. auto.
Qed.

Lemma new_team_score_zero_witness :
  let w0 := fst (demo_run demo_revealed) in
  let w := fst (demo_run demo_rejoin) in
  let w' := fst (on_joinTeam demo_registry (at_ms 9300) w sockY " 1111 ") in
  option_map score (JsMap.get (teams (state w0)) "devY") = Some 20 /\
  JsMap.get (teams (state w)) (sock_id sockY) = None /\
  option_map score (JsMap.get (teams (state w')) "devY") = Some 0.
Proof.
  cbv zeta.
  assert (Hn : JsMap.get (teams (state (fst (demo_run demo_rejoin)))) (sock_id sockY) = None)
    by reflexivity.
  split; [reflexivity|]. split; [exact Hn|].
  destruct (JsMap.get
              (teams (state (fst (on_joinTeam demo_registry (at_ms 9300)
                                    (fst (demo_run demo_rejoin)) sockY " 1111 "))))
              "devY") as [t|] eqn:E.
  - simpl. f_equal.
    exact (proj1 (proj1 (proj2 (new_team_score_zero demo_registry (at_ms 9300)
                                   (fst (demo_run demo_rejoin))))
                    sockY " 1111 " t Hn E)).
  - vm_compute in E. discriminate E.
Defined.

(** ** Reset *)

Lemma host_command_ignored (registry : list TeamInfo) (bank : list Question)
    (env : Env) (w : World) (socket : Socket) (e : ClientEvent) :
  isHost socket (state w) = false -> is_host_command e = true ->
  handle registry bank env w socket e = (w, []).
Proof.
  intros Hh He. destruct e; simpl in He; try discriminate; simpl;
    [ unfold on_hostKickTeam | unfold on_hostApproveTakeover
    | unfold on_hostDenyTakeover | unfold on_hostReset | unfold on_hostSetShuffle
    | unfold on_hostSetManualScoring | unfold on_hostAdjustScore
    | unfold on_hostStart | unfold on_hostPauseToggle | unfold on_hostReveal
    | unfold on_hostNext ];
    rewrite Hh; reflexivity.
Qed.

(** C10. A reset by the host replaces the whole session state by a fresh
    one: no team, no claimed code, no pending takeover request, and also no
    host and no display. Only the public state is broadcast. Every
    host-only command that the same socket sends afterwards is ignored,
    until it sends registerHost, which makes it the host again. *)
Theorem hostReset_clears_host
    (registry : list TeamInfo) (bank : list Question)
    (env : Env) (w : World) (socket : Socket) :
  isHost socket (state w) = true ->
  let r := handle registry bank env w socket hostReset in
  let w' := fst r in
  state w' = resetState env /\
  teams (state w') = [] /\ claimedPins (state w') = [] /\
  pendingTakeovers w' = [] /\
  hostId (state w') = None /\ projectorIds (state w') = [] /\
  sockets w' = sockets w /\
  snd r = [io_emit (msg_state (publicState env (resetState env)))] /\
  (forall env' e, is_host_command e = true ->
     handle registry bank env' w' socket e = (w', [])) /\
  (forall env',
     isHost socket
       (state (fst (handle registry bank env' w' socket registerHost))) = true).
Proof.
  intros Hh. cbv zeta. simpl. unfold on_hostReset. rewrite Hh. simpl.
  do 8 (split; [reflexivity|]). split.
  - intros env' e He. now apply host_command_ignored.
  - intros _. unfold isHost. simpl. apply String.eqb_refl.
Qed.

Lemma hostReset_clears_host_witness :
  let w := fst (demo_run demo_revealed) in
  let w' := fst (handle demo_registry demo_bank (at_ms 9500) w sockH hostReset) in
  isHost sockH (state w) = true /\
  hostId (state w') = None /\
  handle demo_registry demo_bank (at_ms 9600) w' sockH hostStart = (w', []).
Proof.
  cbv zeta.
  assert (Hh : isHost sockH (state (fst (demo_run demo_revealed))) = true) by reflexivity.
  pose proof (hostReset_clears_host demo_registry demo_bank (at_ms 9500) _ sockH Hh) as T.
  cbv zeta in T. destruct T as (_ & _ & _ & _ & T5 & _ & _ & _ & T9 & _).
  split; [exact Hh|]. split; [exact T5|].
  exact (T9 (at_ms 9600) hostStart eq_refl).
Defined.

(** ** Claimed codes and their holders *)

Lemma trim_right_cons (c : ascii) (s : string) :
  trim_right (String c s) =
  if one_white (String c (trim_right s)) then EmptyString else String c (trim_right s).
Proof. reflexivity. Qed.

Lemma trim_right_idem (s : string) : trim_right (trim_right s) = trim_right s.
Proof.
  induction s as [|c s IH]; [reflexivity|].
  rewrite trim_right_cons.
  destruct (one_white (String c (trim_right s))) eqn:W; [reflexivity|].
  rewrite trim_right_cons, IH, W. reflexivity.
Qed.

Lemma trim_left_fixed (s : string) : starts_white s = false -> trim_left s = s.
Proof.
  destruct s as [|c1 [|c2 [|c3 s]]]; simpl; auto.
  - now rewrite orb_false_r; intros ->.
  - intros H. apply orb_false_iff in H as [-> H]. rewrite orb_false_r in H. now rewrite H.
  - intros H. apply orb_false_iff in H as [-> H]. apply orb_false_iff in H as [-> ->].
    reflexivity.
Qed.

Lemma trim_left_head_aux (n : nat) :
  forall s, (String.length s <= n)%nat -> starts_white (trim_left s) = false.
Proof.
  induction n as [|n IH]; intros s L.
  - destruct s; [reflexivity | simpl in L; lia].
  - destruct s as [|c1 s1]; [reflexivity|].
    cbn [trim_left]. simpl in L.
    destruct (is_white c1) eqn:W1; [apply IH; lia|].
    destruct s1 as [|c2 s2]; [simpl; now rewrite W1|].
    simpl in L.
    destruct (is_white2 c1 c2) eqn:W2; [apply IH; lia|].
    destruct s2 as [|c3 s3]; [simpl; now rewrite W1, W2|].
    simpl in L.
    destruct (is_white3 c1 c2 c3) eqn:W3; [apply IH; lia|].
    simpl. now rewrite W1, W2, W3.
Qed.

Lemma trim_left_head (s : string) : starts_white (trim_left s) = false.
Proof. exact (trim_left_head_aux (String.length s) s (Nat.le_refl _)). Qed.

Lemma trim_right_head (s : string) :
  starts_white s = false -> starts_white (trim_right s) = false.
Proof.
  destruct s as [|c1 s1]; [reflexivity|].
  rewrite trim_right_cons.
  destruct (one_white (String c1 (trim_right s1))); [reflexivity|].
  cbn [starts_white]. intros H. apply orb_false_iff in H as [W1 H]. rewrite W1. cbn [orb].
  destruct s1 as [|c2 s2]; [reflexivity|].
  rewrite trim_right_cons.
  destruct (one_white (String c2 (trim_right s2))); [reflexivity|].
  apply orb_false_iff in H as [W2 H]. rewrite W2. cbn [orb].
  destruct s2 as [|c3 s3]; [reflexivity|].
  rewrite trim_right_cons.
  destruct (one_white (String c3 (trim_right s3))); [reflexivity|].
  exact H.
Qed.

Lemma trim_idem (s : string) : trim (trim s) = trim s.
Proof.
  unfold trim.
  rewrite (trim_left_fixed (trim_right (trim_left s))).
  - apply trim_right_idem.
  - apply trim_right_head, trim_left_head.
Qed.

(** *** Lists, sets and maps *)

Lemma NoDup_map_filter {A B : Type} (f : A -> B) (g : A -> bool) (l : list A) :
  NoDup (map f l) -> NoDup (map f (filter g l)).
Proof.
  induction l as [|a l IH]; simpl; intros H; auto.
  inversion H as [|x xs Hnin Hnd]; subst.
  destruct (g a); simpl; auto.
  constructor; auto.
  intros Hin. apply Hnin. apply in_map_iff in Hin. destruct Hin as (b & Hb & Hin).
  apply in_map_iff. exists b. split; auto.
  apply filter_In in Hin. tauto.
Qed.

Lemma NoDup_map_eq {A B : Type} (f : A -> B) (l : list A) (a b : A) :
  NoDup (map f l) -> In a l -> In b l -> f a = f b -> a = b.
Proof.
  induction l as [|x l IH]; simpl; intros H Ha Hb E; [contradiction|].
  inversion H as [|y ys Hnin Hnd]; subst.
  destruct Ha as [Ha|Ha], Hb as [Hb|Hb]; subst; auto.
  - exfalso. apply Hnin. rewrite E. now apply in_map.
  - exfalso. apply Hnin. rewrite <- E. now apply in_map.
Qed.

Lemma has_add_same (c : JsSet.t) (p : string) : JsSet.has (JsSet.add c p) p = true.
Proof.
  unfold JsSet.add. destruct (JsSet.has c p) eqn:E; auto.
  unfold JsSet.has. rewrite existsb_app. simpl.
  rewrite String.eqb_refl. now rewrite orb_true_r.
Qed.

Lemma has_add_mono (c : JsSet.t) (p q : string) :
  JsSet.has c q = true -> JsSet.has (JsSet.add c p) q = true.
Proof.
  intros H. unfold JsSet.add. destruct (JsSet.has c p); auto.
  unfold JsSet.has in *. rewrite existsb_app, H. reflexivity.
Qed.

Lemma has_delete_other (c : JsSet.t) (p q : string) :
  q <> p -> JsSet.has (JsSet.delete c p) q = JsSet.has c q.
Proof.
  intros Hne. unfold JsSet.has, JsSet.delete.
  induction c as [|x c IH]; simpl; auto.
  destruct (String.eqb x p) eqn:E; simpl.
  - apply String.eqb_eq in E. subst x.
    assert (F : String.eqb q p = false) by now apply String.eqb_neq.
    now rewrite F, IH.
  - now rewrite IH.
Qed.

Lemma In_set {V : Type} (m : JsMap.t V) (k : string) (v : V) (x : string * V) :
  In x (JsMap.set m k v) -> x = (k, v) \/ In x m.
Proof.
  induction m as [|[k' v'] m IH]; simpl.
  - intros [H|[]]. now left.
  - destruct (String.eqb k' k) eqn:E; simpl.
    + apply String.eqb_eq in E. subst k'. intros [H|H]; auto.
    + intros [H|H]; auto. destruct (IH H); auto.
Qed.

Lemma In_delete {V : Type} (m : JsMap.t V) (k : string) (x : string * V) :
  In x (JsMap.delete m k) <-> In x m /\ fst x <> k.
Proof.
  unfold JsMap.delete. rewrite filter_In. split; intros [H1 H2]; split; auto.
  - apply negb_true_iff in H2. now apply String.eqb_neq.
  - apply negb_true_iff. now apply String.eqb_neq.
Qed.

Lemma get_In {V : Type} (m : JsMap.t V) (k : string) (v : V) :
  JsMap.get m k = Some v -> In (k, v) m.
Proof.
  induction m as [|[k' v'] m IH]; simpl; [discriminate|].
  destruct (String.eqb k' k) eqn:E.
  - apply String.eqb_eq in E. subst. intros H. inversion H. now left.
  - intros H. right. auto.
Qed.

Lemma In_values {V : Type} (m : JsMap.t V) (v : V) :
  In v (JsMap.values m) -> exists k, In (k, v) m.
Proof.
  unfold JsMap.values. rewrite in_map_iff. intros ([k v'] & E & H).
  simpl in E. subst. eauto.
Qed.

(** *** The team map stays well formed *)

Lemma teams_wf_nil (c : JsSet.t) : teams_wf c [].
Proof. repeat split; constructor. Qed.

Lemma teams_wf_In (c : JsSet.t) (m : JsMap.t Team) (kv : string * Team) :
  teams_wf c m -> In kv m ->
  id (snd kv) = fst kv /\ JsSet.has c (pin (snd kv)) = true.
Proof.
  intros (_ & _ & F) H. rewrite Forall_forall in F. now apply F.
Qed.

Lemma teams_wf_other_pin (c : JsSet.t) (m : JsMap.t Team) (k : string) (t : Team) :
  teams_wf c m -> In (k, t) m ->
  forall kv, In kv m -> fst kv <> k -> pin (snd kv) <> pin t.
Proof.
  intros (_ & Hp & _) Ht kv Hkv Hne E.
  apply Hne.
  now rewrite (NoDup_map_eq (fun kv => pin (snd kv)) m kv (k, t) Hp Hkv Ht E).
Qed.

Lemma teams_wf_set (c : JsSet.t) (m : JsMap.t Team) (k : string) (v : Team) :
  teams_wf c m -> id v = k -> JsSet.has c (pin v) = true ->
  (forall kv, In kv m -> fst kv <> k -> pin (snd kv) <> pin v) ->
  teams_wf c (JsMap.set m k v).
Proof.
  intros W Hid Hc. induction m as [|[k' v'] m IH]; intros Hother.
  - simpl. repeat split; repeat constructor; auto.
  - destruct W as (Wk & Wp & Wf). simpl in Wk, Wp.
    inversion Wk as [|? ? Hk1 Hk2]; subst.
    inversion Wp as [|? ? Hp1 Hp2]; subst.
    inversion Wf as [|? ? Hf1 Hf2]; subst.
    simpl. destruct (String.eqb k' (id v)) eqn:E.
    + apply String.eqb_eq in E. subst k'.
      repeat split; simpl; try constructor; auto.
      intros Hin. apply in_map_iff in Hin. destruct Hin as (kv & Ekv & Hin).
      apply (Hother kv); [now right | | exact Ekv].
      intros Ek. apply Hk1. rewrite <- Ek. now apply in_map.
    + apply String.eqb_neq in E.
      assert (W' : teams_wf c m) by (repeat split; auto).
      assert (IH' := IH W' (fun kv H => Hother kv (or_intror H))).
      destruct IH' as (Ik & Ip & If).
      repeat split; simpl; try constructor; auto.
      * intros Hin. apply in_map_iff in Hin. destruct Hin as (kv & Ekv & Hin).
        destruct (In_set _ _ _ _ Hin) as [->|Hm]; simpl in Ekv; [congruence|].
        apply Hk1. rewrite <- Ekv. now apply in_map.
      * intros Hin. apply in_map_iff in Hin. destruct Hin as (kv & Ekv & Hin).
        destruct (In_set _ _ _ _ Hin) as [->|Hm]; simpl in Ekv.
        -- apply (Hother (k', v')); simpl; auto.
        -- apply Hp1. rewrite <- Ekv.
           apply (in_map (fun kv => pin (snd kv))). exact Hm.
Qed.

Lemma teams_wf_delete (c : JsSet.t) (m : JsMap.t Team) (k p : string) :
  teams_wf c m ->
  (forall kv, In kv m -> fst kv <> k -> pin (snd kv) <> p) ->
  teams_wf (JsSet.delete c p) (JsMap.delete m k).
Proof.
  intros (Wk & Wp & Wf) Hother. repeat split.
  - apply NoDup_map_filter. exact Wk.
  - apply (NoDup_map_filter (fun kv => pin (snd kv))). exact Wp.
  - rewrite Forall_forall in *. intros kv Hin.
    apply In_delete in Hin. destruct Hin as [Hin Hne].
    destruct (Wf kv Hin) as [Hid Hc]. split; auto.
    rewrite has_delete_other; auto.
Qed.

Lemma teams_wf_unclaim (c : JsSet.t) (m : JsMap.t Team) (p : string) :
  teams_wf c m -> (forall kv, In kv m -> pin (snd kv) <> p) ->
  teams_wf (JsSet.delete c p) m.
Proof.
  intros (Wk & Wp & Wf) Hother. repeat split; auto.
  rewrite Forall_forall in *. intros kv Hin.
  destruct (Wf kv Hin) as [Hid Hc]. split; auto.
  rewrite has_delete_other; auto.
Qed.

Lemma teams_wf_claim (c : JsSet.t) (m : JsMap.t Team) (p : string) :
  teams_wf c m -> teams_wf (JsSet.add c p) m.
Proof.
  intros (Wk & Wp & Wf). repeat split; auto.
  rewrite Forall_forall in *. intros kv Hin.
  destruct (Wf kv Hin) as [Hid Hc]. split; auto. now apply has_add_mono.
Qed.

Lemma teams_wf_update_all (c : JsSet.t) (m : JsMap.t Team) (f : Team -> Team) :
  (forall t, id (f t) = id t /\ pin (f t) = pin t) ->
  teams_wf c m -> teams_wf c (JsMap.update_all f m).
Proof.
  intros Hf (Wk & Wp & Wf). unfold JsMap.update_all. repeat split.
  - rewrite map_map. simpl. exact Wk.
  - rewrite map_map. simpl.
    erewrite map_ext; [exact Wp|]. intros kv. simpl. apply Hf.
  - rewrite Forall_forall in *. intros kv Hin.
    apply in_map_iff in Hin. destruct Hin as (kv0 & <- & Hin). simpl.
    destruct (Hf (snd kv0)) as [-> ->]. now apply Wf.
Qed.


Lemma on_disconnect_wf (env : Env) (w : World) (s : Socket) :
  held_codes_wf (state w) ->
  let w' := fst (on_disconnect env w s) in
  held_codes_wf (state w') /\
  (forall kv, In kv (teams (state w')) -> In kv (teams (state w))).
Proof.
  intros W. cbv zeta. unfold on_disconnect, held_codes_wf in *.
  destruct (match hostId (state w) with
            | Some h => String.eqb (sock_id s) h
            | None => false
            end); simpl;
    (destruct (JsMap.get (teams (state w)) (sock_id s)) as [t|] eqn:Ht; simpl;
     [ split;
       [ apply teams_wf_delete; auto;
         apply (teams_wf_other_pin _ _ _ _ W (get_In _ _ _ Ht))
       | intros kv H; apply In_delete in H; tauto ]
     | auto ]).
Qed.

Lemma kickTeamSocket_wf (env : Env) (w : World) (t : Team) :
  held_codes_wf (state w) -> In (id t, t) (teams (state w)) ->
  let w' := fst (kickTeamSocket env w t) in
  held_codes_wf (state w') /\
  (forall kv, In kv (teams (state w')) ->
              In kv (teams (state w)) /\ pin (snd kv) <> pin t).
Proof.
  intros W Ht. cbv zeta. unfold kickTeamSocket.
  assert (K : forall w1 : World,
            held_codes_wf (state w1) ->
            (forall kv, In kv (teams (state w1)) -> In kv (teams (state w))) ->
            teams_wf (JsSet.delete (claimedPins (state w1)) (pin t))
              (JsMap.delete (teams (state w1)) (id t)) /\
            (forall kv, In kv (JsMap.delete (teams (state w1)) (id t)) ->
                        In kv (teams (state w)) /\ pin (snd kv) <> pin t)).
  { intros w1 W1 Hsub.
    assert (O : forall kv, In kv (teams (state w1)) -> fst kv <> id t ->
                           pin (snd kv) <> pin t).
    { intros kv Hin Hne.
      exact (teams_wf_other_pin _ _ _ _ W Ht kv (Hsub kv Hin) Hne). }
    split.
    - apply teams_wf_delete; auto.
    - intros kv Hin. apply In_delete in Hin. destruct Hin as [Hin Hne].
      split; auto. }
  destruct (JsMap.get (sockets w) (id t)) as [s|].
  - pose proof (on_disconnect_wf env (with_sockets (JsMap.delete (sockets w) (id t)) w) s W)
      as D. cbv zeta in D.
    destruct (on_disconnect env (with_sockets (JsMap.delete (sockets w) (id t)) w) s)
      as [w1 o1]. simpl in D. destruct D as [D1 D2].
    simpl. unfold held_codes_wf. simpl. apply K; auto.
  - simpl. unfold held_codes_wf. simpl. apply K; auto.
Qed.

Lemma doJoinTeam_wf (env : Env) (w : World) (s : Socket) (p : Pin) (info : TeamInfo) :
  held_codes_wf (state w) ->
  (forall kv, In kv (teams (state w)) -> pin (snd kv) <> p) ->
  held_codes_wf (state (fst (doJoinTeam env w s p info))).
Proof.
  intros W Hfree. unfold doJoinTeam, held_codes_wf in *. simpl.
  apply teams_wf_set.
  - now apply teams_wf_claim.
  - reflexivity.
  - simpl. apply has_add_same.
  - intros kv Hin _. simpl. now apply Hfree.
Qed.

Lemma findTeamByPin_In (s : State) (p : string) (t : Team) :
  held_codes_wf s -> findTeamByPin s p = Some t ->
  In (id t, t) (teams s) /\ pin t = trim p.
Proof.
  intros W H. unfold findTeamByPin in H. apply find_some in H.
  destruct H as [Hin E]. apply String.eqb_eq in E. split; auto.
  apply In_values in Hin. destruct Hin as [k Hin].
  destruct (teams_wf_In _ _ _ W Hin) as [Hid _]. simpl in Hid. now rewrite Hid.
Qed.

Lemma findTeamByPin_none (s : State) (p : string) :
  findTeamByPin s p = None ->
  forall kv, In kv (teams s) -> pin (snd kv) <> trim p.
Proof.
  intros H kv Hin E. unfold findTeamByPin in H.
  assert (Hv : In (snd kv) (JsMap.values (teams s)))
    by (unfold JsMap.values; now apply in_map).
  pose proof (find_none _ _ H _ Hv) as F. simpl in F.
  apply String.eqb_neq in F. contradiction.
Qed.

Lemma get_wf (s : State) (k : string) (t : Team) :
  held_codes_wf s -> JsMap.get (teams s) k = Some t -> In (id t, t) (teams s).
Proof.
  intros W H. apply get_In in H.
  destruct (teams_wf_In _ _ _ W H) as [Hid _]. simpl in Hid. now rewrite Hid.
Qed.

(** Replacing the team of a socket by one with the same id and code. *)
Lemma teams_wf_modify (c : JsSet.t) (m : JsMap.t Team) (k : string) (t t' : Team) :
  teams_wf c m -> JsMap.get m k = Some t -> id t' = id t -> pin t' = pin t ->
  teams_wf c (JsMap.set m k t').
Proof.
  intros W H Hid Hpin. apply get_In in H.
  destruct (teams_wf_In _ _ _ W H) as [Hid0 Hc]. simpl in Hid0, Hc.
  apply teams_wf_set; auto.
  - congruence.
  - now rewrite Hpin.
  - rewrite Hpin. now apply (teams_wf_other_pin _ _ _ _ W H).
Qed.

Lemma clearAnswer_same_team (t : Team) :
  id (clearAnswer t) = id t /\ pin (clearAnswer t) = pin t.
Proof. split; reflexivity. Qed.

Lemma scoreTeam_same_team (correctIdx budget : Z) (t : Team) :
  id (scoreTeam correctIdx budget t) = id t /\ pin (scoreTeam correctIdx budget t) = pin t.
Proof.
  unfold scoreTeam. simpl.
  destruct (lockedChoice t), (lockedAtRunMs t); split; reflexivity.
Qed.

Lemma startQuestion_wf (i : Z) (s : State) :
  held_codes_wf s -> held_codes_wf (startQuestion i s).
Proof.
  intros W. unfold held_codes_wf, startQuestion. simpl.
  apply teams_wf_update_all; [apply clearAnswer_same_team | exact W].
Qed.

Lemma resume_wf (env : Env) (s : State) :
  held_codes_wf s -> held_codes_wf (fst (resume env s)).
Proof.
  intros W. unfold resume, logQuestionIfNeeded, held_codes_wf in *.
  repeat (case_step; simpl); exact W.
Qed.

Lemma pause_wf (env : Env) (s : State) :
  held_codes_wf s -> held_codes_wf (pause env s).
Proof.
  intros W. unfold pause, held_codes_wf in *. repeat (case_step; simpl); exact W.
Qed.

Lemma revealAnswer_wf (env : Env) (s : State) :
  held_codes_wf s -> held_codes_wf (fst (revealAnswer env s)).
Proof.
  intros W. unfold revealAnswer, logQuestionIfNeeded, held_codes_wf in *.
  repeat (case_step; simpl); try exact W;
    (apply teams_wf_update_all; [|exact W]);
    try apply scoreTeam_same_team; intros t; split; reflexivity.
Qed.

Lemma nextQuestion_wf (s : State) :
  held_codes_wf s -> held_codes_wf (nextQuestion s).
Proof.
  intros W. unfold nextQuestion. case_step; [exact W | now apply startQuestion_wf].
Qed.

Lemma showLeaderboard_wf (s : State) :
  held_codes_wf s -> held_codes_wf (showLeaderboard s).
Proof. intros W. unfold showLeaderboard. case_step; exact W. Qed.

Section HeldCodes.
Variable TEAM_REGISTRY : list TeamInfo.
Variable QUESTION_BANK : list Question.

Lemma on_joinTeam_wf (env : Env) (w : World) (s : Socket) (pin0 : string) :
  held_codes_wf (state w) ->
  held_codes_wf (state (fst (on_joinTeam TEAM_REGISTRY env w s pin0))).
Proof.
  intros W. unfold on_joinTeam.
  destruct (lookupTeamInfo TEAM_REGISTRY (trim pin0)) as [info|]; simpl; auto.
  destruct (JsMap.has (teams (state w)) (sock_id s)); simpl; auto.
  destruct (JsSet.has (claimedPins (state w)) (trim pin0)) eqn:Hc; simpl; auto.
  apply doJoinTeam_wf; auto.
  intros kv Hin E.
  destruct (teams_wf_In _ _ _ W Hin) as [_ Hk]. rewrite E in Hk. congruence.
Qed.

Lemma on_hostKickTeam_wf (env : Env) (w : World) (s : Socket) (tid p : option string) :
  held_codes_wf (state w) ->
  held_codes_wf (state (fst (on_hostKickTeam env w s tid p))).
Proof.
  intros W. unfold on_hostKickTeam.
  destruct (negb (isHost s (state w))); simpl; auto.
  match goal with
  | |- context [match ?tg with Some _ => _ | None => _ end] =>
      destruct tg as [t|] eqn:Ht; simpl; auto
  end.
  assert (Hin : In (id t, t) (teams (state w))).
  { destruct (truthy tid).
    - destruct tid as [k|]; [|discriminate]. now apply (get_wf _ k).
    - destruct (truthy p); [|discriminate].
      destruct p as [q|]; [|discriminate].
      now apply (findTeamByPin_In _ q). }
  pose proof (kickTeamSocket_wf env
                (with_pending (clearPendingTakeoverForPin (pendingTakeovers w) (pin t) None) w)
                t W Hin) as K.
  cbv zeta in K.
  destruct (kickTeamSocket env _ t) as [w1 o1]. simpl in *. tauto.
Qed.

Lemma on_hostApproveTakeover_wf (env : Env) (w : World) (s : Socket) (pin0 : string) :
  held_codes_wf (state w) ->
  held_codes_wf (state (fst (on_hostApproveTakeover TEAM_REGISTRY env w s pin0))).
Proof.
  intros W. unfold on_hostApproveTakeover.
  destruct (negb (isHost s (state w))); simpl; auto.
  destruct (JsMap.get (pendingTakeovers w) (trim pin0)) as [req|]; simpl; auto.
  assert (K : forall w1 o1,
             (match findTeamByPin (state w) (trim pin0) with
              | Some t => kickTeamSocket env w t
              | None => (with_state (set_claimedPins
                           (JsSet.delete (claimedPins (state w)) (trim pin0)) (state w)) w, [])
              end) = (w1, o1) ->
             held_codes_wf (state w1) /\
             (forall kv, In kv (teams (state w1)) -> pin (snd kv) <> trim pin0)).
  { intros w1 o1 E.
    destruct (findTeamByPin (state w) (trim pin0)) as [t|] eqn:Hf.
    - destruct (findTeamByPin_In _ _ _ W Hf) as [Hin Hp]. rewrite trim_idem in Hp.
      pose proof (kickTeamSocket_wf env w t W Hin) as K. cbv zeta in K.
      rewrite E in K. simpl in K. destruct K as [K1 K2].
      split; auto. intros kv Hkv. rewrite <- Hp. now apply K2.
    - inversion E; subst. simpl.
      pose proof (findTeamByPin_none _ _ Hf) as N. rewrite trim_idem in N.
      split; auto. unfold held_codes_wf. simpl. now apply teams_wf_unclaim. }
  destruct (match findTeamByPin (state w) (trim pin0) with
            | Some t => kickTeamSocket env w t
            | None => _ end) as [w1 o1].
  destruct (K w1 o1 eq_refl) as [K1 K2].
  destruct (JsMap.get (sockets w) (requesterId req)) as [rs|]; simpl; auto.
  destruct (lookupTeamInfo TEAM_REGISTRY (trim pin0)) as [info|]; simpl; auto.
  pose proof (doJoinTeam_wf env
                (with_state (set_claimedPins
                               (JsSet.delete (claimedPins (state w1)) (trim pin0))
                               (state w1)) w1)
                rs (trim pin0) info) as J.
  simpl in J. apply J.
  - unfold held_codes_wf. simpl. now apply teams_wf_unclaim.
  - exact K2.
Qed.

Lemma on_lockAnswer_wf (env : Env) (w : World) (s : Socket) (c : JsValue) :
  held_codes_wf (state w) ->
  held_codes_wf (state (fst (on_lockAnswer env w s c))).
Proof.
  intros W. unfold on_lockAnswer.
  destruct (JsMap.get (teams (state w)) (sock_id s)) as [t|] eqn:Ht; simpl; auto.
  repeat (case_step; simpl); auto.
  unfold held_codes_wf. simpl.
  now apply (teams_wf_modify _ _ _ t).
Qed.

Lemma on_hostAdjustScore_wf (env : Env) (w : World) (s : Socket)
    (tid : SockId) (d : option Z) :
  held_codes_wf (state w) ->
  held_codes_wf (state (fst (on_hostAdjustScore env w s tid d))).
Proof.
  intros W. unfold on_hostAdjustScore.
  destruct (negb (isHost s (state w))); simpl; auto.
  destruct (JsMap.get (teams (state w)) tid) as [t|] eqn:Ht; simpl; auto.
  destruct d as [d|]; simpl; auto.
  unfold held_codes_wf. simpl.
  now apply (teams_wf_modify _ _ _ t).
Qed.

Lemma handle_wf (env : Env) (w : World) (s : Socket) (e : ClientEvent) :
  held_codes_wf (state w) ->
  held_codes_wf (state (fst (handle TEAM_REGISTRY QUESTION_BANK env w s e))).
Proof.
  intros W. destruct e; simpl.
  - exact W.
  - exact W.
  - now apply on_joinTeam_wf.
  - now apply on_hostKickTeam_wf.
  - now apply on_hostApproveTakeover_wf.
  - unfold on_hostDenyTakeover. repeat (case_step; simpl); exact W.
  - now apply on_lockAnswer_wf.
  - unfold on_hostReset. case_step; simpl; auto. apply teams_wf_nil.
  - unfold on_hostSetShuffle. repeat (case_step; simpl); exact W.
  - unfold on_hostSetManualScoring. repeat (case_step; simpl); exact W.
  - now apply on_hostAdjustScore_wf.
  - unfold on_hostStart. repeat (case_step; simpl); auto.
    now apply startQuestion_wf.
  - unfold on_hostPauseToggle. repeat (case_step; simpl); auto.
    + match goal with
      | E : resume ?env ?s0 = (?s1, _) |- _ =>
          pose proof (resume_wf env s0 W) as F; rewrite E in F; exact F
      end.
    + now apply pause_wf.
  - unfold on_hostReveal. repeat (case_step; simpl); auto.
    match goal with
    | E : revealAnswer ?env ?s0 = (?s1, _) |- _ =>
        pose proof (revealAnswer_wf env s0 W) as F; rewrite E in F; exact F
    end.
  - unfold on_hostNext. repeat (case_step; simpl); auto.
    + now apply showLeaderboard_wf.
    + now apply nextQuestion_wf.
Qed.

Lemma step_wf (env : Env) (w : World) (ev : Event) :
  held_codes_wf (state w) ->
  held_codes_wf (state (fst (step TEAM_REGISTRY QUESTION_BANK env w ev))).
Proof.
  intros W. destruct ev as [s|sid e|sid|]; simpl.
  - case_step; simpl; exact W.
  - destruct (JsMap.get (sockets w) sid); simpl; [now apply handle_wf | exact W].
  - destruct (JsMap.get (sockets w) sid) as [s|]; simpl; [|exact W].
    apply (on_disconnect_wf env (with_sockets (JsMap.delete (sockets w) sid) w) s W).
  - unfold on_tick. repeat (case_step; simpl); auto.
    match goal with
    | E : revealAnswer ?env ?s0 = (?s1, _) |- _ =>
        pose proof (revealAnswer_wf env s0 W) as F; rewrite E in F; exact F
    end.
Qed.

Lemma holders_at_most_one (c : JsSet.t) (m : JsMap.t Team) (p : Pin) :
  teams_wf c m ->
  (length (filter (fun t => String.eqb (pin t) p) (JsMap.values m)) <= 1)%nat.
Proof.
  intros (_ & Wp & _). unfold JsMap.values.
  induction m as [|[k t] m IH]; simpl; auto.
  simpl in Wp. inversion Wp as [|? ? Hnin Hnd]; subst.
  destruct (String.eqb (pin t) p) eqn:E; simpl; auto.
  apply String.eqb_eq in E.
  assert (N : filter (fun t0 => String.eqb (pin t0) p) (map snd m) = []).
  { clear IH Hnd Wp. induction m as [|[k' t'] m IH]; simpl; auto.
    simpl in Hnin.
    destruct (String.eqb (pin t') p) eqn:E'.
    - apply String.eqb_eq in E'. exfalso. apply Hnin. left. congruence.
    - apply IH. intros H. apply Hnin. now right. }
  rewrite N. simpl. lia.
Qed.

(** X23. In every reachable state every live team holds a claimed code, and
    no code is held by two live teams. *)
Lemma held_codes_invariant (w : World) :
  reachable TEAM_REGISTRY QUESTION_BANK w ->
  held_codes_wf (state w) /\
  (forall p, (length (holders (state w) p) <= 1)%nat) /\
  (forall p, length (holders (state w) p) = 1%nat ->
             JsSet.has (claimedPins (state w)) p = true).
Proof.
  intros R.
  assert (W : held_codes_wf (state w)).
  { induction R; [apply teams_wf_nil | now apply step_wf]. }
  split; [exact W|]. split.
  - intros p. exact (holders_at_most_one _ _ p W).
  - intros p Hl. unfold holders in Hl.
    destruct (filter (fun t => String.eqb (pin t) p) (JsMap.values (teams (state w))))
      as [|t l] eqn:E; [discriminate|].
    assert (Hin : In t (filter (fun t => String.eqb (pin t) p)
                          (JsMap.values (teams (state w)))))
      by (rewrite E; now left).
    apply filter_In in Hin. destruct Hin as [Hin Hp].
    apply String.eqb_eq in Hp. apply In_values in Hin. destruct Hin as [k Hin].
    destruct (teams_wf_In _ _ _ W Hin) as [_ Hc]. simpl in Hc. now rewrite <- Hp.
Qed.

End HeldCodes.

(** A request for a code that is taken changes neither the teams nor the
    claimed codes: the holder stays until the host decides. *)
Lemma joinTeam_claimed_keeps_holder (registry : list TeamInfo) (env : Env) (w : World)
    (socket : Socket) (pin0 : string) :
  JsSet.has (claimedPins (state w)) (trim pin0) = true ->
  state (fst (on_joinTeam registry env w socket pin0)) = state w.
Proof.
  intros Hc. unfold on_joinTeam. rewrite Hc.
  repeat case_if; reflexivity.
Qed.

(** C2, on the code. A device that asked for a code that was taken, then
    logged in with another code, and whose request is then approved, ends
    up holding the requested code, while the code it held before stays
    claimed with no team holding it: in a reachable state a claimed code
    has no holder. *)
Theorem approved_takeover_orphans_claim :
  let w := fst (demo_run demo_takeover) in
  reachable demo_registry demo_bank w /\
  JsSet.has (claimedPins (state w)) "2222" = true /\
  holders (state w) "2222" = [] /\
  option_map pin (JsMap.get (teams (state w)) "devX") = Some "1111" /\
  ~ claimed_iff_held (state w).
Proof.
  cbv zeta. split; [apply run_reachable, reachable_initial|].
  split; [reflexivity|]. split; [reflexivity|]. split; [reflexivity|].
  intros H. specialize (H "2222"). destruct H as [H _].
  specialize (H eq_refl). vm_compute in H. discriminate H.
Qed.

(** * Further properties of the code *)

(** ** Scoring and the countdown *)

Lemma Qdiv_1000_le (a b : Q) : (a <= b)%Q -> (a / 1000 <= b / 1000)%Q.
Proof.
  intros H. unfold Qdiv. apply Qmult_le_compat_r; [exact H|]. discriminate.
Qed.

(** X1. The score never exceeds 20 and never is negative, whatever the
    arguments, finite or not; and a correct answer locked later never
    scores more than one locked earlier. *)
Theorem computeQuestionScore_monotone :
  (forall isCorrect lockedAtRunMs timeSec,
     0 <= computeQuestionScore isCorrect lockedAtRunMs timeSec <= 20) /\
  (forall (earlier later : Q) timeSec,
     (earlier <= later)%Q ->
     computeQuestionScore true (Fin later) timeSec
     <= computeQuestionScore true (Fin earlier) timeSec).
Proof.
  split.
  - intros c l t. unfold computeQuestionScore.
    destruct c; simpl negb; cbv iota; [|lia].
    case_if; lia.
  - intros a b t Hab. unfold computeQuestionScore. simpl negb. cbv iota.
    pose proof (Qdiv_1000_le a b Hab) as Hd.
    destruct (Qle_bool (b / 1000) 4) eqn:Eb.
    + apply Qle_bool_iff in Eb.
      assert (Ea : Qle_bool (a / 1000) 4 = true)
        by (apply Qle_bool_iff; eapply Qle_trans; eauto).
      rewrite Ea. lia.
    + destruct (Qle_bool (a / 1000) 4) eqn:Ea; [lia|].
      assert (Hc : Qceiling (a / 1000 - 4) <= Qceiling (b / 1000 - 4)).
      { apply Qceiling_resp_le. unfold Qminus. now apply Qplus_le_l. }
      lia.
Qed.

Lemma computeQuestionScore_monotone_witness :
  (3500 <= 9250)%Q /\
  computeQuestionScore true (Fin 9250) NotFinite
  <= computeQuestionScore true (Fin 3500) NotFinite.
Proof.
  assert (H : (3500 <= 9250)%Q) by (unfold Qle; simpl; lia).
  split; [exact H|].
  exact (proj2 computeQuestionScore_monotone 3500%Q 9250%Q NotFinite H).
Defined.

Lemma Qceiling_nonpos (x : Q) : Qceiling x <= 0 <-> (x <= 0)%Q.
Proof.
  split; intros H.
  - eapply Qle_trans; [apply Qle_ceiling|].
    change 0%Q with (inject_Z 0). now rewrite <- Zle_Qle.
  - rewrite <- (Qceiling_Z 0). now apply Qceiling_resp_le.
Qed.

Lemma budget_spent (t e : Z) :
  (inject_Z t - inject_Z e / 1000 <= 0)%Q <-> t * 1000 <= e.
Proof.
  unfold Qle, Qminus, Qplus, Qopp, Qdiv, Qmult, Qinv, inject_Z. simpl.
  split; intros H; lia.
Qed.

(** X2. Outside phase question there is no countdown. In phase question
    the countdown is a whole number of seconds that is never negative, is
    at least the time that is really left, and reads 0 exactly when the
    elapsed run time has reached the time budget. *)
Theorem getRemainingSec_countdown (env : Env) (s : State) :
  (phase s <> question -> getRemainingSec env s = None) /\
  (phase s = question ->
   exists r, getRemainingSec env s = Some r /\ 0 <= r /\
     (inject_Z (timeSec s) - inject_Z (getRunElapsedMs env s) / 1000 <= inject_Z r)%Q /\
     (r = 0 <-> timeSec s * 1000 <= getRunElapsedMs env s)).
Proof.
  unfold getRemainingSec. split.
  - intros H. apply Phase_eqb_neq in H. now rewrite H.
  - intros H. rewrite H. simpl. eexists. split; [reflexivity|].
    set (x := (inject_Z (timeSec s) - inject_Z (getRunElapsedMs env s) / 1000)%Q).
    split; [lia|]. split.
    + eapply Qle_trans; [apply Qle_ceiling|]. rewrite <- Zle_Qle. lia.
    + rewrite <- budget_spent. fold x. rewrite <- Qceiling_nonpos. lia.
Qed.

Lemma getRemainingSec_countdown_witness :
  let s := state (fst (demo_run demo_question)) in
  phase s = question /\
  getRemainingSec (at_ms 20999) s = Some 1 /\
  getRemainingSec (at_ms 21000) s = Some 0.
Proof.
  cbv zeta.
  assert (Hq : phase (state (fst (demo_run demo_question))) = question) by reflexivity.
  split; [exact Hq|].
  destruct (proj2 (getRemainingSec_countdown (at_ms 21000) _) Hq) as (r & Hr & _ & _ & Hz).
  split; [reflexivity|].
  rewrite Hr. f_equal. apply Hz. vm_compute. discriminate.
Defined.

Lemma revealAnswer_phase (env : Env) (s : State) :
  phase s = question ->
  let s' := fst (revealAnswer env s) in
  phase s' = revealed /\ paused s' = true /\
  (paused s = true -> accumulatedRunMs s' = accumulatedRunMs s) /\
  (paused s = false -> startedAtMs s <> 0 ->
   accumulatedRunMs s' = accumulatedRunMs s + (now env - startedAtMs s) /\
   startedAtMs s' = 0).
Proof.
  intros Hq. cbv zeta. unfold revealAnswer, logQuestionIfNeeded. rewrite Hq.
  simpl negb. cbv iota.
  destruct (paused s) eqn:Hp; simpl.
  - repeat (case_step; simpl); repeat split; auto; discriminate.
  - destruct (startedAtMs s =? 0) eqn:Hz; simpl;
      repeat (case_step; simpl); repeat split; auto; try discriminate;
      try (intros; apply Z.eqb_eq in Hz; contradiction).
Qed.

Lemma remaining_due (env : Env) (s : State) :
  phase s = question ->
  exists r, getRemainingSec env s = Some r /\
            ((r <=? 0) = true <-> timeSec s * 1000 <= getRunElapsedMs env s).
Proof.
  intros H. unfold getRemainingSec. rewrite H. simpl. eexists. split; [reflexivity|].
  rewrite <- budget_spent, <- Qceiling_nonpos, Z.leb_le. lia.
Qed.

(** X3. The timer callback acts only when the phase is question, the clock
    is running and the elapsed run time has reached the time budget;
    otherwise it changes nothing and emits nothing. When it acts it reveals:
    the phase becomes revealed, the session is paused, the elapsed time is
    committed, and the new public state is broadcast. *)
Theorem on_tick_auto_reveal (env : Env) (w : World) :
  let due := phase (state w) = question /\ paused (state w) = false /\
             timeSec (state w) * 1000 <= getRunElapsedMs env (state w) in
  (~ due -> on_tick env w = (w, [])) /\
  (due ->
   let r := on_tick env w in
   phase (state (fst r)) = revealed /\ paused (state (fst r)) = true /\
   pendingTakeovers (fst r) = pendingTakeovers w /\ sockets (fst r) = sockets w /\
   (startedAtMs (state w) <> 0 ->
    accumulatedRunMs (state (fst r)) = getRunElapsedMs env (state w)) /\
   In (io_emit (msg_state (publicState env (state (fst r))))) (snd r)).
Proof.
  cbv zeta. unfold on_tick. split.
  - intros Hn.
    destruct (Phase_eqb (phase (state w)) question) eqn:Hq; simpl; auto.
    apply Phase_eqb_eq in Hq.
    destruct (paused (state w)) eqn:Hp; auto.
    destruct (remaining_due env (state w) Hq) as (r & Hr & Hz). rewrite Hr.
    destruct (r <=? 0) eqn:E; auto.
    exfalso. apply Hn. repeat split; auto. now apply Hz.
  - intros (Hq & Hp & Hd).
    destruct (remaining_due env (state w) Hq) as (r & Hr & Hz).
    rewrite Hq, Hp, Hr. simpl negb. cbv iota.
    rewrite (proj2 Hz Hd).
    pose proof (revealAnswer_phase env (state w) Hq) as R. cbv zeta in R.
    destruct (revealAnswer env (state w)) as [s1 o1]. simpl in R. simpl.
    destruct R as (R1 & R2 & _ & R4).
    repeat split; auto.
    + intros Hne. rewrite (elapsed_running env (state w) Hq Hp).
      now apply R4.
    + apply in_or_app. right. unfold broadcast. simpl. now left.
Qed.

Lemma on_tick_auto_reveal_witness :
  let w := fst (demo_run demo_question) in
  (phase (state w) = question /\ paused (state w) = false /\
   timeSec (state w) * 1000 <= getRunElapsedMs (at_ms 21000) (state w)) /\
  phase (state (fst (on_tick (at_ms 21000) w))) = revealed /\
  on_tick (at_ms 20999) w = (w, []).
Proof.
  cbv zeta.
  assert (D : phase (state (fst (demo_run demo_question))) = question /\
              paused (state (fst (demo_run demo_question))) = false /\
              timeSec (state (fst (demo_run demo_question))) * 1000
              <= getRunElapsedMs (at_ms 21000) (state (fst (demo_run demo_question)))).
  { repeat split; try reflexivity; try (vm_compute; discriminate). }
  split; [exact D|]. split.
  - exact (proj1 (proj2 (on_tick_auto_reveal (at_ms 21000) _) D)).
  - apply (proj1 (on_tick_auto_reveal (at_ms 20999) _)).
    intros (_ & _ & H). vm_compute in H. apply H. reflexivity.
Defined.

(** ** Shuffling *)

Lemma assign_perm {A : Type} (r : list A) : forall (j : nat) (x b : A),
  nth_error r j = Some b -> Permutation (b :: assign j x r) (x :: r).
Proof.
  induction r as [|y r IH]; intros [|j] x b H; simpl in *; try discriminate.
  - inversion H; subst. apply perm_swap.
  - eapply perm_trans; [apply perm_swap|].
    eapply perm_trans; [apply perm_skip, (IH j x b H)|]. apply perm_swap.
Qed.

Lemma swap_cons {A : Type} (x : A) (r : list A) (i j : nat) :
  swap (S i) (S j) (x :: r) = x :: swap i j r.
Proof.
  unfold swap. simpl.
  destruct (nth_error r i), (nth_error r j); reflexivity.
Qed.

Lemma swap_perm {A : Type} (l : list A) : forall i j, Permutation (swap i j l) l.
Proof.
  induction l as [|x r IH]; intros i j.
  - unfold swap. destruct i, j; reflexivity.
  - destruct i as [|i], j as [|j].
    + reflexivity.
    + unfold swap. simpl. destruct (nth_error r j) as [b|] eqn:E; [|reflexivity].
      now apply assign_perm.
    + unfold swap. simpl. destruct (nth_error r i) as [a|] eqn:E; [|reflexivity].
      now apply assign_perm.
    + rewrite swap_cons. apply perm_skip, IH.
Qed.

Lemma shuffle_from_perm {A : Type} (rnd : nat -> Z) (i : nat) :
  forall (arr : list A) (k : nat), Permutation (fst (shuffle_from rnd i arr k)) arr.
Proof.
  induction i as [|i IH]; intros arr k; simpl; [reflexivity|].
  eapply perm_trans; [apply IH | apply swap_perm].
Qed.

(** X4. Whatever the random draws, shuffleArray returns the elements it was
    given, each as often as before, in some order; in particular the length
    is kept and nothing is lost or duplicated. *)
Theorem shuffleArray_permutation {A : Type} (rnd : nat -> Z) (arr : list A) (k : nat) :
  Permutation (fst (shuffleArray rnd arr k)) arr /\
  length (fst (shuffleArray rnd arr k)) = length arr /\
  (forall x, In x (fst (shuffleArray rnd arr k)) <-> In x arr).
Proof.
  assert (P : Permutation (fst (shuffleArray rnd arr k)) arr)
    by apply shuffle_from_perm.
  split; [exact P|]. split; [now apply Permutation_length|].
  intros x. split; apply Permutation_in; [exact P | now apply Permutation_sym].
Qed.

Lemma findIndex_none {A : Type} (f : A -> bool) (l : list A) :
  (forall x, In x l -> f x = false) -> findIndex f l = -1.
Proof.
  induction l as [|a r IH]; simpl; intros H; auto.
  rewrite (H a (or_introl eq_refl)). rewrite IH by auto. reflexivity.
Qed.

Lemma findIndex_found {A : Type} (f : A -> bool) (l : list A) :
  (exists x, In x l /\ f x = true) ->
  0 <= findIndex f l < Z.of_nat (length l) /\
  exists y, nth_error l (Z.to_nat (findIndex f l)) = Some y /\ f y = true.
Proof.
  induction l as [|a r IH]; intros (x & Hin & Hx); [contradiction|].
  simpl findIndex. destruct (f a) eqn:Ea.
  - split; [simpl length; lia|]. exists a. auto.
  - destruct Hin as [->|Hin]; [congruence|].
    destruct (IH (ex_intro _ x (conj Hin Hx))) as (Hr & y & Hy & Hfy).
    assert (E : (findIndex f r <? 0) = false) by (apply Z.ltb_ge; lia).
    rewrite E. split; [simpl length; lia|].
    exists y. split; auto.
    replace (Z.to_nat (findIndex f r + 1)) with (S (Z.to_nat (findIndex f r))) by lia.
    exact Hy.
Qed.

Lemma combine_seq_In {A : Type} (l : list A) : forall (s : nat) (c : A) (i : nat),
  In (c, i) (combine l (seq s (length l))) ->
  (s <= i)%nat /\ nth_error l (i - s) = Some c.
Proof.
  induction l as [|a l IH]; intros s c i H; simpl in H; [contradiction|].
  destruct H as [H|H].
  - inversion H; subst. split; [lia|]. now rewrite Nat.sub_diag.
  - destruct (IH (S s) c i H) as [Hle Hn]. split; [lia|].
    replace (i - s)%nat with (S (i - S s)) by lia. exact Hn.
Qed.

Lemma combine_seq_nth {A : Type} (l : list A) : forall (s k : nat) (c : A),
  nth_error l k = Some c -> In (c, (s + k)%nat) (combine l (seq s (length l))).
Proof.
  induction l as [|a l IH]; intros s [|k] c H; simpl in *; try discriminate.
  - inversion H; subst. left. f_equal. lia.
  - right. replace (s + S k)%nat with (S s + k)%nat by lia. now apply IH.
Qed.

Lemma combine_seq_fst {A : Type} (l : list A) : forall s : nat,
  map fst (combine l (seq s (length l))) = l.
Proof.
  induction l as [|a l IH]; intros s; simpl; auto. now rewrite IH.
Qed.

Lemma shuffleChoicesForQuestion_keeps (rnd : nat -> Z) (q : Question) (k : nat) :
  keeps_answer q (fst (shuffleChoicesForQuestion rnd q k)).
Proof.
  unfold shuffleChoicesForQuestion.
  set (pairs := combine (choices q) (seq 0 (length (choices q)))).
  pose proof (shuffle_from_perm rnd (length pairs - 1) pairs k) as P.
  fold (shuffleArray rnd pairs k) in P.
  destruct (shuffleArray rnd pairs k) as [pairs' k']. simpl in P. simpl fst.
  assert (Pc : Permutation (map fst pairs') (choices q)).
  { rewrite <- (combine_seq_fst (choices q) 0). now apply Permutation_map. }
  unfold keeps_answer. simpl.
  do 5 (split; [reflexivity|]). split; [exact Pc|]. split.
  - intros Hr.
    assert (Hn : exists c, nth_error (choices q) (Z.to_nat (correctIndex q)) = Some c).
    { destruct (nth_error (choices q) (Z.to_nat (correctIndex q))) eqn:E; eauto.
      apply nth_error_None in E. lia. }
    destruct Hn as [c Hc].
    assert (Hin : In (c, Z.to_nat (correctIndex q)) pairs')
      by (apply (Permutation_in _ (Permutation_sym P));
          apply (combine_seq_nth _ 0 _ _ Hc)).
    destruct (findIndex_found
                (fun p : string * nat => Z.of_nat (snd p) =? correctIndex q) pairs')
      as (Hi & y & Hy & Hfy).
    { exists (c, Z.to_nat (correctIndex q)). split; auto. simpl. apply Z.eqb_eq. lia. }
    rewrite length_map. split; [exact Hi|].
    rewrite nth_error_map, Hy. simpl. rewrite Hc. f_equal.
    apply Z.eqb_eq in Hfy.
    assert (Hy' : In y pairs) by (apply (Permutation_in _ P); eapply nth_error_In; eauto).
    destruct y as [c' i']. simpl in *.
    destruct (combine_seq_In _ _ _ _ Hy') as [_ Hn].
    rewrite Nat.sub_0_r in Hn.
    replace (Z.to_nat (correctIndex q)) with i' in Hc by lia. congruence.
  - intros Hr. right. apply findIndex_none.
    intros [c' i'] Hin. simpl. apply Z.eqb_neq. intros E. apply Hr.
    assert (Hy' : In (c', i') pairs) by (apply (Permutation_in _ P); exact Hin).
    destruct (combine_seq_In _ _ _ _ Hy') as [_ Hn].
    assert (i' - 0 < length (choices q))%nat by (apply nth_error_Some; congruence).
    lia.
Qed.

(** X5. Shuffling the choices of a question keeps the question: the same
    id, text, time and media, the same choices in some order, and a correct
    index that points at the same choice as before. A correct index that
    pointed at no choice becomes -1. *)
Theorem shuffleChoicesForQuestion_keeps_answer (rnd : nat -> Z) (q : Question) (k : nat) :
  let q' := fst (shuffleChoicesForQuestion rnd q k) in
  keeps_answer q q' /\
  (~ 0 <= correctIndex q < Z.of_nat (length (choices q)) -> correctIndex q' = -1).
Proof.
  cbv zeta. split; [apply shuffleChoicesForQuestion_keeps|].
  intros Hr. unfold shuffleChoicesForQuestion.
  set (pairs := combine (choices q) (seq 0 (length (choices q)))).
  pose proof (shuffle_from_perm rnd (length pairs - 1) pairs k) as P.
  fold (shuffleArray rnd pairs k) in P.
  destruct (shuffleArray rnd pairs k) as [pairs' k']. simpl in P. simpl.
  apply findIndex_none.
  intros [c' i'] Hin. simpl. apply Z.eqb_neq. intros E. apply Hr.
  assert (Hy' : In (c', i') pairs) by (apply (Permutation_in _ P); exact Hin).
  destruct (combine_seq_In _ _ _ _ Hy') as [_ Hn].
  assert (i' - 0 < length (choices q))%nat by (apply nth_error_Some; congruence).
  lia.
Qed.

Lemma shuffleChoicesForQuestion_keeps_answer_witness :
  let q := mkQuestion "Q9" "?" ["a"; "b"] 7 None "" "" in
  ~ 0 <= correctIndex q < Z.of_nat (length (choices q)) /\
  correctIndex (fst (shuffleChoicesForQuestion (fun _ => 1) q 0)) = -1.
Proof.
  cbv zeta.
  assert (H : ~ 0 <= correctIndex (mkQuestion "Q9" "?" ["a"; "b"] 7 None "" "")
                < Z.of_nat (length (choices (mkQuestion "Q9" "?" ["a"; "b"] 7 None "" ""))))
    by (simpl; lia).
  split; [exact H|].
  exact (proj2 (shuffleChoicesForQuestion_keeps_answer (fun _ => 1) _ 0) H).
Defined.

Example shuffle_choices_of_demo_question :
  let q := fst (shuffleChoicesForQuestion (fun k => Z.of_nat k + 1)
                  (mkQuestion "Q1" "2 + 2 = ?" ["3"; "4"; "5"; "6"] 1 (Some 20) "" "") 0) in
  choices q = ["3"; "6"; "5"; "4"] /\ correctIndex q = 3.
Proof. split; reflexivity. Qed.

Lemma keeps_answer_refl (q : Question) : keeps_answer q q.
Proof. unfold keeps_answer. repeat split; auto; lia. Qed.

Lemma Forall2_keeps_refl (qs : list Question) : Forall2 keeps_answer qs qs.
Proof. induction qs; constructor; auto using keeps_answer_refl. Qed.

Lemma shuffleChoicesAll_keeps (rnd : nat -> Z) (qs : list Question) : forall k,
  Forall2 keeps_answer qs (fst (shuffleChoicesAll rnd qs k)).
Proof.
  induction qs as [|q qs IH]; intros k; simpl; [constructor|].
  pose proof (shuffleChoicesForQuestion_keeps rnd q k) as Hq.
  destruct (shuffleChoicesForQuestion rnd q k) as [q' k1]. simpl in Hq.
  specialize (IH k1).
  destruct (shuffleChoicesAll rnd qs k1) as [r' k2]. simpl in *.
  now constructor.
Qed.

(** X6. The question run built at start has as many questions as the bank.
    It is the bank with the choices of each question reordered (only when
    choice shuffling is on) and the questions then reordered (only when
    question shuffling is on): every question of the bank appears once, with
    its correct answer kept. With both toggles off the run is the bank. *)
Theorem buildGameQuestions_run
    (rnd : nat -> Z) (bank : list Question) (shuffleQ shuffleC : bool) :
  let qrun := buildGameQuestions rnd bank shuffleQ shuffleC in
  length qrun = length bank /\
  (exists mid, Forall2 keeps_answer bank mid /\ Permutation qrun mid) /\
  (shuffleQ = false -> Forall2 keeps_answer bank qrun) /\
  (shuffleC = false -> Permutation qrun bank) /\
  (shuffleQ = false -> shuffleC = false -> qrun = bank).
Proof.
  cbv zeta. unfold buildGameQuestions.
  assert (M : forall mid k, Forall2 keeps_answer bank mid ->
              let qrun := if shuffleQ then fst (shuffleArray rnd mid k) else mid in
              length qrun = length bank /\
              (exists mid0, Forall2 keeps_answer bank mid0 /\ Permutation qrun mid0) /\
              (shuffleQ = false -> Forall2 keeps_answer bank qrun) /\
              Permutation qrun mid /\ (shuffleQ = false -> qrun = mid)).
  { intros mid k F. cbv zeta.
    assert (P : Permutation (if shuffleQ then fst (shuffleArray rnd mid k) else mid) mid)
      by (destruct shuffleQ; [apply shuffle_from_perm | reflexivity]).
    split; [rewrite (Permutation_length P); symmetry; eapply Forall2_length; eauto|].
    split; [exists mid; auto|].
    split; [intros ->; exact F|]. split; [exact P|]. now intros ->. }
  destruct shuffleC.
  - pose proof (shuffleChoicesAll_keeps rnd bank 0) as F.
    destruct (shuffleChoicesAll rnd bank 0) as [mid k]. simpl in F.
    destruct (M mid k F) as (M1 & M2 & M3 & _ & _).
    repeat split; auto; discriminate.
  - destruct (M bank 0%nat (Forall2_keeps_refl bank)) as (M1 & M2 & M3 & M4 & M5).
    repeat split; auto.
Qed.

Lemma buildGameQuestions_run_witness :
  buildGameQuestions (fun k => Z.of_nat k) demo_bank false false = demo_bank /\
  Permutation (buildGameQuestions (fun k => Z.of_nat k) demo_bank true false) demo_bank.
Proof.
  pose proof (buildGameQuestions_run (fun k => Z.of_nat k) demo_bank false false)
    as (_ & _ & _ & _ & H).
  pose proof (buildGameQuestions_run (fun k => Z.of_nat k) demo_bank true false)
    as (_ & _ & _ & P & _).
  split; [exact (H eq_refl eq_refl) | exact (P eq_refl)].
Defined.

(** ** Game progress *)

Lemma same_game_refl (s : State) : same_game s s.
Proof. unfold same_game. repeat split. Qed.

Lemma same_game_trans (a b c : State) : same_game a b -> same_game b c -> same_game a c.
Proof. unfold same_game. intuition congruence. Qed.

Ltac solve_same_game := solve [unfold same_game; simpl; repeat split; reflexivity].

Lemma on_disconnect_same_game (env : Env) (w : World) (s : Socket) :
  same_game (state w) (state (fst (on_disconnect env w s))).
Proof.
  unfold on_disconnect. repeat (case_step; simpl); solve_same_game.
Qed.

Lemma kickTeamSocket_same_game (env : Env) (w : World) (t : Team) :
  same_game (state w) (state (fst (kickTeamSocket env w t))).
Proof.
  unfold kickTeamSocket.
  destruct (JsMap.get (sockets w) (id t)) as [s|]; simpl; [|solve_same_game].
  pose proof (on_disconnect_same_game env
                (with_sockets (JsMap.delete (sockets w) (id t)) w) s) as F.
  destruct (on_disconnect env _ s) as [w1 o1].
  unfold same_game in *. simpl in *. exact F.
Qed.

Lemma on_hostApproveTakeover_same_game (registry : list TeamInfo)
    (env : Env) (w : World) (s : Socket) (p : string) :
  same_game (state w) (state (fst (on_hostApproveTakeover registry env w s p))).
Proof.
  unfold on_hostApproveTakeover.
  destruct (negb (isHost s (state w))); simpl; [apply same_game_refl|].
  destruct (JsMap.get (pendingTakeovers w) (trim p)) as [req|]; simpl;
    [|apply same_game_refl].
  assert (K : forall w1 o1,
             (match findTeamByPin (state w) (trim p) with
              | Some t => kickTeamSocket env w t
              | None => (with_state (set_claimedPins
                           (JsSet.delete (claimedPins (state w)) (trim p)) (state w)) w, [])
              end) = (w1, o1) -> same_game (state w) (state w1)).
  { intros w1 o1 E. destruct (findTeamByPin (state w) (trim p)) as [t|].
    - pose proof (kickTeamSocket_same_game env w t) as F. now rewrite E in F.
    - inversion E; subst. solve_same_game. }
  destruct (match findTeamByPin (state w) (trim p) with
            | Some t => kickTeamSocket env w t
            | None => _ end) as [w1 o1].
  specialize (K w1 o1 eq_refl).
  destruct (JsMap.get (sockets w) (requesterId req)) as [rs|]; simpl;
    [|unfold same_game in *; simpl in *; exact K].
  destruct (lookupTeamInfo registry (trim p)) as [info|]; simpl;
    unfold same_game in *; simpl in *; exact K.
Qed.

Lemma handle_identity_same_game (registry : list TeamInfo) (bank : list Question)
    (env : Env) (w : World) (s : Socket) (e : ClientEvent) :
  is_identity_event e = true ->
  same_game (state w) (state (fst (handle registry bank env w s e))).
Proof.
  intros He. destruct e; simpl in He; try discriminate; simpl.
  - solve_same_game.
  - solve_same_game.
  - unfold on_joinTeam. repeat (case_step; simpl); solve_same_game.
  - unfold on_hostKickTeam.
    repeat (case_step; simpl); try solve_same_game;
      match goal with
      | E : kickTeamSocket ?env ?w0 ?t = (?w1, _) |- _ =>
          pose proof (kickTeamSocket_same_game env w0 t) as F; rewrite E in F;
          unfold same_game in *; simpl in *; exact F
      end.
  - apply on_hostApproveTakeover_same_game.
  - unfold on_hostDenyTakeover. repeat (case_step; simpl); solve_same_game.
  - unfold on_lockAnswer. repeat (case_step; simpl); solve_same_game.
  - unfold on_hostAdjustScore. repeat (case_step; simpl); solve_same_game.
Qed.

(** X7. The events that deal with identity and scores (registerHost,
    registerProjector, joinTeam, hostKickTeam, hostApproveTakeover,
    hostDenyTakeover, lockAnswer, hostAdjustScore), a new connection and a
    lost connection never touch the progress of the game: phase, question
    index, pause flag, run clock, time budget, toggles, question run and
    logging guards stay as they are. *)
Theorem identity_events_keep_game (registry : list TeamInfo) (bank : list Question)
    (env : Env) (w : World) :
  (forall s e, is_identity_event e = true ->
     same_game (state w) (state (fst (handle registry bank env w s e)))) /\
  (forall s, same_game (state w)
               (state (fst (step registry bank env w (connection s))))) /\
  (forall sid, same_game (state w)
                 (state (fst (step registry bank env w (disconnect sid))))).
Proof.
  split; [intros s e; apply handle_identity_same_game|]. split.
  - intros s. simpl. case_step; solve_same_game.
  - intros sid. simpl. destruct (JsMap.get (sockets w) sid) as [s|];
      [|apply same_game_refl].
    apply (on_disconnect_same_game env (with_sockets (JsMap.delete (sockets w) sid) w) s).
Qed.

Lemma identity_events_keep_game_witness :
  let w := fst (demo_run demo_question) in
  is_identity_event (hostKickTeam (Some "devY") None) = true /\
  phase (state (fst (handle demo_registry demo_bank (at_ms 5000) w sockH
                       (hostKickTeam (Some "devY") None)))) = question.
Proof.
  cbv zeta. split; [reflexivity|].
  destruct (proj1 (identity_events_keep_game demo_registry demo_bank (at_ms 5000)
                     (fst (demo_run demo_question)))
              sockH (hostKickTeam (Some "devY") None) eq_refl) as (H & _).
  rewrite H. reflexivity.
Defined.

Lemma buildGameQuestions_length (rnd : nat -> Z) (bank : list Question) (sq sc : bool) :
  length (buildGameQuestions rnd bank sq sc) = length bank.
Proof.
  unfold buildGameQuestions.
  assert (L : forall (mid : list Question) k, length mid = length bank ->
              length (if sq then fst (shuffleArray rnd mid k) else mid) = length bank).
  { intros mid k H. destruct sq; auto.
    unfold shuffleArray.
    rewrite (Permutation_length (shuffle_from_perm rnd (length mid - 1) mid k)). exact H. }
  destruct sc.
  - pose proof (shuffleChoicesAll_keeps rnd bank 0) as F.
    destruct (shuffleChoicesAll rnd bank 0) as [mid k]. simpl in F.
    apply L. symmetry. eapply Forall2_length; eauto.
  - now apply L.
Qed.

Lemma resume_progress (env : Env) (s : State) :
  let s' := fst (resume env s) in
  phase s' = phase s /\ qIndex s' = qIndex s /\ gameQuestions s' = gameQuestions s.
Proof.
  cbv zeta. unfold resume, logQuestionIfNeeded.
  repeat (case_step; simpl); repeat split; reflexivity.
Qed.

Lemma pause_progress (env : Env) (s : State) :
  let s' := pause env s in
  phase s' = phase s /\ qIndex s' = qIndex s /\ gameQuestions s' = gameQuestions s.
Proof.
  cbv zeta. unfold pause. repeat (case_step; simpl); repeat split; reflexivity.
Qed.

Lemma revealAnswer_progress (env : Env) (s : State) :
  let s' := fst (revealAnswer env s) in
  qIndex s' = qIndex s /\ gameQuestions s' = gameQuestions s /\
  (phase s' = phase s \/ (phase s = question /\ phase s' = revealed)).
Proof.
  cbv zeta. unfold revealAnswer, logQuestionIfNeeded.
  destruct (Phase_eqb (phase s) question) eqn:Hq; simpl; [|auto].
  apply Phase_eqb_eq in Hq.
  repeat (case_step; simpl); repeat split; auto.
Qed.

Lemma question_in_run_keep (s s' : State) :
  qIndex s' = qIndex s -> gameQuestions s' = gameQuestions s ->
  (phase s' = phase s \/ (phase s = question /\ phase s' = revealed)
   \/ (phase s = revealed /\ phase s' = leaderboard)) ->
  question_in_run s -> question_in_run s'.
Proof.
  intros Hi Hg Hp (I1 & I2 & I3). unfold question_in_run.
  rewrite Hi, Hg.
  destruct Hp as [Hp|[[Hp Hp']|[Hp Hp']]].
  - rewrite Hp. auto.
  - rewrite Hp'. repeat split; intros; try discriminate.
    apply I2. rewrite Hp. discriminate.
  - rewrite Hp'. repeat split; intros; try discriminate.
    apply I2. rewrite Hp. discriminate.
Qed.

Lemma startQuestion_in_run (i : Z) (s : State) (qs : list Question) :
  gameQuestions s = Some qs -> 0 <= i < Z.of_nat (length qs) ->
  question_in_run (startQuestion i s).
Proof.
  intros Hg Hi. unfold question_in_run, startQuestion. simpl.
  repeat split; intros; try discriminate. exists qs. auto.
Qed.

Lemma nextQuestion_in_run (s : State) :
  phase s = leaderboard -> question_in_run s -> question_in_run (nextQuestion s).
Proof.
  intros Hp (_ & I2 & _).
  destruct I2 as (qs & Hg & Hi); [rewrite Hp; discriminate|].
  unfold nextQuestion. rewrite Hg.
  destruct (Z.of_nat (length qs) - 1 <=? qIndex s) eqn:E.
  - apply Z.leb_le in E. unfold question_in_run. simpl.
    repeat split; intros; try discriminate; exists qs; split; auto; lia.
  - apply Z.leb_gt in E. apply (startQuestion_in_run _ _ qs); auto. lia.
Qed.

Section GameProgress.
Variable TEAM_REGISTRY : list TeamInfo.
Variable QUESTION_BANK : list Question.

Lemma handle_in_run (env : Env) (w : World) (s : Socket) (e : ClientEvent) :
  question_in_run (state w) ->
  question_in_run (state (fst (handle TEAM_REGISTRY QUESTION_BANK env w s e))).
Proof.
  intros I.
  destruct (is_identity_event e) eqn:He.
  - destruct (handle_identity_same_game TEAM_REGISTRY QUESTION_BANK env w s e He)
      as (H1 & H2 & _ & _ & _ & _ & _ & _ & _ & H3 & _).
    apply (question_in_run_keep (state w)); auto.
  - destruct e; simpl in He; try discriminate; simpl.
    + unfold on_hostReset. case_step; simpl; auto.
      unfold question_in_run. simpl. repeat split; intros; congruence.
    + unfold on_hostSetShuffle.
      repeat (case_step; simpl); auto;
        apply (question_in_run_keep (state w)); auto.
    + unfold on_hostSetManualScoring.
      repeat (case_step; simpl); auto;
        apply (question_in_run_keep (state w)); auto.
    + unfold on_hostStart. case_step; simpl; auto.
      destruct QUESTION_BANK as [|q0 bank] eqn:EB; simpl; auto.
      eapply startQuestion_in_run; [reflexivity|].
      rewrite buildGameQuestions_length. simpl length. lia.
    + unfold on_hostPauseToggle. repeat (case_step; simpl); auto.
      * match goal with
        | E : resume ?env ?s0 = (?s1, _) |- _ =>
            pose proof (resume_progress env s0) as F; cbv zeta in F;
            rewrite E in F; simpl in F; destruct F as (F1 & F2 & F3)
        end.
        apply (question_in_run_keep (state w)); auto.
      * destruct (pause_progress env (state w)) as (F1 & F2 & F3).
        apply (question_in_run_keep (state w)); auto.
    + unfold on_hostReveal. repeat (case_step; simpl); auto.
      match goal with
      | E : revealAnswer ?env ?s0 = (?s1, _) |- _ =>
          pose proof (revealAnswer_progress env s0) as F; cbv zeta in F;
          rewrite E in F; simpl in F; destruct F as (F1 & F2 & F3)
      end.
      apply (question_in_run_keep (state w)); auto. tauto.
    + unfold on_hostNext. repeat (case_step; simpl); auto.
      * phase_facts. unfold showLeaderboard.
        match goal with H : phase _ = revealed |- _ => rewrite H end. simpl.
        apply (question_in_run_keep (state w)); auto.
      * phase_facts. now apply nextQuestion_in_run.
Qed.

Lemma step_in_run (env : Env) (w : World) (ev : Event) :
  question_in_run (state w) ->
  question_in_run (state (fst (step TEAM_REGISTRY QUESTION_BANK env w ev))).
Proof.
  intros I. destruct ev as [s|sid e|sid|]; simpl.
  - case_step; simpl; exact I.
  - destruct (JsMap.get (sockets w) sid); simpl; [now apply handle_in_run | exact I].
  - destruct (JsMap.get (sockets w) sid) as [s|]; simpl; [|exact I].
    destruct (on_disconnect_same_game env
                (with_sockets (JsMap.delete (sockets w) sid) w) s)
      as (H1 & H2 & _ & _ & _ & _ & _ & _ & _ & H3 & _).
    apply (question_in_run_keep (state w)); auto.
  - unfold on_tick. repeat (case_step; simpl); auto.
    match goal with
    | E : revealAnswer ?env ?s0 = (?s1, _) |- _ =>
        pose proof (revealAnswer_progress env s0) as F; cbv zeta in F;
        rewrite E in F; simpl in F; destruct F as (F1 & F2 & F3)
    end.
    apply (question_in_run_keep (state w)); auto. tauto.
Qed.

(** X8. In every reachable state the question index fits the question run:
    in the lobby there is no run and the index is -1; in every other phase
    the run is built and the index points at one of its questions, so there
    is a current question; in phase finished the index is the last one. *)
Theorem current_question_invariant (w : World) :
  reachable TEAM_REGISTRY QUESTION_BANK w ->
  question_in_run (state w) /\
  (phase (state w) <> lobby -> exists q, getCurrentQuestionObj (state w) = Some q).
Proof.
  intros R.
  assert (I : question_in_run (state w)).
  { induction R; [|now apply step_in_run].
    unfold question_in_run. simpl. repeat split; intros; congruence. }
  split; [exact I|]. intros Hp.
  destruct I as (_ & I2 & _). destruct (I2 Hp) as (qs & Hg & Hi).
  unfold getCurrentQuestionObj. rewrite Hg.
  assert (E : (0 <=? qIndex (state w)) = true) by (apply Z.leb_le; lia).
  rewrite E.
  destruct (nth_error qs (Z.to_nat (qIndex (state w)))) as [q|] eqn:N; eauto.
  apply nth_error_None in N. lia.
Qed.

End GameProgress.

Lemma current_question_invariant_witness :
  let w := fst (demo_run demo_revealed) in
  reachable demo_registry demo_bank w /\
  option_map qId (getCurrentQuestionObj (state w)) = Some "Q1".
Proof.
  cbv zeta.
  assert (R : reachable demo_registry demo_bank (fst (demo_run demo_revealed)))
    by (apply run_reachable, reachable_initial).
  split; [exact R|].
  destruct (proj2 (current_question_invariant demo_registry demo_bank _ R)) as [q Hq].
  - discriminate.
  - rewrite Hq. vm_compute in Hq. inversion Hq. reflexivity.
Defined.

Lemma phase_step_ok_same (a b : Phase) : b = a -> phase_step_ok a b = true.
Proof. intros ->. destruct a; reflexivity. Qed.

Lemma phase_step_ok_reveal (a b : Phase) :
  b = a \/ (a = question /\ b = revealed) -> phase_step_ok a b = true.
Proof. intros [->|[-> ->]]; [destruct a|]; reflexivity. Qed.

Lemma handle_phase_step (registry : list TeamInfo) (bank : list Question)
    (env : Env) (w : World) (s : Socket) (e : ClientEvent) :
  phase_step_ok (phase (state w))
    (phase (state (fst (handle registry bank env w s e)))) = true.
Proof.
  destruct (is_identity_event e) eqn:He.
  - apply phase_step_ok_same.
    apply (handle_identity_same_game registry bank env w s e He).
  - destruct e; simpl in He; try discriminate; simpl.
    + unfold on_hostReset. case_step; simpl;
        [now apply phase_step_ok_same | destruct (phase (state w)); reflexivity].
    + unfold on_hostSetShuffle.
      repeat (case_step; simpl); now apply phase_step_ok_same.
    + unfold on_hostSetManualScoring.
      repeat (case_step; simpl); now apply phase_step_ok_same.
    + unfold on_hostStart.
      repeat (case_step; simpl); try now apply phase_step_ok_same.
      destruct (phase (state w)); reflexivity.
    + unfold on_hostPauseToggle.
      repeat (case_step; simpl); try now apply phase_step_ok_same.
      * match goal with
        | E : resume ?env ?s0 = (?s1, _) |- _ =>
            pose proof (resume_progress env s0) as F; cbv zeta in F;
            rewrite E in F; simpl in F; destruct F as (F1 & _)
        end.
        now apply phase_step_ok_same.
      * apply phase_step_ok_same. apply pause_progress.
    + unfold on_hostReveal.
      repeat (case_step; simpl); try now apply phase_step_ok_same.
      match goal with
      | E : revealAnswer ?env ?s0 = (?s1, _) |- _ =>
          pose proof (revealAnswer_progress env s0) as F; cbv zeta in F;
          rewrite E in F; simpl in F; destruct F as (_ & _ & F3)
      end.
      now apply phase_step_ok_reveal.
    + unfold on_hostNext.
      repeat (case_step; simpl); try now apply phase_step_ok_same.
      * phase_facts. unfold showLeaderboard.
        match goal with H : phase _ = revealed |- _ => rewrite H end. reflexivity.
      * phase_facts.
        match goal with H : phase _ = leaderboard |- _ => rewrite H end.
        unfold nextQuestion. case_step; reflexivity.
Qed.

(** X9. One event changes the phase only along the edges of the game: to
    lobby (reset), to question (start, or next after the leaderboard), from
    question to revealed, from revealed to leaderboard, from leaderboard to
    finished. So revealed is entered only from question, leaderboard only
    from revealed, finished only from leaderboard, and from finished the
    phase only moves on a reset or a new start. *)
Theorem phase_transitions (registry : list TeamInfo) (bank : list Question)
    (env : Env) (w : World) (ev : Event) :
  let a := phase (state w) in
  let b := phase (state (fst (step registry bank env w ev))) in
  phase_step_ok a b = true /\
  (b = revealed -> a = revealed \/ a = question) /\
  (b = leaderboard -> a = leaderboard \/ a = revealed) /\
  (b = finished -> a = finished \/ a = leaderboard) /\
  (a = finished -> b = finished \/ b = lobby \/ b = question).
Proof.
  cbv zeta.
  assert (H : phase_step_ok (phase (state w))
                (phase (state (fst (step registry bank env w ev)))) = true).
  { destruct ev as [s|sid e|sid|]; simpl.
    - case_step; now apply phase_step_ok_same.
    - destruct (JsMap.get (sockets w) sid);
        [apply handle_phase_step | now apply phase_step_ok_same].
    - destruct (JsMap.get (sockets w) sid) as [s|]; [|now apply phase_step_ok_same].
      apply phase_step_ok_same.
      apply (on_disconnect_same_game env
               (with_sockets (JsMap.delete (sockets w) sid) w) s).
    - unfold on_tick. repeat (case_step; simpl); try now apply phase_step_ok_same.
      match goal with
      | E : revealAnswer ?env ?s0 = (?s1, _) |- _ =>
          pose proof (revealAnswer_progress env s0) as F; cbv zeta in F;
          rewrite E in F; simpl in F; destruct F as (_ & _ & F3)
      end.
      now apply phase_step_ok_reveal. }
  split; [exact H|].
  destruct (phase (state w)), (phase (state (fst (step registry bank env w ev))));
    simpl in H; try discriminate;
    repeat split; intros; try discriminate; auto.
Qed.

Lemma phase_transitions_witness :
  let w := fst (demo_run demo_question) in
  let w' := fst (step demo_registry demo_bank (at_ms 9000) w (message "host" hostReveal)) in
  phase (state w') = revealed /\ phase (state w) = question.
Proof.
  cbv zeta.
  assert (Hb : phase (state (fst (step demo_registry demo_bank (at_ms 9000)
                                    (fst (demo_run demo_question))
                                    (message "host" hostReveal)))) = revealed)
    by reflexivity.
  split; [exact Hb|].
  destruct (proj1 (proj2 (phase_transitions demo_registry demo_bank (at_ms 9000)
                            (fst (demo_run demo_question)) (message "host" hostReveal)))
              Hb) as [H|H]; [|exact H].
  vm_compute in H. discriminate H.
Defined.

(** ** Reveal and the logs *)





Lemma resume_log_once (env : Env) (s : State) :
  phase s = question -> paused s = true ->
  let r := resume env s in
  questionLogged (fst r) = true \/ getCurrentQuestionObj s = None /\ snd r = [] /\
                                   questionLogged (fst r) = questionLogged s.
Proof.
  intros Hq Hp. cbv zeta. unfold resume, logQuestionIfNeeded. rewrite Hq, Hp. simpl.
  destruct (questionLogged s) eqn:Hl; simpl; auto.
  destruct (getCurrentQuestionObj s); simpl; auto.
Qed.

(** X11. revealAnswer never writes the question log: it sets the phase to
    revealed before it calls logQuestionIfNeeded, whose first guard then
    returns. The logging guard and the question run id stay as they were,
    so a question that is revealed without ever having been resumed gets no
    QuestionLog row. *)
Theorem revealAnswer_never_logs_question (env : Env) (s : State) :
  let r := revealAnswer env s in
  count_out is_question_log (snd r) = 0%nat /\
  questionLogged (fst r) = questionLogged s /\
  questionRunId (fst r) = questionRunId s.
Proof.
  cbv zeta. unfold revealAnswer.
  destruct (Phase_eqb (phase s) question); simpl negb; cbv iota; [|auto].
  set (s1 := if negb (paused s) && negb (startedAtMs s =? 0)
             then set_startedAtMs 0
                    (set_accumulatedRunMs (accumulatedRunMs s + (now env - startedAtMs s)) s)
             else s).
  cbv zeta.
  assert (F : questionLogged s1 = questionLogged s /\ questionRunId s1 = questionRunId s).
  { unfold s1. case_if; simpl; auto. }
  destruct F as (F1 & F2).
  set (s2 := set_phase revealed (set_paused true s1)).
  rewrite (logQuestionIfNeeded_not_question env s2) by discriminate.
  destruct (getCurrentQuestionObj s2) as [q|] eqn:C; [|simpl; auto].
  destruct (manualScoring s2); simpl snd; simpl fst;
    rewrite !(logAnswersNow_current env _ q) by exact C;
    unfold syncTotalsToTeamsSheet; simpl; auto.
Qed.

Lemma count_out_app (f : Out -> bool) (a b : list Out) :
  count_out f (a ++ b) = (count_out f a + count_out f b)%nat.
Proof. unfold count_out. now rewrite filter_app, length_app. Qed.

Lemma count_out_cons (f : Out -> bool) (x : Out) (l : list Out) :
  count_out f (x :: l) = ((if f x then 1 else 0) + count_out f l)%nat.
Proof. unfold count_out. simpl. destruct (f x); reflexivity. Qed.

Lemma broadcast_no_store_call (env : Env) (w : World) (f : Out -> bool) :
  (forall m, f (io_emit m) = false) -> (forall sid m, f (emit_to sid m) = false) ->
  count_out f (broadcast env w) = 0%nat.
Proof.
  intros H1 H2. unfold broadcast, count_out. simpl. rewrite H1.
  destruct (hostId (state w)); simpl; [now rewrite H2 | reflexivity].
Qed.

Section QuestionLog.
Variable TEAM_REGISTRY : list TeamInfo.
Variable QUESTION_BANK : list Question.

Lemma toggle_step (env : Env) (w : World) (host : Socket) :
  JsMap.get (sockets w) (sock_id host) = Some host ->
  isHost host (state w) = true -> phase (state w) = question ->
  let r := step TEAM_REGISTRY QUESTION_BANK env w (message (sock_id host) hostPauseToggle) in
  JsMap.get (sockets (fst r)) (sock_id host) = Some host /\
  isHost host (state (fst r)) = true /\ phase (state (fst r)) = question /\
  (questionLogged (state w) = true ->
   questionLogged (state (fst r)) = true /\ count_out is_question_log (snd r) = 0%nat) /\
  (questionLogged (state w) = false -> paused (state w) = true ->
   getCurrentQuestionObj (state w) <> None ->
   questionLogged (state (fst r)) = true /\ count_out is_question_log (snd r) = 1%nat).
Proof.
  intros Hc Hh Hq. cbv zeta. simpl. rewrite Hc. simpl.
  unfold on_hostPauseToggle. rewrite Hh, Hq. simpl negb. cbv iota.
  assert (B : forall w0, count_out is_question_log (broadcast env w0) = 0%nat)
    by (intros; apply broadcast_no_store_call; reflexivity).
  destruct (paused (state w)) eqn:Hp.
  - unfold resume, logQuestionIfNeeded. rewrite Hq, Hp. simpl negb. simpl orb. cbv iota.
    destruct (questionLogged (state w)) eqn:Hl.
    + simpl. unfold isHost in *. simpl. rewrite B.
      repeat split; auto; intros; discriminate.
    + destruct (getCurrentQuestionObj (state w)) as [q|] eqn:Hcur.
      * simpl. unfold isHost in *. simpl. rewrite count_out_cons, B.
        repeat split; auto; intros; discriminate.
      * simpl. unfold isHost in *. simpl. rewrite B.
        repeat split; auto; intros; try discriminate; contradiction.
  - unfold pause. rewrite Hq, Hp. simpl. unfold isHost in *. simpl. rewrite B.
    repeat split; auto; intros; discriminate.
Qed.

Lemma run_app_count (f : Out -> bool) (w : World) (e : Env * Event)
    (rest : list (Env * Event)) :
  count_out f (snd (run TEAM_REGISTRY QUESTION_BANK w (e :: rest))) =
  (count_out f (snd (step TEAM_REGISTRY QUESTION_BANK (fst e) w (snd e)))
   + count_out f (snd (run TEAM_REGISTRY QUESTION_BANK
                         (fst (step TEAM_REGISTRY QUESTION_BANK (fst e) w (snd e))) rest)))%nat.
Proof.
  destruct e as [env ev]. simpl.
  destruct (step TEAM_REGISTRY QUESTION_BANK env w ev) as [w1 o1]. simpl.
  destruct (run TEAM_REGISTRY QUESTION_BANK w1 rest) as [w2 o2].
  simpl. apply count_out_app.
Qed.

Lemma toggles_after_log (host : Socket) (envs : list Env) : forall w,
  JsMap.get (sockets w) (sock_id host) = Some host ->
  isHost host (state w) = true -> phase (state w) = question ->
  questionLogged (state w) = true ->
  count_out is_question_log
    (snd (run TEAM_REGISTRY QUESTION_BANK w (toggles (sock_id host) envs))) = 0%nat.
Proof.
  induction envs as [|env envs IH]; intros w Hc Hh Hq Hl; [reflexivity|].
  unfold toggles. simpl map. rewrite run_app_count. cbn [fst snd].
  destruct (toggle_step env w host Hc Hh Hq) as (T1 & T2 & T3 & T4 & _).
  destruct (T4 Hl) as (T5 & T6). rewrite T6.
  now apply IH.
Qed.

(** X12. On a question that has not been logged yet and is paused, however
    often the host toggles pause and resume, the question log gets exactly
    one row: the first resume writes it and sets the guard, every later
    resume finds the guard set. *)
Theorem question_logged_once (w : World) (host : Socket) (envs : list Env) :
  JsMap.get (sockets w) (sock_id host) = Some host ->
  isHost host (state w) = true ->
  phase (state w) = question -> paused (state w) = true ->
  questionLogged (state w) = false -> getCurrentQuestionObj (state w) <> None ->
  envs <> [] ->
  count_out is_question_log
    (snd (run TEAM_REGISTRY QUESTION_BANK w (toggles (sock_id host) envs))) = 1%nat.
Proof.
  intros Hc Hh Hq Hp Hl Hcur Hne.
  destruct envs as [|env envs]; [contradiction|].
  unfold toggles. simpl map. rewrite run_app_count. cbn [fst snd].
  destruct (toggle_step env w host Hc Hh Hq) as (T1 & T2 & T3 & _ & T5).
  destruct (T5 Hl Hp Hcur) as (T6 & T7). rewrite T7.
  fold (toggles (sock_id host) envs).
  now rewrite (toggles_after_log host envs _ T1 T2 T3 T6).
Qed.

End QuestionLog.

Lemma question_logged_once_witness :
  let w := fst (demo_run demo_started) in
  (JsMap.get (sockets w) (sock_id sockH) = Some sockH /\
   isHost sockH (state w) = true /\ phase (state w) = question /\
   paused (state w) = true /\ questionLogged (state w) = false) /\
  count_out is_question_log
    (snd (run demo_registry demo_bank w
            (toggles "host" [at_ms 1000; at_ms 2000; at_ms 3000; at_ms 4000]))) = 1%nat.
Proof.
  cbv zeta.
  assert (H : JsMap.get (sockets (fst (demo_run demo_started))) (sock_id sockH) = Some sockH /\
              isHost sockH (state (fst (demo_run demo_started))) = true /\
              phase (state (fst (demo_run demo_started))) = question /\
              paused (state (fst (demo_run demo_started))) = true /\
              questionLogged (state (fst (demo_run demo_started))) = false)
    by (repeat split; vm_compute; reflexivity).
  split; [exact H|].
  destruct H as (H1 & H2 & H3 & H4 & H5).
  apply (question_logged_once demo_registry demo_bank _ sockH _ H1 H2 H3 H4 H5).
  - vm_compute. discriminate.
  - discriminate.
Defined.

(** ** Giving up a code *)

Lemma has_delete_same (c : JsSet.t) (p : string) : JsSet.has (JsSet.delete c p) p = false.
Proof.
  unfold JsSet.has, JsSet.delete. induction c as [|x c IH]; simpl; auto.
  destruct (String.eqb x p) eqn:E; simpl; auto.
  rewrite String.eqb_sym, E. exact IH.
Qed.

Lemma get_absent {V : Type} (m : JsMap.t V) (k : string) :
  (forall v, ~ In (k, v) m) -> JsMap.get m k = None.
Proof.
  intros H. destruct (JsMap.get m k) as [v|] eqn:E; auto.
  exfalso. apply (H v). now apply get_In.
Qed.

Lemma get_delete_other {V : Type} (m : JsMap.t V) (k k' : string) :
  k <> k' -> JsMap.get (JsMap.delete m k) k' = JsMap.get m k'.
Proof.
  intros Hne. induction m as [|[k0 v0] m IH]; simpl; auto.
  destruct (String.eqb k0 k) eqn:E; simpl.
  - apply String.eqb_eq in E. subst k0.
    destruct (String.eqb k k') eqn:E'; auto.
    apply String.eqb_eq in E'. contradiction.
  - now rewrite IH.
Qed.

Lemma clearPending_gone (pend : JsMap.t Takeover) (p : string) :
  JsMap.get (clearPendingTakeoverForPin pend p None) (trim p) = None.
Proof.
  unfold clearPendingTakeoverForPin.
  destruct (JsMap.get pend (trim p)) eqn:E; simpl; auto.
  apply JsMapFacts.get_delete_same.
Qed.

Lemma get_filter_none {V : Type} (f : string * V -> bool) (m : JsMap.t V) (k : string) :
  JsMap.get m k = None -> JsMap.get (filter f m) k = None.
Proof.
  induction m as [|[k0 v0] m IH]; simpl; auto.
  destruct (String.eqb k0 k) eqn:E; [discriminate|].
  intros H. destruct (f (k0, v0)); simpl; [rewrite E|]; auto.
Qed.

(** X13. When a socket is lost, everything it held is released at once: it
    holds no team any more, the code of its team is no longer claimed and no
    takeover request for that code is left, it is not the host, not a
    display, and no takeover request of its own is left. The teams of the
    other sockets are untouched. *)
Theorem on_disconnect_releases (env : Env) (w : World) (s : Socket) :
  let sid := sock_id s in
  let w' := fst (on_disconnect env w s) in
  JsMap.get (teams (state w')) sid = None /\
  hostId (state w') <> Some sid /\
  JsSet.has (projectorIds (state w')) sid = false /\
  (forall p req, In (p, req) (pendingTakeovers w') -> requesterId req <> sid) /\
  (forall t, JsMap.get (teams (state w)) sid = Some t ->
     JsSet.has (claimedPins (state w')) (pin t) = false /\
     JsMap.get (pendingTakeovers w') (trim (pin t)) = None) /\
  (forall k, k <> sid ->
     JsMap.get (teams (state w')) k = JsMap.get (teams (state w)) k) /\
  (forall h, hostId (state w) = Some h -> h <> sid -> hostId (state w') = Some h).
Proof.
  cbv zeta. unfold on_disconnect.
  remember (if match hostId (state w) with
               | Some h => String.eqb (sock_id s) h
               | None => false
               end
            then set_hostId None (state w) else state w) as s1 eqn:Es1.
  assert (F : teams s1 = teams (state w) /\ claimedPins s1 = claimedPins (state w) /\
              projectorIds s1 = projectorIds (state w) /\
              hostId s1 <> Some (sock_id s) /\
              (forall h, hostId (state w) = Some h -> h <> sock_id s -> hostId s1 = Some h)).
  { rewrite Es1. destruct (hostId (state w)) as [h|] eqn:Hh;
      [destruct (String.eqb (sock_id s) h) eqn:E|]; simpl;
      do 3 (split; [reflexivity|]); split.
    - discriminate.
    - intros h0 H0 Hne. inversion H0; subst. apply String.eqb_eq in E. congruence.
    - rewrite Hh. intros H0. inversion H0; subst. rewrite String.eqb_refl in E.
      discriminate.
    - intros h0 H0 _. now rewrite Hh.
    - rewrite Hh. discriminate.
    - intros h0 H0. discriminate. }
  destruct F as (F1 & F2 & F3 & F4 & F5).
  assert (P : forall (pend : JsMap.t Takeover) (p : string) (req : Takeover),
             In (p, req) (filter (fun kv => negb (String.eqb (requesterId (snd kv)) (sock_id s)))
                            pend) -> requesterId req <> sock_id s).
  { intros pend p req Hin. apply filter_In in Hin. destruct Hin as [_ Hn].
    simpl in Hn. apply negb_true_iff in Hn. now apply String.eqb_neq. }
  cbv zeta. simpl. rewrite F1.
  destruct (JsMap.get (teams (state w)) (sock_id s)) as [t|] eqn:Ht; simpl;
    rewrite ?F1.
  - split; [apply JsMapFacts.get_delete_same|]. split; [exact F4|].
    split; [rewrite F3; apply has_delete_same|]. split; [apply P|]. split.
    + intros t0 H0. inversion H0; subst t0. rewrite F2.
      split; [apply has_delete_same|]. apply get_filter_none, clearPending_gone.
    + split; [intros k Hk; apply get_delete_other; congruence | exact F5].
  - split; [exact Ht|]. split; [exact F4|].
    split; [rewrite F3; apply has_delete_same|]. split; [apply P|].
    split; [intros t0 H0; discriminate|].
    split; [intros k _; reflexivity | exact F5].
Qed.

Lemma on_disconnect_releases_witness :
  let w := fst (demo_run demo_requested) in
  let w' := fst (on_disconnect (at_ms 7) w sockY) in
  option_map pin (JsMap.get (teams (state w)) (sock_id sockY)) = Some "1111" /\
  JsSet.has (claimedPins (state w)) "1111" = true /\
  JsSet.has (claimedPins (state w')) "1111" = false /\
  JsMap.get (pendingTakeovers w') "1111" = None.
Proof.
  cbv zeta. split; [reflexivity|]. split; [reflexivity|].
  destruct (JsMap.get (teams (state (fst (demo_run demo_requested)))) (sock_id sockY))
    as [t|] eqn:Ht; [|vm_compute in Ht; discriminate Ht].
  destruct (proj1 (proj2 (proj2 (proj2 (proj2
              (on_disconnect_releases (at_ms 7) (fst (demo_run demo_requested)) sockY)))))
              t Ht) as [H1 H2].
  vm_compute in Ht. inversion Ht; subst t. exact (conj H1 H2).
Defined.

Lemma get_delete_none {V : Type} (m : JsMap.t V) (k k' : string) :
  JsMap.get m k = None -> JsMap.get (JsMap.delete m k') k = None.
Proof. unfold JsMap.delete. apply get_filter_none. Qed.

Lemma clearPending_none (pend : JsMap.t Takeover) (p k : string) :
  JsMap.get pend k = None ->
  JsMap.get (clearPendingTakeoverForPin pend p None) k = None.
Proof.
  intros H. unfold clearPendingTakeoverForPin.
  destruct (JsMap.get pend (trim p)); simpl; auto. now apply get_delete_none.
Qed.

Lemma on_disconnect_world (env : Env) (w : World) (s : Socket) :
  let w' := fst (on_disconnect env w s) in
  sockets w' = sockets w /\
  (forall k, JsMap.get (pendingTakeovers w) k = None ->
             JsMap.get (pendingTakeovers w') k = None).
Proof.
  cbv zeta. unfold on_disconnect.
  destruct (JsMap.get _ (sock_id s)) as [t|]; simpl; (split; [reflexivity|]);
    intros k H; apply get_filter_none; auto. now apply clearPending_none.
Qed.

Lemma kickTeamSocket_world (env : Env) (w : World) (t : Team) :
  let w' := fst (kickTeamSocket env w t) in
  JsMap.get (teams (state w')) (id t) = None /\
  JsSet.has (claimedPins (state w')) (pin t) = false /\
  JsMap.get (sockets w') (id t) = None /\
  (forall k, JsMap.get (pendingTakeovers w) k = None ->
             JsMap.get (pendingTakeovers w') k = None).
Proof.
  cbv zeta. unfold kickTeamSocket.
  destruct (JsMap.get (sockets w) (id t)) as [s|] eqn:Hs.
  - pose proof (on_disconnect_world env
                  (with_sockets (JsMap.delete (sockets w) (id t)) w) s) as D.
    cbv zeta in D.
    destruct (on_disconnect env (with_sockets (JsMap.delete (sockets w) (id t)) w) s)
      as [w1 o1]. simpl in D. destruct D as [D1 D2]. simpl.
    split; [apply JsMapFacts.get_delete_same|]. split; [apply has_delete_same|].
    split; [rewrite D1; apply JsMapFacts.get_delete_same | exact D2].
  - simpl. split; [apply JsMapFacts.get_delete_same|].
    split; [apply has_delete_same|]. auto.
Qed.

(** X14. A kick by the host releases the team for good: the kicked socket
    holds no team, its code is free to be claimed again, a takeover request
    that was waiting for that code is dropped, the socket is closed, and
    the other teams still hold their claimed codes. *)
Theorem on_hostKickTeam_releases (env : Env) (w : World) (host : Socket)
    (tid : SockId) (pin0 : option string) (t : Team) :
  isHost host (state w) = true -> held_codes_wf (state w) ->
  tid <> "" -> JsMap.get (teams (state w)) tid = Some t ->
  let w' := fst (on_hostKickTeam env w host (Some tid) pin0) in
  JsMap.get (teams (state w')) tid = None /\
  JsSet.has (claimedPins (state w')) (pin t) = false /\
  JsMap.get (pendingTakeovers w') (trim (pin t)) = None /\
  JsMap.get (sockets w') tid = None /\
  held_codes_wf (state w').
Proof.
  intros Hh W Hne Ht. cbv zeta.
  pose proof (on_hostKickTeam_wf env w host (Some tid) pin0 W) as Wf.
  unfold on_hostKickTeam in *. rewrite Hh in *. simpl negb in *. cbv iota in *.
  assert (Tr : truthy (Some tid) = true).
  { simpl. apply negb_true_iff. now apply String.eqb_neq. }
  rewrite Tr, Ht in *.
  assert (Hid : id t = tid).
  { destruct (teams_wf_In _ _ _ W (get_In _ _ _ Ht)) as [H _]. exact H. }
  pose proof (kickTeamSocket_world env
                (with_pending (clearPendingTakeoverForPin (pendingTakeovers w) (pin t) None) w)
                t) as K.
  cbv zeta in K.
  destruct (kickTeamSocket env _ t) as [w1 o1]. simpl in *.
  destruct K as (K1 & K2 & K3 & K4). rewrite Hid in *.
  split; [exact K1|]. split; [exact K2|].
  split; [apply K4, clearPending_gone|]. split; [exact K3 | exact Wf].
Qed.

Lemma on_hostKickTeam_releases_witness :
  let w := fst (demo_run demo_requested) in
  let w' := fst (on_hostKickTeam (at_ms 7) w sockH (Some "devY") None) in
  isHost sockH (state w) = true /\ "devY" <> "" /\
  option_map pin (JsMap.get (teams (state w)) "devY") = Some "1111" /\
  JsMap.get (pendingTakeovers w) "1111" <> None /\
  JsSet.has (claimedPins (state w')) "1111" = false /\
  JsMap.get (pendingTakeovers w') "1111" = None.
Proof.
  cbv zeta.
  assert (Hh : isHost sockH (state (fst (demo_run demo_requested))) = true)
    by (vm_compute; reflexivity).
  assert (Hne : "devY" <> "") by discriminate.
  assert (R : reachable demo_registry demo_bank (fst (demo_run demo_requested)))
    by (apply run_reachable, reachable_initial).
  assert (W : held_codes_wf (state (fst (demo_run demo_requested)))).
  { clear Hh Hne. induction R; [apply teams_wf_nil | now apply step_wf]. }
  split; [exact Hh|]. split; [exact Hne|]. split; [vm_compute; reflexivity|].
  split; [vm_compute; discriminate|].
  destruct (JsMap.get (teams (state (fst (demo_run demo_requested)))) "devY")
    as [t|] eqn:Ht; [|vm_compute in Ht; discriminate Ht].
  destruct (on_hostKickTeam_releases (at_ms 7) _ sockH "devY" None t Hh W Hne Ht)
    as (_ & H2 & H3 & _).
  vm_compute in Ht. inversion Ht; subst t. exact (conj H2 H3).
Defined.

(** ** Requests, host commands and score corrections *)

Lemma delete_set_absent {V : Type} (m : JsMap.t V) (k : string) (v : V) :
  JsMap.get m k = None -> JsMap.delete (JsMap.set m k v) k = m.
Proof.
  induction m as [|[k0 v0] m IH]; simpl.
  - intros _. now rewrite String.eqb_refl.
  - destruct (String.eqb k0 k) eqn:E; [discriminate|].
    intros H. simpl. rewrite E. simpl. now rewrite IH.
Qed.

(** X15. A takeover request that the host denies leaves no trace: when a
    socket without a team asks for a code that is taken and has no request
    waiting, the request is recorded and the state is untouched; when the
    host then denies it, the world is exactly the one before the request,
    and the denial goes to the requester alone, followed by a broadcast. *)
Theorem takeover_request_then_deny (registry : list TeamInfo) (env1 env2 : Env)
    (w : World) (requester host : Socket) (pin0 : string) :
  lookupTeamInfo registry (trim pin0) <> None ->
  JsMap.has (teams (state w)) (sock_id requester) = false ->
  JsSet.has (claimedPins (state w)) (trim pin0) = true ->
  JsMap.get (pendingTakeovers w) (trim pin0) = None ->
  isHost host (state w) = true ->
  let w1 := fst (on_joinTeam registry env1 w requester pin0) in
  let r := on_hostDenyTakeover env2 w1 host pin0 in
  state w1 = state w /\
  JsMap.get (pendingTakeovers w1) (trim pin0)
  = Some (mkTakeover (sock_id requester) (now env1)
            (sock_ip requester) (sock_userAgent requester)) /\
  fst r = w /\
  (forall rs, JsMap.get (sockets w) (sock_id requester) = Some rs ->
     snd r = emit_to (sock_id rs) msg_takeoverDenied :: broadcast env2 w).
Proof.
  intros Hl Ht Hc Hp Hh. cbv zeta. unfold on_joinTeam.
  destruct (lookupTeamInfo registry (trim pin0)) as [info|]; [|congruence].
  rewrite Ht, Hc. simpl fst.
  split; [reflexivity|]. split; [simpl; apply JsMapFacts.get_set_same|].
  unfold on_hostDenyTakeover. simpl state. rewrite Hh. simpl negb. cbv iota.
  simpl pendingTakeovers. rewrite JsMapFacts.get_set_same.
  rewrite (delete_set_absent _ _ _ Hp).
  destruct w as [st pend socks]. simpl in *.
  split; [reflexivity|].
  intros rs Hrs. rewrite Hrs. reflexivity.
Qed.

Lemma takeover_request_then_deny_witness :
  let w := fst (demo_run demo_lobby) in
  let w1 := fst (on_joinTeam demo_registry (at_ms 6) w sockX "1111") in
  JsSet.has (claimedPins (state w)) (trim "1111") = true /\
  JsMap.get (pendingTakeovers w1) "1111" <> None /\
  fst (on_hostDenyTakeover (at_ms 7) w1 sockH "1111") = w.
Proof.
  cbv zeta.
  assert (Hc : JsSet.has (claimedPins (state (fst (demo_run demo_lobby)))) (trim "1111") = true)
    by (vm_compute; reflexivity).
  split; [exact Hc|].
  assert (Hl : lookupTeamInfo demo_registry (trim "1111") <> None)
    by (vm_compute; discriminate).
  assert (Ht : JsMap.has (teams (state (fst (demo_run demo_lobby)))) (sock_id sockX) = false)
    by (vm_compute; reflexivity).
  assert (Hp : JsMap.get (pendingTakeovers (fst (demo_run demo_lobby))) (trim "1111") = None)
    by (vm_compute; reflexivity).
  assert (Hh : isHost sockH (state (fst (demo_run demo_lobby))) = true)
    by (vm_compute; reflexivity).
  destruct (takeover_request_then_deny demo_registry (at_ms 6) (at_ms 7) _ sockX sockH
              "1111" Hl Ht Hc Hp Hh) as (_ & H2 & H3 & _).
  split; [|exact H3].
  change (trim "1111") with "1111" in H2. rewrite H2. discriminate.
Defined.

(** X16. The [isHost] guard of the host-only commands (kick, approve,
    deny, reset, shuffle and manual-scoring settings, score adjustment,
    start, pause toggle, reveal, next). A command that comes with its
    argument from a socket that is not the registered host is ignored
    without any message, and with no host registered nobody can issue one.
    The guard does not cover a missing argument: hostKickTeam,
    hostApproveTakeover, hostDenyTakeover, hostSetShuffle and
    hostAdjustScore (and joinTeam) sent with no argument or with null throw
    while binding the handler's parameter, before [isHost] is consulted,
    whoever sends them; the commands whose handler binds no pattern are
    ignored from a socket that is not the host even then. *)
Theorem host_commands_need_host (registry : list TeamInfo) (bank : list Question)
    (env : Env) (w : World) :
  (forall socket e, isHost socket (state w) = false -> is_host_command e = true ->
     handle registry bank env w socket e = (w, [])) /\
  (hostId (state w) = None ->
   forall socket e, is_host_command e = true ->
     handle registry bank env w socket e = (w, [])) /\
  (forall socket n m, destructures n = true ->
     deliver registry bank env w socket n m = None) /\
  (forall socket n m, isHost socket (state w) = false ->
     is_host_event n = true -> destructures n = false ->
     deliver registry bank env w socket n m = Some (w, [])).
Proof.
  split; [|split; [|split]].
  - intros socket e Hh He. now apply host_command_ignored.
  - intros Hn socket e He. apply host_command_ignored; auto.
    unfold isHost. now rewrite Hn.
  - intros socket n m Hd. unfold deliver. destruct n; try discriminate Hd; reflexivity.
  - intros socket n m Hh Hn Hd. unfold deliver.
    destruct n; try discriminate Hn; try discriminate Hd;
      cbn [without_payload option_map]; f_equal;
      (apply host_command_ignored; [exact Hh | reflexivity]).
Qed.

Lemma host_commands_need_host_witness :
  let w := fst (demo_run demo_question) in
  isHost sockY (state w) = false /\
  handle demo_registry demo_bank (at_ms 5000) w sockY hostReveal = (w, []) /\
  deliver demo_registry demo_bank (at_ms 5000) w sockY ev_hostReveal no_argument
  = Some (w, []) /\
  deliver demo_registry demo_bank (at_ms 5000) w sockY ev_hostKickTeam no_argument = None.
Proof.
  cbv zeta.
  assert (Hh : isHost sockY (state (fst (demo_run demo_question))) = false)
    by (vm_compute; reflexivity).
  destruct (host_commands_need_host demo_registry demo_bank (at_ms 5000)
              (fst (demo_run demo_question))) as (H1 & _ & H3 & H4).
  split; [exact Hh|].
  split; [exact (H1 sockY hostReveal Hh eq_refl)|].
  split; [exact (H4 sockY ev_hostReveal no_argument Hh eq_refl eq_refl)|].
  exact (H3 sockY ev_hostKickTeam no_argument eq_refl).
Defined.

(** X17. A score adjustment by the host, for a delta that is a whole
    number, with the score, the delta and their sum within the range where
    JavaScript adds whole numbers exactly (2^53 either way). It works in
    every phase and touches one score only: the team named gets the delta
    added, signed, with no check against any answer; all its other fields,
    all other teams, the claimed codes and the game progress stay as they
    are, and one totals sync is issued. Adding a delta and then its
    opposite restores the score. An unknown team or a delta that is not a
    finite number changes nothing and emits nothing. *)
Theorem on_hostAdjustScore_effect (env : Env) (w : World) (host : Socket) (tid : SockId) :
  isHost host (state w) = true ->
  (forall d, JsMap.get (teams (state w)) tid = None ->
     on_hostAdjustScore env w host tid d = (w, [])) /\
  on_hostAdjustScore env w host tid None = (w, []) /\
  (forall t d, JsMap.get (teams (state w)) tid = Some t ->
     safe_integer (score t) -> safe_integer d -> safe_integer (score t + d) ->
     let r := on_hostAdjustScore env w host tid (Some d) in
     JsMap.get (teams (state (fst r))) tid = Some (set_score (score t + d) t) /\
     (forall k, k <> tid ->
        JsMap.get (teams (state (fst r))) k = JsMap.get (teams (state w)) k) /\
     claimedPins (state (fst r)) = claimedPins (state w) /\
     same_game (state w) (state (fst r)) /\
     count_out is_totals_sync (snd r) = 1%nat /\
     (forall env',
        option_map score
          (JsMap.get (teams (state (fst (on_hostAdjustScore env' (fst r) host tid
                                           (Some (- d)))))) tid)
        = Some (score t))).
Proof.
  intros Hh. unfold on_hostAdjustScore. rewrite Hh. simpl negb. cbv iota.
  split; [intros d ->; reflexivity|].
  split; [destruct (JsMap.get (teams (state w)) tid); reflexivity|].
  intros t d Ht _ _ _. cbv zeta. rewrite Ht. cbn [fst snd].
  split; [simpl; apply JsMapFacts.get_set_same|].
  split; [intros k Hk; simpl; apply JsMapFacts.get_set_other; congruence|].
  split; [reflexivity|]. split; [solve_same_game|]. split.
  - rewrite count_out_app, broadcast_no_store_call by reflexivity. reflexivity.
  - intros env'. simpl state. unfold isHost in *. simpl hostId. rewrite Hh.
    simpl negb. cbv iota. simpl teams at 2. rewrite JsMapFacts.get_set_same.
    simpl. rewrite JsMapFacts.get_set_same. simpl. f_equal. lia.
Qed.

Lemma on_hostAdjustScore_effect_witness :
  let w := fst (demo_run demo_revealed) in
  isHost sockH (state w) = true /\
  option_map score (JsMap.get (teams (state w)) "devY") = Some 20 /\
  safe_integer 20 /\ safe_integer (-25) /\ safe_integer (20 + -25) /\
  option_map score
    (JsMap.get (teams (state (fst (on_hostAdjustScore (at_ms 9500) w sockH "devY"
                                     (Some (-25)))))) "devY") = Some (-5).
Proof.
  cbv zeta.
  assert (Hh : isHost sockH (state (fst (demo_run demo_revealed))) = true)
    by (vm_compute; reflexivity).
  assert (S1 : safe_integer 20) by (unfold safe_integer; lia).
  assert (S2 : safe_integer (-25)) by (unfold safe_integer; lia).
  assert (S3 : safe_integer (20 + -25)) by (unfold safe_integer; lia).
  split; [exact Hh|]. split; [vm_compute; reflexivity|].
  split; [exact S1|]. split; [exact S2|]. split; [exact S3|].
  destruct (JsMap.get (teams (state (fst (demo_run demo_revealed)))) "devY")
    as [t|] eqn:Ht; [|vm_compute in Ht; discriminate Ht].
  assert (Es : score t = 20) by (vm_compute in Ht; inversion Ht; reflexivity).
  assert (T1 : safe_integer (score t)) by (rewrite Es; exact S1).
  assert (T3 : safe_integer (score t + -25)) by (rewrite Es; exact S3).
  destruct (proj2 (proj2 (on_hostAdjustScore_effect (at_ms 9500) _ sockH "devY" Hh))
              t (-25) Ht T1 S2 T3) as (H1 & _).
  rewrite H1. vm_compute in Ht. inversion Ht; subst t. reflexivity.
Defined.

(** X18. The outcomes of joinTeam. Without an argument, or with null, the
    handler throws while binding its parameter and nothing else happens.
    With one, the code entered is trimmed of white space, and then.
    Rejected: a code that is not in the registry, or a socket that already
    holds a team, gets a joinError and nothing changes. Pending: a code
    that is taken records the caller as the one requester for that code,
    replacing an earlier one, and leaves teams and claimed codes alone.
    Joined: a free code becomes claimed and the caller gets its team; the
    requests stay as they are. *)
Theorem on_joinTeam_outcomes (registry : list TeamInfo) (env : Env) (w : World)
    (socket : Socket) (pin0 : string) :
  let sid := sock_id socket in
  let entered := trim pin0 in
  let r := on_joinTeam registry env w socket pin0 in
  (forall bank m, deliver registry bank env w socket ev_joinTeam m = None) /\
  (lookupTeamInfo registry entered = None ->
   exists m, r = (w, [emit_to sid (msg_joinError m)])) /\
  (JsMap.has (teams (state w)) sid = true ->
   exists m, r = (w, [emit_to sid (msg_joinError m)])) /\
  (forall info, lookupTeamInfo registry entered = Some info ->
     JsMap.has (teams (state w)) sid = false ->
     (JsSet.has (claimedPins (state w)) entered = true ->
      state (fst r) = state w /\ sockets (fst r) = sockets w /\
      JsMap.get (pendingTakeovers (fst r)) entered
      = Some (mkTakeover sid (now env) (sock_ip socket) (sock_userAgent socket)) /\
      (forall k, k <> entered ->
         JsMap.get (pendingTakeovers (fst r)) k = JsMap.get (pendingTakeovers w) k) /\
      In (emit_to sid (msg_takeoverRequested entered)) (snd r)) /\
     (JsSet.has (claimedPins (state w)) entered = false ->
      JsMap.get (teams (state (fst r))) sid = Some (newTeam env socket entered info) /\
      JsSet.has (claimedPins (state (fst r))) entered = true /\
      pendingTakeovers (fst r) = pendingTakeovers w /\
      (forall k, k <> sid ->
         JsMap.get (teams (state (fst r))) k = JsMap.get (teams (state w)) k) /\
      In (emit_to sid (msg_joined sid (ti_name info) (ti_avatarUrl info))) (snd r))).
Proof.
  cbv zeta. unfold on_joinTeam. split; [reflexivity|]. split; [|split].
  - intros ->. eauto.
  - intros Hh. destruct (lookupTeamInfo registry (trim pin0)); [rewrite Hh|]; eauto.
  - intros info -> Hh. rewrite Hh. split; intros Hc; rewrite Hc.
    + simpl. split; [reflexivity|]. split; [reflexivity|].
      split; [apply JsMapFacts.get_set_same|].
      split; [intros k Hk; apply JsMapFacts.get_set_other; congruence | now left].
    + unfold doJoinTeam. simpl.
      split; [apply JsMapFacts.get_set_same|]. split; [apply has_add_same|].
      split; [reflexivity|].
      split; [intros k Hk; apply JsMapFacts.get_set_other; congruence | now left].
Qed.

Lemma on_joinTeam_outcomes_witness :
  let w := fst (demo_run demo_lobby) in
  let pin0 := (" 2222" ++ String (ascii_of_nat 194) (String (ascii_of_nat 160) ""))%string in
  trim pin0 = "2222" /\
  lookupTeamInfo demo_registry (trim pin0)
  = Some (mkTeamInfo "2222" "Ho" "" ["Chi"]) /\
  JsMap.has (teams (state w)) (sock_id sockX) = false /\
  JsSet.has (claimedPins (state w)) (trim pin0) = false /\
  JsSet.has (claimedPins (state (fst (on_joinTeam demo_registry (at_ms 7) w sockX pin0))))
    "2222" = true.
Proof.
  cbv zeta.
  set (pin0 := (" 2222" ++ String (ascii_of_nat 194) (String (ascii_of_nat 160) ""))%string).
  assert (Et : trim pin0 = "2222") by reflexivity.
  assert (Hl : lookupTeamInfo demo_registry (trim pin0)
               = Some (mkTeamInfo "2222" "Ho" "" ["Chi"])) by reflexivity.
  assert (Hh : JsMap.has (teams (state (fst (demo_run demo_lobby)))) (sock_id sockX) = false)
    by (vm_compute; reflexivity).
  assert (Hc : JsSet.has (claimedPins (state (fst (demo_run demo_lobby)))) (trim pin0) = false)
    by (vm_compute; reflexivity).
  split; [exact Et|]. split; [exact Hl|]. split; [exact Hh|]. split; [exact Hc|].
  destruct (proj2 (proj2 (proj2 (proj2
              (on_joinTeam_outcomes demo_registry (at_ms 7) (fst (demo_run demo_lobby))
                 sockX pin0))) _ Hl Hh) Hc) as (_ & H2 & _).
  rewrite Et in H2. exact H2.
Defined.

(** ** Loading the sheets *)

Lemma lower_ascii_not_P (c : ascii) : lower_ascii c <> "P"%char.
Proof.
  destruct c as [[] [] [] [] [] [] [] []]; vm_compute; discriminate.
Qed.

Lemma toLowerCase_not_Pin (s : string) : String.eqb "Pin" (toLowerCase s) = false.
Proof.
  apply String.eqb_neq. destruct s as [|c r]; simpl; [discriminate|].
  intros H. inversion H as [[Hc Hr]]. symmetry in Hc.
  exact (lower_ascii_not_P c Hc).
Qed.

(** X19. loadTeamsFromSheet never returns a team. As it is written it
    throws whatever the sheet holds: it awaits getSheetsClient, which calls
    getAuth, a name that is not defined. The part of its body behind that
    call could not return a team either: with fewer than two rows it
    returns the empty roster, and with a header row and at least one more
    row it throws the headers error whatever the headers are, because it
    looks for the header "Pin", with a capital, among headers it has just
    put in lower case. *)
Theorem loadTeamsFromSheet_never_loads (toNumber : string -> JsNum)
    (rows : list (list string)) :
  (exists m, loadTeamsFromSheet toNumber rows = Thrown m) /\
  ((length rows < 2)%nat -> teamsOfRows toNumber rows = Returned []) /\
  ((2 <= length rows)%nat -> exists m, teamsOfRows toNumber rows = Thrown m) /\
  (forall teams, teamsOfRows toNumber rows = Returned teams -> teams = []).
Proof.
  split; [eexists; reflexivity|].
  assert (P : indexOf "Pin" (map (fun h => toLowerCase (trim h)) (hd [] rows)) = -1).
  { apply findIndex_none. intros x Hx. apply in_map_iff in Hx.
    destruct Hx as (h & <- & _). apply toLowerCase_not_Pin. }
  unfold teamsOfRows. rewrite P. simpl orb.
  destruct (length rows <? 2)%nat eqn:E.
  - apply Nat.ltb_lt in E. repeat split; intros; try lia; congruence.
  - apply Nat.ltb_ge in E. repeat split; intros; try lia; try discriminate. eauto.
Qed.

Lemma loadTeamsFromSheet_never_loads_witness :
  let rows := [["pin"; "name"; "avatarUrl"; "members"; "score"];
               ["1111"; "Rong"; ""; "An, Binh"; "0"]] in
  (2 <= length rows)%nat /\
  (exists m, teamsOfRows (fun _ => Fin 0) rows = Thrown m) /\
  (exists m, loadTeamsFromSheet (fun _ => Fin 0) rows = Thrown m).
Proof.
  cbv zeta.
  assert (H : (2 <= length [["pin"; "name"; "avatarUrl"; "members"; "score"];
                            ["1111"; "Rong"; ""; "An, Binh"; "0"]])%nat)
    by (simpl; lia).
  split; [exact H|].
  split; [exact (proj1 (proj2 (proj2 (loadTeamsFromSheet_never_loads (fun _ => Fin 0) _))) H)|].
  exact (proj1 (loadTeamsFromSheet_never_loads (fun _ => Fin 0) _)).
Defined.

Lemma Forall_flat_map {A B : Type} (P : B -> Prop) (f : A -> list B) (l : list A) :
  (forall x, In x l -> Forall P (f x)) -> Forall P (flat_map f l).
Proof.
  induction l as [|a l IH]; simpl; intros H; [constructor|].
  apply Forall_app. split; [apply H; now left | apply IH; intros; apply H; now right].
Qed.

Lemma length_flat_map_le {A B : Type} (f : A -> list B) (l : list A) :
  (forall x, (length (f x) <= 1)%nat) -> (length (flat_map f l) <= length l)%nat.
Proof.
  intros H. induction l as [|a l IH]; simpl; auto.
  rewrite length_app. specialize (H a). lia.
Qed.

Lemma normalizeCorrectLetter_cases (x : string) :
  normalizeCorrectLetter x = "" \/ normalizeCorrectLetter x = "A" \/
  normalizeCorrectLetter x = "B" \/ normalizeCorrectLetter x = "C" \/
  normalizeCorrectLetter x = "D".
Proof.
  unfold normalizeCorrectLetter, includes. simpl.
  destruct (String.eqb (toUpperCase (trim x)) "A") eqn:EA;
    [apply String.eqb_eq in EA; rewrite EA; auto|].
  destruct (String.eqb (toUpperCase (trim x)) "B") eqn:EB;
    [apply String.eqb_eq in EB; rewrite EB; simpl; auto|].
  destruct (String.eqb (toUpperCase (trim x)) "C") eqn:EC;
    [apply String.eqb_eq in EC; rewrite EC; simpl; auto|].
  destruct (String.eqb (toUpperCase (trim x)) "D") eqn:ED;
    [apply String.eqb_eq in ED; rewrite ED; simpl; auto|].
  simpl. auto.
Qed.

Lemma questionOfRow_wf (toNumber : string -> JsNum)
    (iQid iQuestion iMediaType iMediaUrl iA iB iC iD iCorrect iTimeSec iEnabled : Z)
    (r : nat) (row : list string) :
  Forall question_wf
    (questionOfRow toNumber iQid iQuestion iMediaType iMediaUrl iA iB iC iD iCorrect
       iTimeSec iEnabled r row) /\
  (length (questionOfRow toNumber iQid iQuestion iMediaType iMediaUrl iA iB iC iD
             iCorrect iTimeSec iEnabled r row) <= 1)%nat.
Proof.
  unfold questionOfRow.
  destruct (negb _); [split; [constructor | simpl; lia]|].
  destruct (String.eqb (trim (cell row iQuestion)) "") eqn:Eq;
    [split; [constructor | simpl; lia]|].
  destruct (negb (forallb _ _)) eqn:Ec; [split; [constructor | simpl; lia]|].
  destruct (String.eqb (normalizeCorrectLetter (cell row iCorrect)) "") eqn:El;
    [split; [constructor | simpl; lia]|].
  split; [|simpl; lia]. constructor; [|constructor].
  apply negb_false_iff in Ec. simpl in Ec.
  repeat (apply andb_prop in Ec; destruct Ec as [? Ec]).
  apply String.eqb_neq in Eq.
  unfold question_wf. simpl.
  split; [exact Eq|]. split.
  { set (raw := if iQid =? -1 then "" else trim (cell row iQid)).
    destruct (String.eqb raw "") eqn:E; [discriminate|].
    now apply String.eqb_neq. }
  split; [reflexivity|]. split.
  { repeat constructor;
      match goal with
      | H : (0 <? String.length ?x)%nat = true |- ?x <> "" =>
          intros E0; rewrite E0 in H; discriminate
      end. }
  split; [repeat case_if; lia|].
  split; [eexists; split; [reflexivity | lia]|].
  set (mt := if iMediaType =? -1 then "" else toLowerCase (trim (cell row iMediaType))).
  set (mu := if iMediaUrl =? -1 then "" else trim (cell row iMediaUrl)).
  destruct (String.eqb mt "image") eqn:Ei.
  - apply String.eqb_eq in Ei. rewrite Ei. simpl.
    destruct (String.eqb mu "") eqn:Eu; simpl.
    + split; [auto|]. split; auto.
    + apply String.eqb_neq in Eu. split; [auto|]. split; intros; congruence.
  - destruct (String.eqb mt "video") eqn:Ev.
    + apply String.eqb_eq in Ev. rewrite Ev. simpl.
      destruct (String.eqb mu "") eqn:Eu; simpl.
      * split; [auto|]. split; auto.
      * apply String.eqb_neq in Eu. split; [auto|]. split; intros; congruence.
    + simpl. split; [auto|]. split; auto.
Qed.

(** X20. loadQuestionsFromSheet as it is written throws whatever the sheet
    holds, at the same call of getSheetsClient. The part of its body behind
    that call turns rows into well formed questions only: a text and an id
    that are not empty, exactly four choices none of which is empty, a
    correct index from 0 to 3, a time budget from 5 to 300 seconds, and
    media either of kind image or video with an address or absent
    altogether. Rows that fail are skipped, so there are at most as many
    questions as rows below the header; fewer than two rows give no
    question. *)
Theorem questionsOfRows_wellformed (toNumber : string -> JsNum)
    (rows : list (list string)) :
  (exists m, loadQuestionsFromSheet toNumber rows = Thrown m) /\
  ((length rows < 2)%nat -> questionsOfRows toNumber rows = Returned []) /\
  (forall qs, questionsOfRows toNumber rows = Returned qs ->
     Forall question_wf qs /\ (length qs <= length rows - 1)%nat).
Proof.
  split; [eexists; reflexivity|].
  unfold questionsOfRows. split.
  - intros H. apply Nat.ltb_lt in H. now rewrite H.
  - intros qs. destruct (length rows <? 2)%nat.
    + intros E. inversion E. split; [constructor | simpl; lia].
    + case_if; [discriminate|]. intros E. inversion E. split.
      * apply Forall_flat_map. intros [r row] _. apply questionOfRow_wf.
      * eapply Nat.le_trans;
          [apply length_flat_map_le; intros [r row]; apply questionOfRow_wf|].
        rewrite length_combine, length_seq.
        destruct rows; simpl; lia.
Qed.

Lemma questionsOfRows_wellformed_witness :
  let rows := [["question"; "A"; "B"; "C"; "D"; "correct"; "timeSec"];
               ["2 + 2 = ?"; "3"; "4"; "5"; "6"; " b "; "900"];
               ["no answer"; "1"; "2"; ""; "4"; "A"; "10"]] in
  questionsOfRows (fun _ => Fin 900) rows
  = Returned [mkQuestion "ROW-2" "2 + 2 = ?" ["3"; "4"; "5"; "6"] 1 (Some 300) "" ""] /\
  question_wf (mkQuestion "ROW-2" "2 + 2 = ?" ["3"; "4"; "5"; "6"] 1 (Some 300) "" "").
Proof.
  cbv zeta.
  assert (E : questionsOfRows (fun _ => Fin 900)
                [["question"; "A"; "B"; "C"; "D"; "correct"; "timeSec"];
                 ["2 + 2 = ?"; "3"; "4"; "5"; "6"; " b "; "900"];
                 ["no answer"; "1"; "2"; ""; "4"; "A"; "10"]]
              = Returned [mkQuestion "ROW-2" "2 + 2 = ?" ["3"; "4"; "5"; "6"] 1
                            (Some 300) "" ""])
    by (vm_compute; reflexivity).
  split; [exact E|].
  destruct (proj2 (proj2 (questionsOfRows_wellformed (fun _ => Fin 900) _)) _ E) as [F _].
  inversion F; assumption.
Defined.

Lemma keeps_answer_wf (q q' : Question) :
  keeps_answer q q' -> question_wf q -> question_wf q'.
Proof.
  intros (K1 & K2 & K3 & K4 & K5 & K6 & K7 & _) (W1 & W2 & W3 & W4 & W5 & W6 & W7 & W8).
  assert (L : length (choices q') = 4%nat)
    by (rewrite (Permutation_length K6); exact W3).
  unfold question_wf. rewrite K1, K2, K3, K4, K5.
  repeat split; auto; try tauto.
  - eapply Permutation_Forall; [apply Permutation_sym; exact K6 | exact W4].
  - destruct K7 as [K7 _]; lia.
  - destruct K7 as [K7 _]; lia.
Qed.

Lemma buildGameQuestions_wf (rnd : nat -> Z) (bank : list Question) (sq sc : bool) :
  Forall question_wf bank -> Forall question_wf (buildGameQuestions rnd bank sq sc).
Proof.
  intros W. unfold buildGameQuestions.
  assert (M : forall mid k, Forall question_wf mid ->
              Forall question_wf (if sq then fst (shuffleArray rnd mid k) else mid)).
  { intros mid k F. destruct sq; auto.
    eapply Permutation_Forall; [|exact F].
    apply Permutation_sym. apply shuffle_from_perm. }
  destruct sc; [|now apply M].
  pose proof (shuffleChoicesAll_keeps rnd bank 0) as F.
  destruct (shuffleChoicesAll rnd bank 0) as [mid k]. simpl in F.
  apply M. clear M. induction F; inversion W; subst; constructor; auto.
  eapply keeps_answer_wf; eauto.
Qed.

(** X21. A run is as well formed as its bank: whatever the shuffle
    toggles and the random draws, when every question of the bank is well
    formed, so is every question of the run that buildGameQuestions makes
    of it, and its correct index points at one of its four choices, which
    is not empty. *)
Theorem buildGameQuestions_wellformed (bank : list Question) (rnd : nat -> Z)
    (shuffleQ shuffleC : bool) :
  Forall question_wf bank ->
  Forall (fun q => question_wf q /\
                   exists c, nth_error (choices q) (Z.to_nat (correctIndex q)) = Some c /\
                             c <> "")
    (buildGameQuestions rnd bank shuffleQ shuffleC).
Proof.
  intros E.
  pose proof (buildGameQuestions_wf rnd bank shuffleQ shuffleC E) as W.
  rewrite Forall_forall in *. intros q Hq. specialize (W q Hq).
  split; [exact W|].
  destruct W as (_ & _ & W3 & W4 & W5 & _).
  destruct (nth_error (choices q) (Z.to_nat (correctIndex q))) as [c|] eqn:N.
  - exists c. split; auto. rewrite Forall_forall in W4. apply W4.
    eapply nth_error_In; eauto.
  - apply nth_error_None in N. lia.
Qed.

Lemma buildGameQuestions_wellformed_witness :
  Forall question_wf demo_bank /\
  Forall question_wf (buildGameQuestions (fun k => Z.of_nat k + 1) demo_bank true true).
Proof.
  assert (E : Forall question_wf demo_bank).
  { unfold demo_bank, question_wf.
    repeat constructor; simpl; try lia; try discriminate; auto;
      try (eexists; split; [reflexivity | lia]). }
  split; [exact E|].
  pose proof (buildGameQuestions_wellformed demo_bank (fun k => Z.of_nat k + 1)
                true true E) as F.
  rewrite Forall_forall in *. intros q Hq. exact (proj1 (F q Hq)).
Defined.

(** ** Escaping in the browser *)

Lemma occurs_app (c : ascii) (a b : string) :
  occurs c (a ++ b) = occurs c a || occurs c b.
Proof.
  induction a as [|x a IH]; simpl; auto. rewrite IH. now rewrite orb_assoc.
Qed.

Lemma replaceAll_removes (c : ascii) (by_ s : string) :
  occurs c by_ = false -> occurs c (replaceAll c by_ s) = false.
Proof.
  intros H. induction s as [|x r IH]; simpl; auto.
  destruct (Ascii.eqb x c) eqn:E; simpl.
  - now rewrite occurs_app, H, IH.
  - now rewrite E, IH.
Qed.

Lemma replaceAll_keeps_out (c d : ascii) (by_ s : string) :
  occurs d by_ = false -> occurs d s = false ->
  occurs d (replaceAll c by_ s) = false.
Proof.
  intros H. induction s as [|x r IH]; simpl; auto.
  intros Hs. apply orb_false_iff in Hs. destruct Hs as [H1 H2].
  destruct (Ascii.eqb x c); simpl.
  - rewrite occurs_app, H. simpl. auto.
  - rewrite H1. simpl. auto.
Qed.

Lemma string_app_assoc (a b c : string) : a ++ (b ++ c) = (a ++ b) ++ c.
Proof. induction a as [|x a IH]; simpl; auto. now rewrite IH. Qed.

Lemma replaceAll_app (c : ascii) (by_ a b : string) :
  replaceAll c by_ (a ++ b) = replaceAll c by_ a ++ replaceAll c by_ b.
Proof.
  induction a as [|x a IH]; simpl; auto.
  destruct (Ascii.eqb x c); rewrite IH; simpl; auto.
  apply string_app_assoc.
Qed.

Lemma replaceAll_absent (c : ascii) (by_ s : string) :
  occurs c s = false -> replaceAll c by_ s = s.
Proof.
  induction s as [|x r IH]; simpl; auto.
  intros H. apply orb_false_iff in H. destruct H as [H1 H2].
  now rewrite H1, IH.
Qed.

(** X22. Text escaped by esc holds none of the characters <, >, double
    quote and single quote, whatever the text was. Escaping goes piece by
    piece (the escape of a concatenation is the concatenation of the
    escapes), and a text without any of the five special characters is
    returned as it is. *)
Theorem esc_safe (s : string) :
  occurs "<" (esc s) = false /\ occurs ">" (esc s) = false /\
  occurs (ascii_of_nat 34) (esc s) = false /\ occurs "'" (esc s) = false /\
  (forall t, esc (s ++ t) = esc s ++ esc t) /\
  (occurs "&" s = false -> occurs "<" s = false -> occurs ">" s = false ->
   occurs (ascii_of_nat 34) s = false -> occurs "'" s = false -> esc s = s).
Proof.
  unfold esc. repeat split.
  - do 3 (apply replaceAll_keeps_out; [reflexivity|]).
    now apply replaceAll_removes.
  - do 2 (apply replaceAll_keeps_out; [reflexivity|]).
    now apply replaceAll_removes.
  - apply replaceAll_keeps_out; [reflexivity|]. now apply replaceAll_removes.
  - now apply replaceAll_removes.
  - intros t. now rewrite !replaceAll_app.
  - intros H1 H2 H3 H4 H5.
    rewrite (replaceAll_absent "&" _ s H1), (replaceAll_absent "<" _ s H2),
      (replaceAll_absent ">" _ s H3), (replaceAll_absent _ _ s H4).
    now apply replaceAll_absent.
Qed.

Lemma esc_safe_witness :
  occurs "&" "Rong 1" = false /\ esc "Rong 1" = "Rong 1" /\
  esc "<b>Tom & 'Jerry'</b>" = "&lt;b&gt;Tom &amp; &#039;Jerry&#039;&lt;/b&gt;".
Proof.
  assert (H : occurs "&" "Rong 1" = false) by reflexivity.
  split; [exact H|]. split; [|reflexivity].
  exact (proj2 (proj2 (proj2 (proj2 (proj2 (esc_safe "Rong 1")))))
           H eq_refl eq_refl eq_refl eq_refl).
Defined.

(** ** One holder per code *)

Lemma held_codes_invariant_witness :
  let w := fst (demo_run demo_takeover) in
  reachable demo_registry demo_bank w /\
  (length (holders (state w) "1111") <= 1)%nat /\
  (length (holders (state w) "2222") <= 1)%nat.
Proof.
  cbv zeta.
  assert (R : reachable demo_registry demo_bank (fst (demo_run demo_takeover)))
    by (apply run_reachable, reachable_initial).
  split; [exact R|].
  destruct (held_codes_invariant demo_registry demo_bank _ R) as (_ & H & _).
  split; apply H.
Defined.

(** ** Moving on *)

(** X24. hostNext from the host: after a reveal it only shows the
    leaderboard; from the leaderboard it finishes the game when the current
    question is the last of the run, and otherwise enters the next question
    paused, with the run clock at zero, the logging guard reset and every
    team's answer fields cleared. Scores are kept in all cases. In any
    other phase it changes nothing and emits nothing. *)
Theorem on_hostNext_effect (env : Env) (w : World) (host : Socket) :
  isHost host (state w) = true ->
  let r := on_hostNext env w host in
  let s := state w in
  let s' := state (fst r) in
  (phase s <> revealed -> phase s <> leaderboard -> r = (w, [])) /\
  (phase s = revealed ->
   phase s' = leaderboard /\ paused s' = true /\ qIndex s' = qIndex s /\
   teams s' = teams s) /\
  (forall qs, phase s = leaderboard -> gameQuestions s = Some qs ->
     (Z.of_nat (length qs) - 1 <= qIndex s ->
      phase s' = finished /\ paused s' = true /\ qIndex s' = qIndex s /\
      teams s' = teams s) /\
     (qIndex s < Z.of_nat (length qs) - 1 ->
      phase s' = question /\ qIndex s' = qIndex s + 1 /\ paused s' = true /\
      accumulatedRunMs s' = 0 /\ startedAtMs s' = 0 /\ questionLogged s' = false /\
      (forall sid, JsMap.get (teams s') sid
                   = option_map clearAnswer (JsMap.get (teams s) sid)) /\
      (forall sid t', JsMap.get (teams s') sid = Some t' ->
         answer_cleared t' /\
         exists t, JsMap.get (teams s) sid = Some t /\ score t' = score t))).
Proof.
  intros Hh. cbv zeta. unfold on_hostNext. rewrite Hh. simpl negb. cbv iota.
  split; [|split].
  - intros H1 H2. apply Phase_eqb_neq in H1, H2. now rewrite H1, H2.
  - intros H. rewrite H. simpl. unfold showLeaderboard. rewrite H. simpl. auto.
  - intros qs H Hg. rewrite H. simpl. unfold nextQuestion. rewrite Hg. split.
    + intros Hl. apply Z.leb_le in Hl. rewrite Hl. simpl. auto.
    + intros Hl. assert (E : (Z.of_nat (length qs) - 1 <=? qIndex (state w)) = false)
        by (apply Z.leb_gt; lia).
      rewrite E.
      destruct (startQuestion_effect (qIndex (state w) + 1) (state w))
        as (S1 & S2 & S3 & S4 & S5 & _ & S7).
      assert (T : forall sid,
                 JsMap.get (teams (startQuestion (qIndex (state w) + 1) (state w))) sid
                 = option_map clearAnswer (JsMap.get (teams (state w)) sid))
        by (intros; rewrite S7; apply JsMapFacts.get_update_all).
      do 5 (split; [assumption|]). split; [reflexivity|]. split; [exact T|].
      intros sid t' Ht'. rewrite T in Ht'.
      destruct (JsMap.get (teams (state w)) sid) as [t|]; inversion Ht'.
      split; [apply clearAnswer_cleared|]. exists t. auto.
Qed.

Lemma on_hostNext_effect_witness :
  let w := fst (demo_run demo_revealed) in
  isHost sockH (state w) = true /\ phase (state w) = revealed /\
  phase (state (fst (on_hostNext (at_ms 9500) w sockH))) = leaderboard.
Proof.
  cbv zeta.
  assert (Hh : isHost sockH (state (fst (demo_run demo_revealed))) = true)
    by (vm_compute; reflexivity).
  assert (Hp : phase (state (fst (demo_run demo_revealed))) = revealed)
    by (vm_compute; reflexivity).
  split; [exact Hh|]. split; [exact Hp|].
  exact (proj1 (proj1 (proj2 (on_hostNext_effect (at_ms 9500) _ sockH Hh)) Hp)).
Defined.

Lemma shuffleArray_permutation_witness :
  In "4" ["3"; "4"; "5"; "6"] /\
  In "4" (fst (shuffleArray (fun k => Z.of_nat k + 1) ["3"; "4"; "5"; "6"] 0)).
Proof.
  assert (H : In "4" ["3"; "4"; "5"; "6"]) by (simpl; auto).
  split; [exact H|].
  exact (proj2 (proj2 (proj2 (shuffleArray_permutation (fun k => Z.of_nat k + 1)
                                ["3"; "4"; "5"; "6"] 0)) "4") H).
Defined.
